(** * Notes API server: authentication middleware and note handlers

    A shallow embedding of [src/middleware/auth.js], of the JWT helper
    [verifySupabaseToken] and of the note routes of the Express
    application ([app.get('/api/notes')], [app.post('/api/notes')],
    [app.put('/api/notes/:id')], ...), followed by the properties of
    the specification that were checked against them.

    Layout:
    - JavaScript values, objects and the few string built-ins used;
    - the PostgREST query object that the supabase-js builder produces;
    - [Prog], the effects of a handler (database call, identity
      authority call, clock, random bytes, console), with exceptions;
    - the middleware and the handlers, line by line;
    - an in-memory store that answers the queries;
    - the other helpers of [lib/jwt], the two routes of [routes/auth]
      that answer from a token, and the status, category and label
      routes;
    - the theorems: those of the specification first, then further
      properties of the code. *)

From Stdlib Require Import String Ascii ZArith List Bool Lia Permutation.
From Stdlib Require Import DecimalString Sorted.
Import ListNotations.
Open Scope string_scope.
Open Scope Z_scope.

Set Implicit Arguments.

(* ================================================================== *)
(** ** JavaScript numbers and values *)

(** The numbers that occur are integers, plus the non-finite results of
    [parseInt] on garbage and of a division by zero. *)
Inductive jsnum : Type :=
| Fin (z : Z)
| NaN
| PInf
| NInf.

#[warnings="-register-all"]
Inductive jsval : Type :=
| JUndef
| JNull
| JBool (b : bool)
| JNum (n : jsnum)
| JStr (s : string)
| JArr (items : list jsval)
| JObj (fields : list (string * jsval)).

Definition jint (z : Z) : jsval := JNum (Fin z).

(** ToBoolean. *)
Definition truthy (v : jsval) : bool :=
  match v with
  | JUndef | JNull => false
  | JBool b => b
  | JNum (Fin z) => negb (z =? 0)
  | JNum NaN => false
  | JNum _ => true
  | JStr s => negb (s =? EmptyString)%string
  | JArr _ | JObj _ => true
  end.

(** [a || b] and [a ?? b] are not distinguished by the sources: only
    [||] is used. *)
Definition js_or (a b : jsval) : jsval := if truthy a then a else b.

Definition nullish (v : jsval) : bool :=
  match v with JUndef | JNull => true | _ => false end.

(** *** Arithmetic on [jsnum] *)

Definition num_neg (a : jsnum) : jsnum :=
  match a with Fin z => Fin (- z) | NaN => NaN | PInf => NInf | NInf => PInf end.

Definition num_add (a b : jsnum) : jsnum :=
  match a, b with
  | Fin x, Fin y => Fin (x + y)
  | NaN, _ | _, NaN => NaN
  | PInf, NInf | NInf, PInf => NaN
  | PInf, _ | _, PInf => PInf
  | NInf, _ | _, NInf => NInf
  end.

Definition num_sub (a b : jsnum) : jsnum := num_add a (num_neg b).

Definition inf_of_sign (positive : bool) : jsnum := if positive then PInf else NInf.

Definition num_mul (a b : jsnum) : jsnum :=
  match a, b with
  | Fin x, Fin y => Fin (x * y)
  | NaN, _ | _, NaN => NaN
  | Fin x, PInf | PInf, Fin x => if x =? 0 then NaN else inf_of_sign (0 <? x)
  | Fin x, NInf | NInf, Fin x => if x =? 0 then NaN else inf_of_sign (x <? 0)
  | PInf, PInf | NInf, NInf => PInf
  | PInf, NInf | NInf, PInf => NInf
  end.

(** [Math.ceil(a / b)]; [Z.div] rounds down for either sign of the
    divisor, so the ceiling is the negated floor of the negated
    quotient. *)
Definition ceil_div (a : Z) (b : jsnum) : jsnum :=
  match b with
  | Fin 0 => if a =? 0 then NaN else inf_of_sign (0 <? a)
  | Fin d => Fin (- ((- a) / d))
  | NaN => NaN
  | PInf | NInf => Fin 0
  end.

(** [a < b] on numbers; every comparison with [NaN] is false. *)
Definition num_lt (a b : jsnum) : bool :=
  match a, b with
  | Fin x, Fin y => x <? y
  | NaN, _ | _, NaN => false
  | NInf, NInf | PInf, _ | _, NInf => false
  | NInf, _ | _, PInf => true
  end.

Definition num_gt (a b : jsnum) : bool := num_lt b a.

(** SameValueZero on primitives, as [Array.prototype.includes] uses it
    ([NaN] is found by [includes]).  Objects and arrays are compared by
    identity in JavaScript; two values built separately never are the
    same one. *)
Definition same_value_zero (a b : jsval) : bool :=
  match a, b with
  | JUndef, JUndef | JNull, JNull => true
  | JBool x, JBool y => Bool.eqb x y
  | JNum (Fin x), JNum (Fin y) => x =? y
  | JNum NaN, JNum NaN | JNum PInf, JNum PInf | JNum NInf, JNum NInf => true
  | JStr x, JStr y => (x =? y)%string
  | _, _ => false
  end.

Definition includes_val (l : list jsval) (v : jsval) : bool :=
  existsb (fun x => same_value_zero x v) l.

(** [a === b] against a string literal. *)
Definition strict_eq_str (v : jsval) (lit : string) : bool :=
  match v with JStr s => (s =? lit)%string | _ => false end.

(* ================================================================== *)
(** ** Objects as ordered field lists *)

Definition fields := list (string * jsval).

Fixpoint field (k : string) (fs : fields) : option jsval :=
  match fs with
  | [] => None
  | (k', v) :: rest => if (k =? k')%string then Some v else field k rest
  end.

Fixpoint remove_field (k : string) (fs : fields) : fields :=
  match fs with
  | [] => []
  | (k', v) :: rest =>
      if (k =? k')%string then remove_field k rest
      else (k', v) :: remove_field k rest
  end.

(** Assignment keeps the position of an existing key and appends a new
    one, as property order in JavaScript does. *)
Fixpoint set_field (k : string) (v : jsval) (fs : fields) : fields :=
  match fs with
  | [] => [(k, v)]
  | (k', v') :: rest =>
      if (k =? k')%string then (k, v) :: remove_field k rest
      else (k', v') :: set_field k v rest
  end.

(** [v.k] where the base is known not to be null or undefined. *)
Definition prop (k : string) (v : jsval) : jsval :=
  match v with
  | JObj fs => match field k fs with Some x => x | None => JUndef end
  | _ => JUndef
  end.

(** [v?.k] *)
Definition opt_prop (k : string) (v : jsval) : jsval :=
  if nullish v then JUndef else prop k v.

Definition own_fields (v : jsval) : fields :=
  match v with JObj fs => fs | _ => [] end.

(** The object literal [{ ...base, k1: v1, ..., kn: vn }]. *)
Definition spread (base : jsval) (entries : fields) : jsval :=
  JObj (fold_left (fun acc kv => set_field (fst kv) (snd kv) acc) entries (own_fields base)).

(** The object literal [{ k1: v1, ..., kn: vn }]. *)
Definition obj (entries : fields) : jsval := spread (JObj []) entries.

(** *** JSON serialisation

    What [res.json] and the supabase-js client put on the wire:
    properties whose value is [undefined] are dropped, [undefined] in an
    array and non-finite numbers become [null]. *)
Fixpoint to_json (v : jsval) : jsval :=
  match v with
  | JUndef => JNull
  | JNum (Fin z) => JNum (Fin z)
  | JNum _ => JNull
  | JArr l => JArr (map to_json l)
  | JObj fs =>
      JObj ((fix go (fs : fields) : fields :=
               match fs with
               | [] => []
               | (k, JUndef) :: rest => go rest
               | (k, x) :: rest => (k, to_json x) :: go rest
               end) fs)
  | _ => v
  end.

Definition json_fields (fs : fields) : fields :=
  flat_map (fun kv => match snd kv with
                      | JUndef => []
                      | x => [(fst kv, to_json x)]
                      end) fs.

(* ================================================================== *)
(** ** String built-ins *)

Fixpoint drop (n : nat) (s : string) : string :=
  match n, s with
  | O, _ => s
  | S n', String _ rest => drop n' rest
  | S _, EmptyString => EmptyString
  end.

(** [hay.includes(needle)] *)
Fixpoint includes (needle hay : string) : bool :=
  if prefix needle hay then true
  else match hay with
       | EmptyString => false
       | String _ rest => includes needle rest
       end.

(** [s.replace(pat, rep)] with a string pattern: the first occurrence
    only. *)
Fixpoint replace (pat rep s : string) : string :=
  if prefix pat s then rep ++ drop (String.length pat) s
  else match s with
       | EmptyString => EmptyString
       | String c rest => String c (replace pat rep rest)
       end.

(** [s.split(sep)] for a one-character separator. *)
Fixpoint split (sep : ascii) (s : string) : list string :=
  match s with
  | EmptyString => [EmptyString]
  | String c rest =>
      if Ascii.eqb c sep then EmptyString :: split sep rest
      else match split sep rest with
           | [] => [String c EmptyString]
           | w :: ws => String c w :: ws
           end
  end.

Definition is_space (c : ascii) : bool :=
  let n := nat_of_ascii c in
  orb (Nat.eqb n 32) (andb (Nat.leb 9 n) (Nat.leb n 13)).

Fixpoint skip_spaces (s : string) : string :=
  match s with
  | String c rest => if is_space c then skip_spaces rest else s
  | EmptyString => s
  end.

Definition digit_of (radix : Z) (c : ascii) : option Z :=
  let n := Z.of_nat (nat_of_ascii c) in
  let d := if andb (48 <=? n) (n <=? 57) then n - 48
           else if andb (97 <=? n) (n <=? 102) then n - 87
           else if andb (65 <=? n) (n <=? 70) then n - 55
           else 99 in
  if d <? radix then Some d else None.

(** The longest prefix of digits, read in the radix; [None] when the
    text does not start with a digit. *)
Fixpoint digits (radix : Z) (s : string) (acc : option Z) : option Z :=
  match s with
  | EmptyString => acc
  | String c rest =>
      match digit_of radix c with
      | Some d => digits radix rest (Some (radix * match acc with Some a => a | None => 0 end + d))
      | None => acc
      end
  end.

Definition unsigned_int (s : string) : option Z :=
  match s with
  | String "0" (String "x" rest) | String "0" (String "X" rest) => digits 16 rest None
  | _ => digits 10 s None
  end.

(** [parseInt(s)] without a radix: leading white space, a sign, an
    optional [0x], then the longest run of digits. *)
Definition parseInt_string (s : string) : jsnum :=
  let body := skip_spaces s in
  let signed :=
    match body with
    | String "-" rest => (true, rest)
    | String "+" rest => (false, rest)
    | _ => (false, body)
    end in
  match unsigned_int (snd signed) with
  | Some v => Fin (if fst signed then - v else v)
  | None => NaN
  end.

(** [parseInt(v)]: the argument is converted to a string first.  The
    numbers passed by the sources are the small integer defaults [1] and
    [12], whose decimal text reads back as themselves; [undefined],
    [null], booleans, [NaN] and the infinities give text without a
    leading digit.  Arrays and objects do not reach [parseInt] (query
    values are strings). *)
Definition parseInt (v : jsval) : jsnum :=
  match v with
  | JStr s => parseInt_string s
  | JNum (Fin z) => Fin z
  | _ => NaN
  end.

(* ================================================================== *)
(** ** Errors, promises and the query object *)

(** An [Error] (or a PostgREST / auth error object): the sources read
    its [message] and its [code] only. *)
Record JsError : Type := { message : string; code : string }.

Definition TypeError (msg : string) : JsError := {| message := msg; code := EmptyString |}.

(** How an awaited promise, or a call that may throw, ends. *)
Inductive settled (A : Type) : Type :=
| Resolved (a : A)
| Rejected (e : JsError).

Arguments Rejected {A} e.

(** [v.k] where [v] may be null or undefined: a TypeError then. *)
Definition member (k : string) (v : jsval) : settled jsval :=
  if nullish v then Rejected (TypeError ("Cannot read properties of null (reading '" ++ k ++ "')"))
  else Resolved (prop k v).

(** A filter of the supabase-js builder: [.eq(column, value)] or
    [.or(expression)], the expression kept as the text the source
    builds. *)
Inductive Filter : Type :=
| FEq (column : string) (value : jsval)
| FOr (expr : string).

(** The column lists that occur in [select(...)]: ['*'] or named
    columns, with or without the two embedded resources
    [category:categories(id, name, color, icon)] and
    [post_labels(label:labels(id, name, color))]. *)
Record Columns : Type := {
  named : option (list string);
  with_category : bool;
  with_post_labels : bool
}.

Inductive Verb : Type :=
| Select (c : Columns) (head_count : bool)
| Insert (rows : list jsval)
| Update (patch : jsval)
| Delete.

Record Query : Type := {
  q_table : string;
  q_verb : Verb;
  q_filters : list Filter;
  q_order : option (string * bool);
  q_range : option (jsnum * jsnum);
  q_limit : option Z;
  q_returning : bool;
  q_single : bool
}.

(** The builder methods, in the order the sources chain them. *)
Definition from (table : string) (v : Verb) : Query :=
  {| q_table := table; q_verb := v; q_filters := []; q_order := None;
     q_range := None; q_limit := None; q_returning := false; q_single := false |}.

Definition eq_ (column : string) (value : jsval) (q : Query) : Query :=
  {| q_table := q_table q; q_verb := q_verb q;
     q_filters := q_filters q ++ [FEq column value]; q_order := q_order q;
     q_range := q_range q; q_limit := q_limit q;
     q_returning := q_returning q; q_single := q_single q |}.

Definition or_ (expr : string) (q : Query) : Query :=
  {| q_table := q_table q; q_verb := q_verb q;
     q_filters := q_filters q ++ [FOr expr]; q_order := q_order q;
     q_range := q_range q; q_limit := q_limit q;
     q_returning := q_returning q; q_single := q_single q |}.

Definition order (column : string) (ascending : bool) (q : Query) : Query :=
  {| q_table := q_table q; q_verb := q_verb q; q_filters := q_filters q;
     q_order := Some (column, ascending);
     q_range := q_range q; q_limit := q_limit q;
     q_returning := q_returning q; q_single := q_single q |}.

Definition range (lo hi : jsnum) (q : Query) : Query :=
  {| q_table := q_table q; q_verb := q_verb q; q_filters := q_filters q;
     q_order := q_order q; q_range := Some (lo, hi); q_limit := q_limit q;
     q_returning := q_returning q; q_single := q_single q |}.

Definition limit (n : Z) (q : Query) : Query :=
  {| q_table := q_table q; q_verb := q_verb q; q_filters := q_filters q;
     q_order := q_order q; q_range := q_range q; q_limit := Some n;
     q_returning := q_returning q; q_single := q_single q |}.

(** [.select()] after [insert], [update] or [delete]. *)
Definition returning (q : Query) : Query :=
  {| q_table := q_table q; q_verb := q_verb q; q_filters := q_filters q;
     q_order := q_order q; q_range := q_range q; q_limit := q_limit q;
     q_returning := true; q_single := q_single q |}.

Definition single (q : Query) : Query :=
  {| q_table := q_table q; q_verb := q_verb q; q_filters := q_filters q;
     q_order := q_order q; q_range := q_range q; q_limit := q_limit q;
     q_returning := q_returning q; q_single := true |}.

Notation "q |> f" := (f q) (at level 45, left associativity, only parsing).

Definition star : Columns :=
  {| named := None; with_category := false; with_post_labels := false |}.

Definition columns (l : list string) : Columns :=
  {| named := Some l; with_category := false; with_post_labels := false |}.

(** [*, category:categories(id, name, color, icon),
     post_labels(label:labels(id, name, color))] *)
Definition star_joined : Columns :=
  {| named := None; with_category := true; with_post_labels := true |}.

(** What a supabase-js query resolves to: [{ data, error, count }]. *)
Record DbReply : Type := {
  data : jsval;
  error : option JsError;
  count : option Z
}.

(** What [supabase.auth.getUser] resolves to:
    [{ data: { user }, error }]. *)
Record AuthReply : Type := {
  auth_user : jsval;
  auth_error : option JsError
}.

(* ================================================================== *)
(** ** Programs: the effects of a handler *)

(** A handler is a tree of calls to the outside: each node is one call
    and continues with whatever the call settles to.  [Throw] is an
    exception on its way to the nearest [try_catch]. *)
Inductive Prog (A : Type) : Type :=
| Ret (a : A)
| Throw (e : JsError)
| GetUser (token : jsval) (k : settled AuthReply -> Prog A)
| Db (q : Query) (k : settled DbReply -> Prog A)
| NewDate (k : Z -> Prog A)
| RandomBytesHex (n : Z) (k : string -> Prog A)
| Console (line : string) (k : Prog A).

Arguments Throw {A} e.
Arguments GetUser {A} token k.
Arguments Db {A} q k.
Arguments NewDate {A} k.
Arguments RandomBytesHex {A} n k.
Arguments Console {A} line k.

Fixpoint bind {A B : Type} (p : Prog A) (f : A -> Prog B) : Prog B :=
  match p with
  | Ret a => f a
  | Throw e => Throw e
  | GetUser t k => GetUser t (fun r => bind (k r) f)
  | Db q k => Db q (fun r => bind (k r) f)
  | NewDate k => NewDate (fun t => bind (k t) f)
  | RandomBytesHex n k => RandomBytesHex n (fun s => bind (k s) f)
  | Console l k => Console l (bind k f)
  end.

(** [try { p } catch (e) { h e }] *)
Fixpoint try_catch {A : Type} (p : Prog A) (h : JsError -> Prog A) : Prog A :=
  match p with
  | Ret a => Ret a
  | Throw e => h e
  | GetUser t k => GetUser t (fun r => try_catch (k r) h)
  | Db q k => Db q (fun r => try_catch (k r) h)
  | NewDate k => NewDate (fun t => try_catch (k t) h)
  | RandomBytesHex n k => RandomBytesHex n (fun s => try_catch (k s) h)
  | Console l k => Console l (try_catch k h)
  end.

Declare Scope prog_scope.
Delimit Scope prog_scope with prog.
Notation "x <- p ;; q" := (bind p (fun x => q))
  (at level 61, p at next level, right associativity) : prog_scope.
Notation "p ;; q" := (bind p (fun _ => q))
  (at level 61, right associativity) : prog_scope.
Open Scope prog_scope.

(** A settled value in program position: a rejection is thrown. *)
Definition settle {A : Type} (r : settled A) : Prog A :=
  match r with Resolved a => Ret a | Rejected e => Throw e end.

(** [await query] *)
Definition await_db (q : Query) : Prog DbReply := Db q settle.

(** [await supabase.auth.getUser(token)] *)
Definition await_getUser (token : jsval) : Prog AuthReply := GetUser token settle.

Definition new_Date : Prog jsval := NewDate (fun t => Ret (jint t)).

(** [require('crypto').randomBytes(32).toString('hex')] *)
Definition randomBytes_hex (n : Z) : Prog jsval := RandomBytesHex n (fun s => Ret (JStr s)).

Definition console (line : string) : Prog unit := Console line (Ret tt).

(** *** Running a program against a world *)

Inductive Event : Type :=
| EvGetUser (token : jsval)
| EvDb (q : Query)
| EvConsole (line : string).

(** The outside world: how each kind of call is answered in a state
    [W], and the state it leaves. *)
Record Handler (W : Type) : Type := {
  on_getUser : W -> jsval -> settled AuthReply * W;
  on_db : W -> Query -> settled DbReply * W;
  on_date : W -> Z;
  on_random : W -> Z -> string
}.

Record Run (A W : Type) : Type := {
  result : settled A;
  final : W;
  trace : list Event
}.

Definition logged {A W : Type} (e : Event) (r : Run A W) : Run A W :=
  {| result := result r; final := final r; trace := e :: trace r |}.

Fixpoint run {A W : Type} (H : Handler W) (p : Prog A) (w : W) : Run A W :=
  match p with
  | Ret a => {| result := Resolved a; final := w; trace := [] |}
  | Throw e => {| result := Rejected e; final := w; trace := [] |}
  | GetUser t k =>
      let (r, w') := on_getUser H w t in logged (EvGetUser t) (run H (k r) w')
  | Db q k =>
      let (r, w') := on_db H w q in logged (EvDb q) (run H (k r) w')
  | NewDate k => run H (k (on_date H w)) w
  | RandomBytesHex n k => run H (k (on_random H w n)) w
  | Console l k => logged (EvConsole l) (run H k w)
  end.

Definition is_getUser (e : Event) : bool :=
  match e with EvGetUser _ => true | _ => false end.

Definition is_db (e : Event) : bool :=
  match e with EvDb _ => true | _ => false end.

(** The number of calls made to the identity authority. *)
Definition authority_calls (t : list Event) : nat := length (filter is_getUser t).

Definition db_calls (t : list Event) : nat := length (filter is_db t).

(* ================================================================== *)
(** ** Requests and responses *)

(** An Express request after [express.json()] and [cookieParser()]:
    cookies, route parameters and query parameters are strings; the
    body is whatever JSON the client sent; [req.user] is [undefined]
    until a middleware sets it. *)
Record Request : Type := {
  req_cookies : list (string * string);
  req_authorization : option string;
  req_params : list (string * string);
  req_query : list (string * string);
  req_body : jsval;
  req_user : jsval
}.

Fixpoint lookup (k : string) (l : list (string * string)) : jsval :=
  match l with
  | [] => JUndef
  | (k', v) :: rest => if (k =? k')%string then JStr v else lookup k rest
  end.

Definition with_user (req : Request) (u : jsval) : Request :=
  {| req_cookies := req_cookies req; req_authorization := req_authorization req;
     req_params := req_params req; req_query := req_query req;
     req_body := req_body req; req_user := u |}.

Record Response : Type := { status : Z; payload : jsval }.

(** [res.status(code).json(v)] *)
Definition status_json (code : Z) (v : jsval) : Response :=
  {| status := code; payload := to_json v |}.

(** [res.json(v)] *)
Definition json (v : jsval) : Response := status_json 200 v.

(** The status of the response a handler ended with. *)
Definition status_of (r : settled Response) : option Z :=
  match r with Resolved x => Some (status x) | Rejected _ => None end.

(** The body of the response a handler ended with. *)
Definition body_of (r : settled Response) : jsval :=
  match r with Resolved x => payload x | Rejected _ => JUndef end.

(** A middleware either answers or hands the request to the next
    handler. *)
Inductive Flow : Type :=
| Next (req : Request)
| Respond (r : Response).

(* ================================================================== *)
(** ** lib/jwt and middleware/auth *)

Section Auth.

(** [jwt.verify(token, secret, { algorithms, issuer })] of the
    jsonwebtoken package: the decoded payload, or an exception. *)
Variable jwt_verify : jsval -> string -> list string -> string -> settled jsval.
Variable JWT_SECRET : string.

Record Verified : Type := { v_user : jsval; v_error : jsval }.

Definition verifySupabaseToken (token : jsval) : Verified :=
  match jwt_verify token JWT_SECRET ["HS256"] "supabase" with
  | Resolved decoded => {| v_user := decoded; v_error := JNull |}
  | Rejected e => {| v_user := JNull; v_error := JStr (message e) |}
  end.

(** [jwtUser && !jwtError]: the token passes local verification. *)
Definition locally_verified (token : jsval) : bool :=
  let v := verifySupabaseToken token in
  truthy (v_user v) && negb (truthy (v_error v)).

(** [req.cookies['sb-access-token'] ||
     req.headers.authorization?.replace('Bearer ', '')] *)
Definition accessToken (req : Request) : jsval :=
  js_or (lookup "sb-access-token" (req_cookies req))
        (match req_authorization req with
         | Some h => JStr (replace "Bearer " EmptyString h)
         | None => JUndef
         end).

(** [user.user_metadata?.full_name || user.user_metadata?.name ||
     user.email.split('@')[0]] *)
Definition derived_name (user : jsval) : settled jsval :=
  let full_name := opt_prop "full_name" (prop "user_metadata" user) in
  if truthy full_name then Resolved full_name
  else
    let name := opt_prop "name" (prop "user_metadata" user) in
    if truthy name then Resolved name
    else match prop "email" user with
         | JStr e => Resolved (match split "@" e with
                               | w :: _ => JStr w
                               | [] => JUndef
                               end)
         | JUndef | JNull =>
             Rejected (TypeError "Cannot read properties of undefined (reading 'split')")
         | _ => Rejected (TypeError "user.email.split is not a function")
         end.

Definition select_user_by_id (id : jsval) : Query :=
  from "users" (Select (columns ["id"]) false) |> eq_ "id" id |> single.

Definition insert_user (row : jsval) : Query := from "users" (Insert [row]).

Definition ensureUserExists (user : jsval) : Prog unit :=
  try_catch
    (fetched <- await_db (select_user_by_id (prop "id" user)) ;;
     match error fetched with
     | Some fetchError =>
         if (code fetchError =? "PGRST116")%string then
           name <- settle (derived_name user) ;;
           created_at <- (if truthy (prop "created_at" user)
                          then Ret (prop "created_at" user)
                          else new_Date) ;;
           inserted <- await_db (insert_user (obj [
               ("id", prop "id" user);
               ("email", prop "email" user);
               ("name", name);
               ("email_verified", JBool (truthy (prop "email_confirmed_at" user)));
               ("created_at", created_at) ])) ;;
           match error inserted with
           | Some _ => console "Error creating user in database:"
           | None => console "Created new user in database:"
           end
         else Ret tt
     | None => Ret tt
     end)
    (fun _ => console "Error ensuring user exists:").

(** The identity built from a locally verified token. *)
Definition user_of_jwt (jwtUser : jsval) : jsval :=
  obj [ ("id", prop "sub" jwtUser);
        ("email", prop "email" jwtUser);
        ("user_metadata", js_or (prop "user_metadata" jwtUser) (JObj []));
        ("app_metadata", js_or (prop "app_metadata" jwtUser) (JObj []));
        ("created_at", prop "created_at" jwtUser);
        ("email_confirmed_at", prop "email_confirmed_at" jwtUser) ].

Definition error_body (msg : string) : jsval := obj [("error", JStr msg)].

Definition authenticateUser (req : Request) : Prog Flow :=
  try_catch
    (let token := accessToken req in
     if negb (truthy token) then
       Ret (Respond (status_json 401 (error_body "Access token required")))
     else
       let v := verifySupabaseToken token in
       if truthy (v_user v) && negb (truthy (v_error v)) then
         let user := user_of_jwt (v_user v) in
         ensureUserExists user ;;
         Ret (Next (with_user req user))
       else
         reply <- await_getUser token ;;
         match auth_error reply with
         | Some _ => Ret (Respond (status_json 401 (error_body "Invalid or expired token")))
         | None =>
             if negb (truthy (auth_user reply)) then
               Ret (Respond (status_json 401 (error_body "Invalid or expired token")))
             else
               ensureUserExists (auth_user reply) ;;
               Ret (Next (with_user req (auth_user reply)))
         end)
    (fun _ =>
       console "Auth middleware error:" ;;
       Ret (Respond (status_json 500 (error_body "Internal server error")))).

(** What the mandatory middleware answers after the authority has
    been asked. *)
Definition after_authority (req : Request) (r : settled AuthReply) : Flow :=
  match r with
  | Resolved reply =>
      match auth_error reply with
      | None =>
          if truthy (auth_user reply) then Next (with_user req (auth_user reply))
          else Respond (status_json 401 (error_body "Invalid or expired token"))
      | Some _ => Respond (status_json 401 (error_body "Invalid or expired token"))
      end
  | Rejected _ => Respond (status_json 500 (error_body "Internal server error"))
  end.

Definition optionalAuth (req : Request) : Prog Flow :=
  try_catch
    (let token := accessToken req in
     req' <- (if truthy token then
                let v := verifySupabaseToken token in
                if truthy (v_user v) && negb (truthy (v_error v)) then
                  let user := user_of_jwt (v_user v) in
                  ensureUserExists user ;;
                  Ret (with_user req user)
                else
                  reply <- await_getUser token ;;
                  match auth_error reply with
                  | None =>
                      if truthy (auth_user reply) then
                        ensureUserExists (auth_user reply) ;;
                        Ret (with_user req (auth_user reply))
                      else Ret req
                  | Some _ => Ret req
                  end
              else Ret req) ;;
     Ret (Next req'))
    (fun _ =>
       console "Optional auth middleware error:" ;;
       Ret (Next req)).

End Auth.

(* ================================================================== *)
(** ** The note routes *)

(** [const { k = d } = o]: the default replaces [undefined] only. *)
Definition default_to (d v : jsval) : jsval :=
  match v with JUndef => d | _ => v end.

(** [post.post_labels?.map(pl => pl.label) || []] *)
Definition labels_of (post : jsval) : jsval :=
  match prop "post_labels" post with
  | JArr pls => JArr (map (prop "label") pls)
  | _ => JArr []
  end.

(** [post.is_updated ? post.updated_at : post.created_at] *)
Definition display_date (post : jsval) : jsval :=
  if truthy (prop "is_updated" post) then prop "updated_at" post else prop "created_at" post.

(** [post.is_updated ? 'updated' : 'created'] *)
Definition date_type (post : jsval) : jsval :=
  JStr (if truthy (prop "is_updated" post) then "updated" else "created").

(** The record of the list view. *)
Definition list_view (post : jsval) : jsval :=
  spread post [ ("labels", labels_of post);
                ("display_date", display_date post);
                ("date_type", date_type post);
                ("encrypted_content", JUndef) ].

(** The record of the list view when the join could not be made. *)
Definition simple_view (post : jsval) : jsval :=
  spread post [ ("labels", JArr []);
                ("category", JNull);
                ("display_date", display_date post);
                ("date_type", date_type post);
                ("encrypted_content", JUndef) ].

(** The record of the single-note, created-note, updated-note and
    public views. *)
Definition full_view (post : jsval) : jsval :=
  spread post [ ("labels", labels_of post);
                ("display_date", display_date post);
                ("date_type", date_type post) ].

(** [rows?.map(f) || []] *)
Definition map_rows (f : jsval -> jsval) (rows : jsval) : list jsval :=
  match rows with JArr l => map f l | _ => [] end.

(** [post.labels.some(label => labelIds.includes(label.id))]; a null
    label makes [label.id] throw. *)
Fixpoint some_label (labelIds : list jsval) (labels : list jsval) : settled bool :=
  match labels with
  | [] => Resolved false
  | l :: rest =>
      match member "id" l with
      | Rejected e => Rejected e
      | Resolved id => if includes_val labelIds id then Resolved true
                       else some_label labelIds rest
      end
  end.

Fixpoint filter_by_labels (labelIds : list jsval) (posts : list jsval) : settled (list jsval) :=
  match posts with
  | [] => Resolved []
  | p :: rest =>
      match some_label labelIds (match prop "labels" p with JArr ls => ls | _ => [] end) with
      | Rejected e => Rejected e
      | Resolved keep =>
          match filter_by_labels labelIds rest with
          | Rejected e => Rejected e
          | Resolved kept => Resolved (if keep then p :: kept else kept)
          end
      end
  end.

Definition pagination (currentPage totalPages : jsnum) (totalCount : Z) (limitNum : jsnum)
           (hasNextPage hasPrevPage : bool) : jsval :=
  obj [ ("currentPage", JNum currentPage);
        ("totalPages", JNum totalPages);
        ("totalCount", jint totalCount);
        ("limit", JNum limitNum);
        ("hasNextPage", JBool hasNextPage);
        ("hasPrevPage", JBool hasPrevPage) ].

Definition page_of (items : list jsval) (pg : jsval) : jsval :=
  obj [ ("data", JArr items); ("pagination", pg) ].

Definition len (l : list jsval) : Z := Z.of_nat (length l).

(** The existence probe, the count query and the flat query of
    [GET /api/notes]. *)
Definition probe_query : Query :=
  from "posts" (Select (columns ["id"]) false) |> limit 1.

Definition count_query (userId : jsval) : Query :=
  from "posts" (Select star true) |> eq_ "user_id" userId.

Definition simple_query (userId : jsval) : Query :=
  from "posts" (Select star false) |> eq_ "user_id" userId |> order "created_at" false.

(** The joined query with its optional filters, before the range is
    applied. *)
Definition joined_query (userId drafts visibility category search : jsval) : Query :=
  let query := from "posts" (Select star_joined false) |> eq_ "user_id" userId in
  let query := if strict_eq_str drafts "true" then query |> eq_ "is_draft" (JBool true)
               else if strict_eq_str drafts "false" then query |> eq_ "is_draft" (JBool false)
               else query in
  let query := if strict_eq_str visibility "public" then query |> eq_ "is_public" (JBool true)
               else if strict_eq_str visibility "private" then query |> eq_ "is_public" (JBool false)
               else query in
  let query := if truthy category then query |> eq_ "category_id" category else query in
  let query := match search with
               | JStr s => if truthy search
                           then query |> or_ ("title.ilike.%" ++ s ++ "%,content.ilike.%" ++ s ++ "%")
                           else query
               | _ => query
               end in
  query |> order "created_at" false.

Definition server_error (e : JsError) : Prog Response :=
  Ret (status_json 500 (error_body (message e))).

(** [limitNum] of a request. *)
Definition limit_of (req : Request) : jsnum :=
  parseInt (default_to (jint 12) (lookup "limit" (req_query req))).

(** [pageNum] of a request. *)
Definition page_number (req : Request) : jsnum :=
  parseInt (default_to (jint 1) (lookup "page" (req_query req))).

(** [app.get('/api/notes', authenticateUser, ...)] *)
Definition get_notes (req : Request) : Prog Response :=
  try_catch
    (let userId := prop "id" (req_user req) in
     let category := lookup "category" (req_query req) in
     let labels := lookup "labels" (req_query req) in
     let search := lookup "search" (req_query req) in
     let drafts := lookup "drafts" (req_query req) in
     let visibility := lookup "visibility" (req_query req) in
     let page := default_to (jint 1) (lookup "page" (req_query req)) in
     let limit := default_to (jint 12) (lookup "limit" (req_query req)) in
     let pageNum := parseInt page in
     let limitNum := parseInt limit in
     let offset := num_mul (num_sub pageNum (Fin 1)) limitNum in
     probe <- await_db probe_query ;;
     match error probe with
     | Some checkError =>
         if includes "Could not find the table" (message checkError) then
           console "Posts table not found, returning empty notes array" ;;
           Ret (json (page_of [] (pagination (Fin 1) (Fin 0) 0 limitNum false false)))
         else Throw checkError
     | None =>
         let query := joined_query userId drafts visibility category search in
         counted <- await_db (count_query userId) ;;
         match error counted with
         | Some _ => console "Count error:"
         | None => Ret tt
         end ;;
         let query := query |> range offset (num_sub (num_add offset limitNum) (Fin 1)) in
         fetched <- await_db query ;;
         match error fetched with
         | Some e =>
             if includes "Could not find a relationship" (message e) then
               console "Relationship error, trying simple query" ;;
               simple <- await_db (simple_query userId) ;;
               match error simple with
               | Some simpleError => Throw simpleError
               | None =>
                   let simpleTransformed := map_rows simple_view (data simple) in
                   let totalPages := ceil_div (len simpleTransformed) limitNum in
                   Ret (json (page_of simpleTransformed
                                (pagination pageNum totalPages (len simpleTransformed) limitNum
                                   (num_lt pageNum totalPages) (num_gt pageNum (Fin 1)))))
               end
             else Throw e
         | None =>
             let transformedData := map_rows list_view (data fetched) in
             filteredData <-
               (match labels with
                | JStr csv =>
                    if truthy labels then
                      let labelIds := map (fun id => JNum (parseInt_string id)) (split "," csv) in
                      settle (filter_by_labels labelIds transformedData)
                    else Ret transformedData
                | _ => Ret transformedData
                end) ;;
             let totalCount := match count counted with
                               | Some c => if c =? 0 then len filteredData else c
                               | None => len filteredData
                               end in
             let totalPages := ceil_div totalCount limitNum in
             let hasNextPage := num_lt pageNum totalPages in
             let hasPrevPage := num_gt pageNum (Fin 1) in
             Ret (json (page_of filteredData
                          (pagination pageNum totalPages totalCount limitNum
                             hasNextPage hasPrevPage)))
         end
     end)
    server_error.

(** [v.length > 0] followed by [v.map(f)], for a value [v] received in
    a JSON body: the mapped rows, nothing to insert, or the TypeError
    that a value without [length] or without [map] raises.  An object
    that carries a [length] of its own is compared when that length is
    a number. *)
Definition mapped_if_nonempty (f : jsval -> jsval) (v : jsval) : settled (option (list jsval)) :=
  match v with
  | JUndef | JNull =>
      Rejected (TypeError "Cannot read properties of null (reading 'length')")
  | JArr [] => Resolved None
  | JArr l => Resolved (Some (map f l))
  | JStr s => if (s =? EmptyString)%string then Resolved None
              else Rejected (TypeError "label_ids.map is not a function")
  | JObj fs => match field "length" fs with
               | Some (JNum n) => if num_lt (Fin 0) n
                                  then Rejected (TypeError "label_ids.map is not a function")
                                  else Resolved None
               | _ => Resolved None
               end
  | _ => Resolved None
  end.

Definition throw_if_error (r : DbReply) : Prog unit :=
  match error r with Some e => Throw e | None => Ret tt end.

Definition insert_labels (rows : option (list jsval)) : Prog unit :=
  match rows with
  | Some labelInserts =>
      inserted <- await_db (from "post_labels" (Insert labelInserts)) ;;
      throw_if_error inserted
  | None => Ret tt
  end.

Definition complete_post (id : jsval) : Query :=
  from "posts" (Select star_joined false) |> eq_ "id" id |> single.

Definition not_found (msg : string) : Response := status_json 404 (error_body msg).

(** [!data || data.length === 0] on the rows an update returned. *)
Definition no_rows (d : jsval) : bool :=
  match d with
  | JArr [] => true
  | JArr _ => false
  | v => negb (truthy v)
  end.

(** [data[0]] *)
Definition first_row (d : jsval) : jsval :=
  match d with JArr (r :: _) => r | _ => JUndef end.

(** [app.post('/api/notes', authenticateUser, ...)] *)
Definition post_notes (req : Request) : Prog Response :=
  try_catch
    (let title := prop "title" (req_body req) in
     let content := prop "content" (req_body req) in
     let category_id := prop "category_id" (req_body req) in
     let label_ids := prop "label_ids" (req_body req) in
     let is_draft := default_to (JBool false) (prop "is_draft" (req_body req)) in
     let is_public := default_to (JBool false) (prop "is_public" (req_body req)) in
     let is_encrypted := default_to (JBool false) (prop "is_encrypted" (req_body req)) in
     let encrypted_content := prop "encrypted_content" (req_body req) in
     let userId := prop "id" (req_user req) in
     public_share_token <- (if truthy is_public then randomBytes_hex 32 else Ret JNull) ;;
     last_autosave <- new_Date ;;
     updated_at <- new_Date ;;
     created <- await_db (from "posts" (Insert [obj [
         ("title", title);
         ("content", if truthy is_encrypted then JNull else content);
         ("encrypted_content", if truthy is_encrypted then encrypted_content else JNull);
         ("category_id", js_or category_id JNull);
         ("user_id", userId);
         ("is_draft", is_draft);
         ("is_public", is_public);
         ("is_encrypted", is_encrypted);
         ("public_share_token", public_share_token);
         ("last_autosave", last_autosave);
         ("updated_at", updated_at) ]]) |> returning |> single) ;;
     throw_if_error created ;;
     let postData := data created in
     rows <- settle (if truthy label_ids
                     then mapped_if_nonempty
                            (fun labelId => obj [("post_id", prop "id" postData); ("label_id", labelId)])
                            label_ids
                     else Resolved None) ;;
     insert_labels rows ;;
     fetched <- await_db (complete_post (prop "id" postData)) ;;
     throw_if_error fetched ;;
     Ret (status_json 201 (full_view (data fetched))))
    server_error.

(** [app.put('/api/notes/:id', authenticateUser, ...)] *)
Definition put_note (req : Request) : Prog Response :=
  try_catch
    (let id := lookup "id" (req_params req) in
     let title := prop "title" (req_body req) in
     let content := prop "content" (req_body req) in
     let category_id := prop "category_id" (req_body req) in
     let label_ids := prop "label_ids" (req_body req) in
     let userId := prop "id" (req_user req) in
     updated_at <- new_Date ;;
     updated <- await_db (from "posts" (Update (obj [
         ("title", title);
         ("content", content);
         ("category_id", js_or category_id JNull);
         ("updated_at", updated_at);
         ("is_updated", JBool true) ]))
       |> eq_ "id" id |> eq_ "user_id" userId |> returning) ;;
     throw_if_error updated ;;
     if no_rows (data updated) then
       Ret (not_found "Note not found or access denied")
     else
       match label_ids with
       | JUndef => Ret tt
       | _ =>
           await_db (from "post_labels" Delete |> eq_ "post_id" id) ;;
           rows <- settle (mapped_if_nonempty
                             (fun labelId => obj [("post_id", JNum (parseInt id)); ("label_id", labelId)])
                             label_ids) ;;
           insert_labels rows
       end ;;
       fetched <- await_db (complete_post id) ;;
       throw_if_error fetched ;;
       Ret (json (full_view (data fetched))))
    server_error.

(** [app.delete('/api/notes/:id', authenticateUser, ...)] *)
Definition delete_note (req : Request) : Prog Response :=
  try_catch
    (let id := lookup "id" (req_params req) in
     let userId := prop "id" (req_user req) in
     deleted <- await_db (from "posts" Delete |> eq_ "id" id |> eq_ "user_id" userId) ;;
     throw_if_error deleted ;;
     Ret (json (obj [("message", JStr "Note deleted successfully")])))
    server_error.

(** [app.post('/api/notes/:id/autosave', authenticateUser, ...)] *)
Definition post_autosave (req : Request) : Prog Response :=
  try_catch
    (let id := lookup "id" (req_params req) in
     let title := prop "title" (req_body req) in
     let content := prop "content" (req_body req) in
     let encrypted_content := prop "encrypted_content" (req_body req) in
     let is_encrypted := prop "is_encrypted" (req_body req) in
     let userId := prop "id" (req_user req) in
     last_autosave <- new_Date ;;
     updated_at <- new_Date ;;
     updated <- await_db (from "posts" (Update (obj [
         ("title", title);
         ("content", if truthy is_encrypted then JNull else content);
         ("encrypted_content", if truthy is_encrypted then encrypted_content else JNull);
         ("is_encrypted", is_encrypted);
         ("last_autosave", last_autosave);
         ("updated_at", updated_at);
         ("is_updated", JBool true) ]))
       |> eq_ "id" id |> eq_ "user_id" userId |> returning) ;;
     throw_if_error updated ;;
     if no_rows (data updated) then
       Ret (not_found "Note not found or access denied")
     else
       Ret (json (obj [ ("message", JStr "Autosaved successfully");
                        ("last_autosave", prop "last_autosave" (first_row (data updated))) ])))
    server_error.

(** The column list of the public view. *)
Definition public_columns : Columns :=
  {| named := Some ["id"; "title"; "content"; "is_encrypted"; "created_at"; "updated_at"];
     with_category := true; with_post_labels := true |}.

(** [app.get('/api/public/:token', ...)]: no middleware. *)
Definition get_public (req : Request) : Prog Response :=
  try_catch
    (let token := lookup "token" (req_params req) in
     fetched <- await_db (from "posts" (Select public_columns false)
                            |> eq_ "public_share_token" token
                            |> eq_ "is_public" (JBool true)
                            |> single) ;;
     match error fetched with
     | Some _ => Ret (not_found "Public note not found")
     | None =>
         if negb (truthy (data fetched)) then Ret (not_found "Public note not found")
         else Ret (json (full_view (data fetched)))
     end)
    server_error.

(** [app.patch('/api/notes/:id/visibility', authenticateUser, ...)] *)
Definition patch_visibility (req : Request) : Prog Response :=
  try_catch
    (let id := lookup "id" (req_params req) in
     let is_public := prop "is_public" (req_body req) in
     let userId := prop "id" (req_user req) in
     public_share_token <- (if truthy is_public then randomBytes_hex 32 else Ret JNull) ;;
     updated_at <- new_Date ;;
     updated <- await_db (from "posts" (Update (obj [
         ("is_public", is_public);
         ("public_share_token", public_share_token);
         ("updated_at", updated_at) ]))
       |> eq_ "id" id |> eq_ "user_id" userId |> returning) ;;
     throw_if_error updated ;;
     if no_rows (data updated) then
       Ret (not_found "Note not found or access denied")
     else
       Ret (json (obj [
         ("message", JStr (if truthy is_public then "Note made public" else "Note made private"));
         ("public_share_token", prop "public_share_token" (first_row (data updated)));
         ("is_public", prop "is_public" (first_row (data updated))) ])))
    server_error.

(** [app.get('/api/notes/:id', authenticateUser, ...)] *)
Definition get_note (req : Request) : Prog Response :=
  try_catch
    (let id := lookup "id" (req_params req) in
     let userId := prop "id" (req_user req) in
     fetched <- await_db (from "posts" (Select star_joined false)
                            |> eq_ "id" id |> eq_ "user_id" userId |> single) ;;
     match error fetched with
     | Some _ => Ret (not_found "Note not found or access denied")
     | None =>
         if negb (truthy (data fetched)) then Ret (not_found "Note not found or access denied")
         else Ret (json (full_view (data fetched)))
     end)
    server_error.

(** [app.patch('/api/notes/:id/publish', authenticateUser, ...)] *)
Definition patch_publish (req : Request) : Prog Response :=
  try_catch
    (let id := lookup "id" (req_params req) in
     let userId := prop "id" (req_user req) in
     updated_at <- new_Date ;;
     updated <- await_db (from "posts" (Update (obj [
         ("is_draft", JBool false);
         ("updated_at", updated_at);
         ("is_updated", JBool true) ]))
       |> eq_ "id" id |> eq_ "user_id" userId |> eq_ "is_draft" (JBool true) |> returning) ;;
     throw_if_error updated ;;
     if no_rows (data updated) then
       Ret (not_found "Draft not found or access denied")
     else
       Ret (json (obj [ ("message", JStr "Draft published successfully");
                        ("note", first_row (data updated)) ])))
    server_error.

(* ================================================================== *)
(** ** An in-memory store that answers the queries

    The hosted database is not part of the repository.  What follows
    is the part of PostgREST that the routes rely on: equality
    filters, ordering, ranges, embedded resources, [single], the two
    error signatures the list route recognises, the conflict on a
    primary key.  Rows are JSON objects. *)

Record Table : Type := {
  t_rows : list jsval;
  (** [id] is the primary key: two rows never share it. *)
  t_primary : bool;
  (** The next value of the sequence behind [id], when there is one. *)
  t_serial : option Z;
  (** The column defaults, evaluated at the time of the insert. *)
  t_defaults : Z -> fields
}.

Record Store : Type := {
  tables : list (string * Table);
  (** Whether the foreign keys between posts, categories, post_labels
      and labels are declared, so that resources can be embedded. *)
  relationships : bool;
  (** How the database reads the text of an [or=(...)] filter. *)
  or_matches : string -> jsval -> bool
}.

Fixpoint table (name : string) (ts : list (string * Table)) : option Table :=
  match ts with
  | [] => None
  | (n, t) :: rest => if (name =? n)%string then Some t else table name rest
  end.

Fixpoint set_table (name : string) (t : Table) (ts : list (string * Table)) : list (string * Table) :=
  match ts with
  | [] => [(name, t)]
  | (n, t') :: rest =>
      if (name =? n)%string then (n, t) :: rest else (n, t') :: set_table name t rest
  end.

Definition with_rows (t : Table) (rows : list jsval) (serial : option Z) : Table :=
  {| t_rows := rows; t_primary := t_primary t; t_serial := serial; t_defaults := t_defaults t |}.

Definition with_table (s : Store) (name : string) (t : Table) : Store :=
  {| tables := set_table name t (tables s); relationships := relationships s;
     or_matches := or_matches s |}.

Definition rows_of (s : Store) (name : string) : list jsval :=
  match table name (tables s) with Some t => t_rows t | None => [] end.

(** The text a filter value has in the request URL. *)
Definition text_of (v : jsval) : option string :=
  match v with
  | JUndef => Some "undefined"
  | JNull => Some "null"
  | JBool true => Some "true"
  | JBool false => Some "false"
  | JNum (Fin z) => Some (NilZero.string_of_int (Z.to_int z))
  | JNum NaN => Some "NaN"
  | JNum PInf => Some "Infinity"
  | JNum NInf => Some "-Infinity"
  | JStr s => Some s
  | JArr _ | JObj _ => None
  end.

Definition is_digit (c : ascii) : bool :=
  let n := nat_of_ascii c in andb (Nat.leb 48 n) (Nat.leb n 57).

Fixpoint all_digits (s : string) : bool :=
  match s with
  | EmptyString => true
  | String c rest => andb (is_digit c) (all_digits rest)
  end.

(** An integer literal: a sign and digits, nothing else. *)
Definition pg_int (s : string) : option Z :=
  let read (t : string) : option Z :=
    if andb (negb (t =? EmptyString)%string) (all_digits t) then digits 10 t None else None in
  match s with
  | String "-" rest => option_map Z.opp (read rest)
  | String "+" rest => read rest
  | _ => read s
  end.

(** [column = value]: the text of the value is read in the type of the
    cell.  NULL equals nothing; text that cannot be read in the cell's
    type matches no row. *)
Definition sql_eq (cell arg : jsval) : bool :=
  match text_of arg with
  | None => false
  | Some t =>
      match cell with
      | JStr s => (s =? t)%string
      | JNum (Fin z) => match pg_int t with Some y => z =? y | None => false end
      | JBool b => if b then (t =? "true")%string else (t =? "false")%string
      | _ => false
      end
  end.

Definition holds (s : Store) (f : Filter) (row : jsval) : bool :=
  match f with
  | FEq column value => sql_eq (prop column row) value
  | FOr expr => or_matches s expr row
  end.

Definition matches (s : Store) (fs : list Filter) (row : jsval) : bool :=
  forallb (fun f => holds s f row) fs.

(** *** Ordering *)

Definition rank (v : jsval) : nat :=
  match v with
  | JBool _ => 0 | JNum _ => 1 | JStr _ => 2 | JArr _ => 3 | JObj _ => 4
  | JNull | JUndef => 5
  end%nat.

(** NULL sorts as the largest value. *)
Definition cell_leb (a b : jsval) : bool :=
  match a, b with
  | JNum (Fin x), JNum (Fin y) => x <=? y
  | JStr x, JStr y => String.leb x y
  | JBool x, JBool y => implb x y
  | _, _ => Nat.leb (rank a) (rank b)
  end.

Definition row_leb (column : string) (ascending : bool) (r1 r2 : jsval) : bool :=
  if ascending then cell_leb (prop column r1) (prop column r2)
  else cell_leb (prop column r2) (prop column r1).

Fixpoint insert_sorted (le : jsval -> jsval -> bool) (x : jsval) (l : list jsval) : list jsval :=
  match l with
  | [] => [x]
  | y :: rest => if le x y then x :: y :: rest else y :: insert_sorted le x rest
  end.

Definition sort_rows (le : jsval -> jsval -> bool) (l : list jsval) : list jsval :=
  fold_right (insert_sorted le) [] l.

Definition ordered (o : option (string * bool)) (l : list jsval) : list jsval :=
  match o with
  | Some (column, ascending) => sort_rows (row_leb column ascending) l
  | None => l
  end.

(** *** Range and limit *)

Definition pg_error (c m : string) : JsError := {| message := m; code := c |}.

(** [.range(lo, hi)] asks for offset [lo] and [hi - lo + 1] rows. *)
Definition ranged (r : option (jsnum * jsnum)) (l : list jsval) : JsError + list jsval :=
  match r with
  | None => inr l
  | Some (Fin lo, Fin hi) =>
      if andb (0 <=? lo) (lo <=? hi + 1)
      then inr (firstn (Z.to_nat (hi - lo + 1)) (skipn (Z.to_nat lo) l))
      else inl (pg_error "PGRST103" "Requested range not satisfiable")
  | Some _ => inl (pg_error "PGRST103" "Requested range not satisfiable")
  end.

Definition limited (n : option Z) (l : list jsval) : list jsval :=
  match n with Some k => firstn (Z.to_nat k) l | None => l end.

(** *** Columns and embedded resources *)

Definition pick (cols : list string) (row : jsval) : jsval :=
  JObj (map (fun c => (c, match prop c row with JUndef => JNull | v => v end)) cols).

Definition find_by_id (rows : list jsval) (id : jsval) : option jsval :=
  find (fun r => same_value_zero (prop "id" r) id) rows.

(** [category:categories(id, name, color, icon)] *)
Definition embedded_category (s : Store) (post : jsval) : jsval :=
  match find_by_id (rows_of s "categories") (prop "category_id" post) with
  | Some c => pick ["id"; "name"; "color"; "icon"] c
  | None => JNull
  end.

(** [post_labels(label:labels(id, name, color))] *)
Definition embedded_post_labels (s : Store) (post : jsval) : jsval :=
  JArr (map (fun pl =>
               obj [("label", match find_by_id (rows_of s "labels") (prop "label_id" pl) with
                              | Some l => pick ["id"; "name"; "color"] l
                              | None => JNull
                              end)])
            (filter (fun pl => same_value_zero (prop "post_id" pl) (prop "id" post))
                    (rows_of s "post_labels"))).

Definition shaped (s : Store) (c : Columns) (row : jsval) : jsval :=
  let base := match named c with Some cols => pick cols row | None => row end in
  let base := if with_category c
              then spread base [("category", embedded_category s row)] else base in
  if with_post_labels c
  then spread base [("post_labels", embedded_post_labels s row)] else base.

Definition embeds (c : Columns) : bool := orb (with_category c) (with_post_labels c).

(** *** Replies *)

Definition reply_ok (d : jsval) : DbReply := {| data := d; error := None; count := None |}.

Definition reply_error (e : JsError) : DbReply :=
  {| data := JNull; error := Some e; count := None |}.

Definition table_missing (name : string) : JsError :=
  pg_error "PGRST205" ("Could not find the table 'public." ++ name ++ "' in the schema cache").

Definition relationship_missing (name : string) : JsError :=
  pg_error "PGRST200"
    ("Could not find a relationship between '" ++ name ++ "' and 'categories' in the schema cache").

Definition not_single : JsError :=
  pg_error "PGRST116" "JSON object requested, multiple (or no) rows returned".

Definition duplicate_key : JsError :=
  pg_error "23505" "duplicate key value violates unique constraint".

(** The rows as [data]: an array, or with [.single()] the one row. *)
Definition finish (q : Query) (rows : list jsval) : DbReply :=
  if q_single q then
    match rows with
    | [r] => reply_ok r
    | _ => reply_error not_single
    end
  else reply_ok (JArr rows).

Definition exec_select (s : Store) (t : Table) (q : Query) (c : Columns) (head_count : bool)
  : DbReply :=
  if andb (embeds c) (negb (relationships s)) then
    reply_error (relationship_missing (q_table q))
  else
    let matched := filter (matches s (q_filters q)) (t_rows t) in
    if head_count then {| data := JNull; error := None; count := Some (len matched) |}
    else match ranged (q_range q) (ordered (q_order q) matched) with
         | inl e => reply_error e
         | inr page => finish q (map (shaped s c) (limited (q_limit q) page))
         end.

(** The row as stored: the payload as sent, then the defaults of the
    columns it leaves out. *)
Definition with_defaults (defaults : fields) (row : jsval) : fields :=
  fold_left (fun (acc : fields) kv => match field (fst kv) acc with
                                      | Some _ => acc
                                      | None => (acc ++ [kv])%list
                                      end)
            defaults (own_fields (to_json row)).

Definition has_id (rows : list jsval) (id : jsval) : bool :=
  existsb (fun r => same_value_zero (prop "id" r) id) rows.

(** All the rows are inserted, or none is: [None] is a conflict on the
    primary key. *)
Fixpoint insert_rows (primary : bool) (defaults : fields) (new rows : list jsval)
         (serial : option Z) : option (list jsval * list jsval * option Z) :=
  match new with
  | [] => Some ([], rows, serial)
  | r :: rest =>
      let filled := with_defaults defaults r in
      let numbered :=
        match serial, field "id" filled with
        | Some n, None => (JObj (("id", jint n) :: filled), Some (n + 1))
        | _, _ => (JObj filled, serial)
        end in
      if andb primary (has_id rows (prop "id" (fst numbered))) then None
      else match insert_rows primary defaults rest (rows ++ [fst numbered]) (snd numbered) with
           | Some (inserted, rows', serial') => Some (fst numbered :: inserted, rows', serial')
           | None => None
           end
  end.

(** [UPDATE ... SET]: the properties of the payload that survive
    serialisation overwrite the columns of the row. *)
Definition patched (patch row : jsval) : jsval :=
  spread row (own_fields (to_json patch)).

Definition exec (s : Store) (now : Z) (q : Query) : DbReply * Store :=
  match table (q_table q) (tables s) with
  | None => (reply_error (table_missing (q_table q)), s)
  | Some t =>
      match q_verb q with
      | Select c head_count => (exec_select s t q c head_count, s)
      | Insert new =>
          match insert_rows (t_primary t) (t_defaults t now) new (t_rows t) (t_serial t) with
          | None => (reply_error duplicate_key, s)
          | Some (inserted, rows', serial') =>
              (if q_returning q then finish q inserted else reply_ok JNull,
               with_table s (q_table q) (with_rows t rows' serial'))
          end
      | Update patch =>
          let hit := matches s (q_filters q) in
          (if q_returning q then finish q (map (patched patch) (filter hit (t_rows t)))
           else reply_ok JNull,
           with_table s (q_table q)
             (with_rows t (map (fun r => if hit r then patched patch r else r) (t_rows t))
                        (t_serial t)))
      | Delete =>
          let hit := matches s (q_filters q) in
          (if q_returning q then finish q (filter hit (t_rows t)) else reply_ok JNull,
           with_table s (q_table q)
             (with_rows t (filter (fun r => negb (hit r)) (t_rows t)) (t_serial t)))
      end
  end.

(** The server's surroundings: the store, the clock, the source of
    random bytes and the identity authority. *)
Record World : Type := {
  db : Store;
  clock : Z;
  entropy : string;
  authority : jsval -> settled AuthReply
}.

Definition with_db (w : World) (s : Store) : World :=
  {| db := s; clock := clock w; entropy := entropy w; authority := authority w |}.

(** The in-memory world answers every call; it never rejects a
    database call. *)
Definition memory : Handler World :=
  {| on_getUser := fun w token => (authority w token, w);
     on_db := fun w q => let (r, s) := exec (db w) (clock w) q in (Resolved r, with_db w s);
     on_date := clock;
     on_random := fun w _ => entropy w |}.

(* ================================================================== *)
(** ** Requests in flight together

    Node serves one call at a time and a request gives way at every
    [await]: two requests in flight interleave call by call. *)



(** The rows of [users] that a lookup by id finds. *)
Definition users_with_id (s : Store) (id : jsval) : list jsval :=
  filter (fun r => sql_eq (prop "id" r) id) (rows_of s "users").

Definition has_string_id (r : jsval) : bool :=
  match prop "id" r with JStr _ => true | _ => false end.

Section Provisioning.

(** The identity whose record is looked at. *)
Variable uid : string.

(** The [users] table is there, with its primary key on a text
    [id], and holds at most one record of the identity. *)
Definition users_ready (w : World) : Prop :=
  exists t, table "users" (tables (db w)) = Some t /\
            t_primary t = true /\
            forallb has_string_id (t_rows t) = true /\
            (length (users_with_id (db w) (JStr uid)) <= 1)%nat.





End Provisioning.

(** The rows of [posts] that are the caller's. *)
Definition notes_of (s : Store) (userId : jsval) : list jsval :=
  filter (fun r => sql_eq (prop "user_id" r) userId) (rows_of s "posts").

(** A column that holds a value. *)
Definition populated (v : jsval) : bool := negb (nullish v).

(** A note row never holds plain and encrypted content together. *)
Definition exclusive_content (row : jsval) : bool :=
  negb (andb (populated (prop "content" row)) (populated (prop "encrypted_content" row))).

(** The row keeps the side that the encryption flag rules out empty:
    no plain content under a truthy flag, no encrypted content under a
    falsy one. *)
Definition content_follows_flag (is_encrypted row : jsval) : bool :=
  if truthy is_encrypted then negb (populated (prop "content" row))
  else negb (populated (prop "encrypted_content" row)).

(** Every query that a program may come to issue satisfies [Q]. *)
Fixpoint all_queries {A : Type} (Q : Query -> Prop) (p : Prog A) : Prop :=
  match p with
  | Ret _ | Throw _ => True
  | GetUser _ k => forall r, all_queries Q (k r)
  | Db q k => Q q /\ forall r, all_queries Q (k r)
  | NewDate k => forall t, all_queries Q (k t)
  | RandomBytesHex _ k => forall s, all_queries Q (k s)
  | Console _ k => all_queries Q k
  end.

(** Every row of [posts] satisfies [G]. *)
Definition every_note (G : jsval -> Prop) (s : Store) : Prop :=
  Forall G (rows_of s "posts").

(** The query keeps [every_note G], whatever the store and the time. *)
Definition keeps_notes (G : jsval -> Prop) (q : Query) : Prop :=
  forall (s : Store) (now : Z), every_note G s -> every_note G (snd (exec s now q)).

(** Sequencing of runs: what [bind] and [try_catch] do to a run. *)
Definition and_then {A B W : Type} (r : Run A W) (k : A -> W -> Run B W) : Run B W :=
  match result r with
  | Resolved a =>
      let r' := k a (final r) in
      {| result := result r'; final := final r'; trace := (trace r ++ trace r')%list |}
  | Rejected e => {| result := Rejected e; final := final r; trace := trace r |}
  end.

Definition or_else {A W : Type} (r : Run A W) (h : JsError -> W -> Run A W) : Run A W :=
  match result r with
  | Resolved a => r
  | Rejected e =>
      let r' := h e (final r) in
      {| result := result r'; final := final r'; trace := (trace r ++ trace r')%list |}
  end.

(* ================================================================== *)
(** ** Sample worlds and requests *)

Module Sample.

(** A verifier that accepts the token ["good"] only. *)
Definition verify (token : jsval) (secret : string) (algorithms : list string)
           (issuer : string) : settled jsval :=
  match token with
  | JStr "good" =>
      Resolved (JObj [ ("sub", JStr "u1"); ("email", JStr "ann@example.com");
                       ("iss", JStr issuer) ])
  | JStr EmptyString | JUndef | JNull => Rejected (TypeError "jwt must be provided")
  | _ => Rejected (TypeError "jwt malformed")
  end.

Definition bob : jsval :=
  JObj [ ("id", JStr "u2"); ("email", JStr "bob@example.com") ].

(** An authority that knows the token ["remote"], and is unreachable
    for the token ["down"]. *)
Definition getUser (token : jsval) : settled AuthReply :=
  match token with
  | JStr "remote" => Resolved {| auth_user := bob; auth_error := None |}
  | JStr "down" => Rejected (TypeError "fetch failed")
  | _ => Resolved {| auth_user := JNull;
                     auth_error := Some {| message := "invalid JWT"; code := "bad_jwt" |} |}
  end.

Definition note (id : Z) (owner : string) (encrypted updated : bool)
           (created_at updated_at : Z) (token : jsval) : jsval :=
  JObj [ ("id", jint id); ("user_id", JStr owner); ("title", JStr "shopping");
         ("content", if encrypted then JNull else JStr "milk");
         ("encrypted_content", if encrypted then JStr "c2VjcmV0" else JNull);
         ("category_id", JNull); ("is_draft", JBool false);
         ("is_public", JBool (truthy token)); ("is_encrypted", JBool encrypted);
         ("is_updated", JBool updated); ("public_share_token", token);
         ("created_at", jint created_at); ("updated_at", jint updated_at) ].

Definition plain (rows : list jsval) : Table :=
  {| t_rows := rows; t_primary := false; t_serial := None; t_defaults := fun _ => [] |}.

Definition users : Table :=
  {| t_rows := []; t_primary := true; t_serial := None;
     t_defaults := fun now => [("created_at", jint now)] |}.

Definition posts : Table :=
  {| t_rows := [ note 1 "u1" true true 10 20 (JStr "aa11");
                 note 2 "u2" false false 11 11 JNull;
                 note 3 "u1" false false 12 12 JNull ];
     t_primary := true; t_serial := Some 4;
     t_defaults := fun now => [ ("created_at", jint now); ("is_updated", JBool false) ] |}.

Definition store (related : bool) : Store :=
  {| tables := [ ("users", users); ("posts", posts); ("post_labels", plain []);
                 ("categories", plain []); ("labels", plain []) ];
     relationships := related;
     or_matches := fun _ _ => true |}.

Definition world : World :=
  {| db := store true; clock := 100; entropy := "5f2d"; authority := getUser |}.

(** The same rows, the foreign keys not declared. *)
Definition unrelated_world : World :=
  {| db := store false; clock := 100; entropy := "5f2d"; authority := getUser |}.

(** Before the schema is provisioned. *)
Definition bare_world : World :=
  {| db := {| tables := []; relationships := false; or_matches := fun _ _ => true |};
     clock := 100; entropy := "5f2d"; authority := getUser |}.

Definition ann : jsval := JObj [ ("id", JStr "u1"); ("email", JStr "ann@example.com") ].

(** A request of the signed-in user [u1]. *)
Definition request (params query : list (string * string)) (body : jsval) : Request :=
  {| req_cookies := []; req_authorization := None; req_params := params;
     req_query := query; req_body := body; req_user := ann |}.

(** A request that carries only an [Authorization] header. *)
Definition bearer (header : string) : Request :=
  {| req_cookies := []; req_authorization := Some header; req_params := [];
     req_query := []; req_body := JObj []; req_user := JUndef |}.

End Sample.

(* ================================================================== *)
(** ** lib/jwt and routes/auth: the token helpers and the two routes
       that answer from a token *)

Section Tokens.

Variable jwt_verify : jsval -> string -> list string -> string -> settled jsval.
Variable JWT_SECRET : string.

(** [jwt.decode(token, { complete: true })]: the header and payload
    without a check of the signature, [null] for text that is no token,
    or an exception. *)
Variable jwt_decode : jsval -> settled jsval.

Definition decodeToken (token : jsval) : jsval :=
  match jwt_decode token with
  | Resolved decoded => decoded
  | Rejected _ => JNull
  end.

Definition getUserIdFromToken (token : jsval) : jsval :=
  let v := verifySupabaseToken jwt_verify JWT_SECRET token in
  if truthy (v_error v) || negb (truthy (v_user v)) then JNull
  else prop "sub" (v_user v).

(** [router.get('/user', ...)] of routes/auth: no middleware, the
    cookie only. *)
Definition get_user (req : Request) : Prog Response :=
  try_catch
    (let accessToken := lookup "sb-access-token" (req_cookies req) in
     if negb (truthy accessToken) then
       Ret (status_json 401 (error_body "No access token"))
     else
       reply <- await_getUser accessToken ;;
       match auth_error reply with
       | Some e => Ret (status_json 401 (error_body (message e)))
       | None => Ret (json (obj [("user", auth_user reply)]))
       end)
    (fun _ =>
       console "Get user error:" ;;
       Ret (status_json 500 (error_body "Internal server error"))).

(** [router.post('/verify-jwt', ...)] of routes/auth. *)
Definition verify_jwt (req : Request) : Prog Response :=
  try_catch
    (let token := prop "token" (req_body req) in
     if negb (truthy token) then
       Ret (status_json 400 (error_body "Token is required"))
     else
       let v := verifySupabaseToken jwt_verify JWT_SECRET token in
       if truthy (v_error v) then
         let decoded := decodeToken token in
         Ret (status_json 401 (obj [ ("error", JStr "Invalid token");
                                     ("details", v_error v);
                                     ("decoded", decoded) ]))
       else
         sub <- settle (member "sub" (v_user v)) ;;
         Ret (json (obj [ ("message", JStr "Token is valid");
                          ("user", obj [ ("id", sub);
                                         ("email", prop "email" (v_user v));
                                         ("role", prop "role" (v_user v));
                                         ("exp", prop "exp" (v_user v));
                                         ("iat", prop "iat" (v_user v)) ]) ])))
    (fun _ =>
       console "JWT verification error:" ;;
       Ret (status_json 500 (error_body "Internal server error"))).

End Tokens.

(** What the optional middleware makes of an outcome of the mandatory
    one: an answer becomes the request as it came. *)
Definition forwarded (req : Request) (f : Flow) : Flow :=
  match f with
  | Next r => Next r
  | Respond _ => Next req
  end.

(* ================================================================== *)
(** ** The status, category and label routes *)

(** [supabase.from(table).select('*').limit(1)] *)
Definition table_probe (table : string) : Query :=
  from table (Select star false) |> limit 1.

(** The loop of [GET /api/status] over the table names: each probe
    has a [try] of its own. *)
Fixpoint check_tables (names : list string) (tables : jsval) : Prog jsval :=
  match names with
  | [] => Ret tables
  | table :: rest =>
      found <- try_catch
                 (probed <- await_db (table_probe table) ;;
                  Ret (match error probed with Some _ => false | None => true end))
                 (fun _ => Ret false) ;;
      check_tables rest (spread tables [(table, JBool found)])
  end.

(** [Object.values(o).every(exists => exists)] *)
Definition every_value (o : jsval) : bool :=
  forallb (fun kv => truthy (snd kv)) (own_fields o).

Definition status_tables : list string :=
  ["users"; "categories"; "labels"; "posts"; "post_labels"].

(** [app.get('/api/status', ...)]: no middleware. *)
Definition get_status (req : Request) : Prog Response :=
  try_catch
    (let status := obj [ ("server", JStr "running");
                         ("database", JStr "connected");
                         ("tables", obj [ ("users", JBool false);
                                          ("categories", JBool false);
                                          ("labels", JBool false);
                                          ("posts", JBool false);
                                          ("post_labels", JBool false) ]) ] in
     tables <- check_tables status_tables (prop "tables" status) ;;
     let allTablesExist := every_value tables in
     Ret (json (spread status [
       ("tables", tables);
       ("ready", JBool allTablesExist);
       ("message", JStr (if allTablesExist
                         then "All database tables are ready"
                         else "Some database tables are missing. Please run the SQL schema in Supabase.")) ])))
    (fun e =>
       Ret (status_json 500 (obj [ ("server", JStr "running");
                                   ("database", JStr "error");
                                   ("ready", JBool false);
                                   ("message", JStr "Database connection failed");
                                   ("error", JStr (message e)) ]))).

Definition category_of (id : Z) (name color icon : string) : jsval :=
  obj [ ("id", jint id); ("name", JStr name); ("color", JStr color); ("icon", JStr icon) ].

Definition default_categories : jsval :=
  JArr [ category_of 1 "Personal" "#3B82F6" "👤";
         category_of 2 "Work" "#EF4444" "💼";
         category_of 3 "Ideas" "#8B5CF6" "💡";
         category_of 4 "Tasks" "#F59E0B" "✅";
         category_of 5 "Projects" "#10B981" "🚀";
         category_of 6 "Learning" "#F97316" "📚";
         category_of 7 "Health" "#EC4899" "🏥";
         category_of 8 "Finance" "#06B6D4" "💰" ].

Definition label_of (id : Z) (name color : string) : jsval :=
  obj [ ("id", jint id); ("name", JStr name); ("color", JStr color) ].

Definition default_labels : jsval :=
  JArr [ label_of 1 "Important" "#EF4444";
         label_of 2 "Urgent" "#F59E0B";
         label_of 3 "Review" "#8B5CF6";
         label_of 4 "Archive" "#6B7280";
         label_of 5 "Draft" "#10B981";
         label_of 6 "In Progress" "#3B82F6";
         label_of 7 "Completed" "#059669";
         label_of 8 "On Hold" "#DC2626" ].

(** [supabase.from(table).select('*').eq('user_id', userId).order('name')] *)
Definition owned_by_name (table : string) (userId : jsval) : Query :=
  from table (Select star false) |> eq_ "user_id" userId |> order "name" true.

(** [app.get('/api/categories', authenticateUser, ...)] *)
Definition get_categories (req : Request) : Prog Response :=
  try_catch
    (let userId := prop "id" (req_user req) in
     fetched <- await_db (owned_by_name "categories" userId) ;;
     match error fetched with
     | Some e =>
         if includes "Could not find the table" (message e) then
           console "Categories table not found, returning default categories" ;;
           Ret (json default_categories)
         else Throw e
     | None => Ret (json (js_or (data fetched) (JArr [])))
     end)
    server_error.

(** [app.post('/api/categories', authenticateUser, ...)] *)
Definition post_categories (req : Request) : Prog Response :=
  try_catch
    (let name := prop "name" (req_body req) in
     let color := prop "color" (req_body req) in
     let icon := prop "icon" (req_body req) in
     let userId := prop "id" (req_user req) in
     created <- await_db (from "categories" (Insert [obj [
         ("name", name);
         ("color", js_or color (JStr "#3B82F6"));
         ("icon", js_or icon (JStr "📁"));
         ("user_id", userId) ]]) |> returning |> single) ;;
     throw_if_error created ;;
     Ret (status_json 201 (data created)))
    server_error.

(** [app.get('/api/labels', authenticateUser, ...)] *)
Definition get_labels (req : Request) : Prog Response :=
  try_catch
    (let userId := prop "id" (req_user req) in
     fetched <- await_db (owned_by_name "labels" userId) ;;
     match error fetched with
     | Some e =>
         if includes "Could not find the table" (message e) then
           console "Labels table not found, returning default labels" ;;
           Ret (json default_labels)
         else Throw e
     | None => Ret (json (js_or (data fetched) (JArr [])))
     end)
    server_error.

(** [app.post('/api/labels', authenticateUser, ...)] *)
Definition post_labels (req : Request) : Prog Response :=
  try_catch
    (let name := prop "name" (req_body req) in
     let color := prop "color" (req_body req) in
     let userId := prop "id" (req_user req) in
     created <- await_db (from "labels" (Insert [obj [
         ("name", name);
         ("color", js_or color (JStr "#10B981"));
         ("user_id", userId) ]]) |> returning |> single) ;;
     throw_if_error created ;;
     Ret (status_json 201 (data created)))
    server_error.

(* ================================================================== *)
(** ** The notes of the other users *)

(** The rows of [posts] that are not the caller's, in table order. *)
Definition notes_of_others (s : Store) (userId : jsval) : list jsval :=
  filter (fun r => negb (sql_eq (prop "user_id" r) userId)) (rows_of s "posts").

(** The query leaves the notes of the others as they are, whatever
    the store and the time. *)
Definition leaves_others (userId : jsval) (q : Query) : Prop :=
  forall (s : Store) (now : Z),
    notes_of_others (snd (exec s now q)) userId = notes_of_others s userId.

(* ================================================================== *)
(** ** How a handler can end *)

(** Every value that the program can return satisfies [Q]; it may
    also throw. *)
Fixpoint returns {A : Type} (Q : A -> Prop) (p : Prog A) : Prop :=
  match p with
  | Ret a => Q a
  | Throw _ => True
  | GetUser _ k => forall r, returns Q (k r)
  | Db _ k => forall r, returns Q (k r)
  | NewDate k => forall t, returns Q (k t)
  | RandomBytesHex _ k => forall s, returns Q (k s)
  | Console _ k => returns Q k
  end.

(** The program never throws, and every value that it can return
    satisfies [Q]. *)
Fixpoint always {A : Type} (Q : A -> Prop) (p : Prog A) : Prop :=
  match p with
  | Ret a => Q a
  | Throw _ => False
  | GetUser _ k => forall r, always Q (k r)
  | Db _ k => forall r, always Q (k r)
  | NewDate k => forall t, always Q (k t)
  | RandomBytesHex _ k => forall s, always Q (k s)
  | Console _ k => always Q k
  end.

(** The run ends with a response whose status is one of [codes]. *)
Definition answers_with {W : Type} (H : Handler W) (w : W) (codes : list Z)
           (p : Prog Response) : Prop :=
  exists r, result (run H p w) = Resolved r /\ In (status r) codes.

(** The query keeps [P] of the store, whatever the time. *)
Definition keeps_store (P : Store -> Prop) (q : Query) : Prop :=
  forall (s : Store) (now : Z), P s -> P (snd (exec s now q)).

(* ================================================================== *)
(** ** A second sample world: a draft and some categories *)

Module Fixture.

(** A draft of the user [u1]. *)
Definition draft : jsval :=
  JObj [ ("id", jint 4); ("user_id", JStr "u1"); ("title", JStr "later");
         ("content", JStr "tbd"); ("encrypted_content", JNull);
         ("category_id", JNull); ("is_draft", JBool true);
         ("is_public", JBool false); ("is_encrypted", JBool false);
         ("is_updated", JBool false); ("public_share_token", JNull);
         ("created_at", jint 13); ("updated_at", jint 13) ].

Definition notes : Table :=
  {| t_rows := (t_rows Sample.posts ++ [draft])%list;
     t_primary := true; t_serial := Some 5;
     t_defaults := t_defaults Sample.posts |}.

Definition owned (id : Z) (owner name : string) : jsval :=
  JObj [ ("id", jint id); ("user_id", JStr owner); ("name", JStr name);
         ("color", JStr "#3B82F6"); ("icon", JStr "*") ].

Definition categories : Table :=
  Sample.plain [ owned 1 "u1" "Work"; owned 2 "u2" "Home"; owned 3 "u1" "Ideas" ].

Definition site : World :=
  {| db := {| tables := [ ("users", Sample.users); ("posts", notes);
                          ("post_labels", Sample.plain []);
                          ("categories", categories); ("labels", Sample.plain []) ];
              relationships := true;
              or_matches := fun _ _ => true |};
     clock := 100; entropy := "5f2d"; authority := Sample.getUser |}.

End Fixture.

(* ================================================================== *)
(** * Properties *)

Unset Implicit Arguments.

(** ** Runs of composed programs *)

Section Runs.

Context {W : Type} (H : Handler W).

Lemma run_bind {A B : Type} (p : Prog A) (f : A -> Prog B) (w : W) :
  run H (bind p f) w = and_then (run H p w) (fun a w' => run H (f a) w').
Proof.
  revert w; induction p as [a|e|t k IH|q k IH|k IH|n k IH|l k IH]; intro w; simpl.
  - unfold and_then; simpl. destruct (run H (f a) w); reflexivity.
  - reflexivity.
  - destruct (on_getUser H w t) as [r w']. rewrite IH.
    unfold and_then, logged; simpl.
    destruct (run H (k r) w') as [[a|e] fin tr]; reflexivity.
  - destruct (on_db H w q) as [r w']. rewrite IH.
    unfold and_then, logged; simpl.
    destruct (run H (k r) w') as [[a|e] fin tr]; reflexivity.
  - apply IH.
  - apply IH.
  - rewrite IH. unfold and_then, logged; simpl.
    destruct (run H k w) as [[a|e] fin tr]; reflexivity.
Qed.

Lemma run_try_catch {A : Type} (p : Prog A) (h : JsError -> Prog A) (w : W) :
  run H (try_catch p h) w = or_else (run H p w) (fun e w' => run H (h e) w').
Proof.
  revert w; induction p as [a|e|t k IH|q k IH|k IH|n k IH|l k IH]; intro w; simpl.
  - reflexivity.
  - unfold or_else; simpl. destruct (run H (h e) w); reflexivity.
  - destruct (on_getUser H w t) as [r w']. rewrite IH.
    unfold or_else, logged; simpl.
    destruct (run H (k r) w') as [[a|e] fin tr]; reflexivity.
  - destruct (on_db H w q) as [r w']. rewrite IH.
    unfold or_else, logged; simpl.
    destruct (run H (k r) w') as [[a|e] fin tr]; reflexivity.
  - apply IH.
  - apply IH.
  - rewrite IH. unfold or_else, logged; simpl.
    destruct (run H k w) as [[a|e] fin tr]; reflexivity.
Qed.


(** Provisioning never throws and never asks the authority, whatever
    the database answers. *)
Lemma ensureUserExists_swallows (u : jsval) (w : W) :
  result (run H (ensureUserExists u) w) = Resolved tt /\
  filter is_getUser (trace (run H (ensureUserExists u) w)) = [].
Proof.
  unfold ensureUserExists, await_db, new_Date, console.
  cbn [bind try_catch run settle].
  destruct (on_db H w _) as [[r|e] w1]; cbn; [|auto].
  destruct (error r) as [fe|]; cbn; [|auto].
  destruct (code fe =? "PGRST116")%string; cbn; [|auto].
  destruct (derived_name u) as [n|e]; cbn; [|auto].
  destruct (truthy (prop "created_at" u)); cbn.
  - destruct (on_db H w1 _) as [[r2|e2] w2]; cbn; [|auto].
    destruct (error r2); cbn; auto.
  - destruct (on_db H w1 _) as [[r2|e2] w2]; cbn; [|auto].
    destruct (error r2); cbn; auto.
Qed.

End Runs.

(** ** The middleware, case by case *)

Section Middleware.

Variable jwt_verify : jsval -> string -> list string -> string -> settled jsval.
Variable secret : string.
Context {W : Type} (H : Handler W).




Lemma authenticateUser_no_token (req : Request) (w : W) :
  truthy (accessToken req) = false ->
  run H (authenticateUser jwt_verify secret req) w =
  {| result := Resolved (Respond (status_json 401 (error_body "Access token required")));
     final := w; trace := [] |}.
Proof.
  intro Htok. unfold authenticateUser. rewrite run_try_catch, Htok. reflexivity.
Qed.

Lemma optionalAuth_no_token (req : Request) (w : W) :
  truthy (accessToken req) = false ->
  run H (optionalAuth jwt_verify secret req) w = {| result := Resolved (Next req); final := w; trace := [] |}.
Proof.
  intro Htok. unfold optionalAuth. rewrite run_try_catch, Htok. reflexivity.
Qed.

Lemma authenticateUser_fast_path (req : Request) (w : W) :
  truthy (accessToken req) = true ->
  locally_verified jwt_verify secret (accessToken req) = true ->
  result (run H (authenticateUser jwt_verify secret req) w) =
    Resolved (Next (with_user req
                      (user_of_jwt (v_user (verifySupabaseToken jwt_verify secret
                                                                (accessToken req))))))
  /\ filter is_getUser (trace (run H (authenticateUser jwt_verify secret req) w)) = [].
Proof.
  intros Htok Hok. unfold locally_verified in Hok.
  unfold authenticateUser. rewrite run_try_catch, Htok. cbn [negb].
  rewrite Hok, run_bind.
  destruct (ensureUserExists_swallows H
              (user_of_jwt (v_user (verifySupabaseToken jwt_verify secret (accessToken req)))) w)
    as [Hres Htr].
  unfold or_else, and_then. rewrite Hres.
  cbn [result final trace run]. rewrite app_nil_r. auto.
Qed.

Lemma authenticateUser_fallback (req : Request) (w : W) :
  truthy (accessToken req) = true ->
  locally_verified jwt_verify secret (accessToken req) = false ->
  filter is_getUser (trace (run H (authenticateUser jwt_verify secret req) w)) = [EvGetUser (accessToken req)] /\
  result (run H (authenticateUser jwt_verify secret req) w) =
    Resolved (after_authority req (fst (on_getUser H w (accessToken req)))).
Proof.
  intros Htok Hok. unfold locally_verified in Hok.
  unfold authenticateUser. rewrite run_try_catch, Htok. cbn [negb].
  rewrite Hok. unfold await_getUser, after_authority. cbn [bind run].
  destruct (on_getUser H w (accessToken req)) as [[reply|e] w1]; cbn [fst settle bind].
  - destruct (auth_error reply); [cbn; auto|].
    destruct (truthy (auth_user reply)); cbn [negb]; [|cbn; auto].
    rewrite run_bind.
    destruct (ensureUserExists_swallows H (auth_user reply) w1) as [Hres Htr].
    unfold or_else, and_then, logged. rewrite Hres.
    cbn [result final trace run app filter is_getUser].
    rewrite app_nil_r, Htr. auto.
  - cbn. auto.
Qed.

End Middleware.

(** ** C1: the credential that is absent or empty *)




(** ** C2: fast path and fallback *)




(** ** C9: provisioning the local user record *)

Lemma table_set_table (name : string) (t : Table) (ts : list (string * Table)) :
  table name (set_table name t ts) = Some t.
Proof.
  induction ts as [|[n t'] ts IH]; cbn [set_table table].
  - rewrite String.eqb_refl. reflexivity.
  - destruct (name =? n)%string eqn:E; cbn [table]; rewrite E; auto.
Qed.

Lemma matches_one_eq (s : Store) (column : string) (value row : jsval) :
  matches s [FEq column value] row = sql_eq (prop column row) value.
Proof. unfold matches; cbn. apply andb_true_r. Qed.

Lemma select_user_reply (s : Store) (now : Z) (id : jsval) (t : Table) :
  table "users" (tables s) = Some t ->
  exec s now (select_user_by_id id) =
  (match map (pick ["id"]) (users_with_id s id) with
   | [r] => reply_ok r
   | _ => reply_error not_single
   end, s).
Proof.
  intro Ht. unfold exec, select_user_by_id, users_with_id, rows_of.
  cbn [q_table q_verb from eq_ single]. rewrite Ht.
  unfold exec_select.
  cbn [q_filters q_order q_range q_limit q_single q_table eq_ single from columns embeds
       with_category with_post_labels orb andb ordered ranged limited finish app].
  f_equal.
  rewrite (filter_ext _ _ (matches_one_eq s "id" id)).
  unfold shaped. cbn [named with_category with_post_labels columns].
  reflexivity.
Qed.

Lemma field_app_some (k : string) (v : jsval) (fs gs : fields) :
  field k fs = Some v -> field k (fs ++ gs)%list = Some v.
Proof.
  induction fs as [|[k' v'] fs IH]; cbn [field app]; [discriminate|].
  destruct (k =? k')%string; auto.
Qed.

Lemma with_defaults_keeps (k : string) (v : jsval) (defaults : fields) (row : jsval) :
  field k (own_fields (to_json row)) = Some v ->
  field k (with_defaults defaults row) = Some v.
Proof.
  unfold with_defaults. generalize (own_fields (to_json row)) as acc.
  induction defaults as [|[k' v'] defaults IH]; intros acc Hacc; cbn [fold_left fst]; [exact Hacc|].
  apply IH. destruct (field k' acc); [exact Hacc|]. apply field_app_some, Hacc.
Qed.

Section UsersTable.

Variable uid : string.

Lemma id_tests_agree (r : jsval) :
  has_string_id r = true ->
  same_value_zero (prop "id" r) (JStr uid) = sql_eq (prop "id" r) (JStr uid).
Proof.
  unfold has_string_id. destruct (prop "id" r); try discriminate. reflexivity.
Qed.


Lemma has_id_true (rows : list jsval) :
  forallb has_string_id rows = true ->
  has_id rows (JStr uid) = true ->
  (1 <= length (filter (fun r => sql_eq (prop "id" r) (JStr uid)) rows))%nat.
Proof.
  unfold has_id. induction rows as [|r rows IH]; cbn [forallb existsb filter]; [discriminate|].
  intros Hs Hn. apply andb_prop in Hs as [Hr Hs].
  rewrite <- (id_tests_agree r Hr).
  destruct (same_value_zero (prop "id" r) (JStr uid)); cbn [length]; [lia|].
  apply IH; auto.
Qed.

Lemma users_of_with_table (s : Store) (t : Table) (id : jsval) :
  users_with_id (with_table s "users" t) id
  = filter (fun r => sql_eq (prop "id" r) id) (t_rows t).
Proof.
  unfold users_with_id, rows_of, with_table. cbn [tables].
  rewrite table_set_table. reflexivity.
Qed.


End UsersTable.

Section Idempotence.

Variable uid : string.

Lemma derived_name_resolves (u : jsval) (e : string) :
  prop "email" u = JStr e -> exists n, derived_name u = Resolved n.
Proof.
  intro He. unfold derived_name. rewrite He.
  destruct (truthy (opt_prop "full_name" (prop "user_metadata" u))); [eauto|].
  destruct (truthy (opt_prop "name" (prop "user_metadata" u))); eauto.
Qed.











End Idempotence.



(** ** The list route, path by path *)

Section ListRoute.

Context {W : Type} (H : Handler W).

Lemma run_db {A : Type} (q : Query) (k : settled DbReply -> Prog A) (w w' : W)
      (r : settled DbReply) :
  on_db H w q = (r, w') ->
  run H (Db q k) w = logged (EvDb q) (run H (k r) w').
Proof. intro E. cbn [run]. rewrite E. reflexivity. Qed.

(** The table-absent path. *)
Lemma get_notes_table_absent (req : Request) (w w1 : W) (reply : DbReply)
      (checkError : JsError) :
  on_db H w probe_query = (Resolved reply, w1) ->
  error reply = Some checkError ->
  includes "Could not find the table" (message checkError) = true ->
  run H (get_notes req) w =
  {| result := Resolved (json (page_of [] (pagination (Fin 1) (Fin 0) 0 (limit_of req)
                                             false false)));
     final := w1;
     trace := [EvDb probe_query;
               EvConsole "Posts table not found, returning empty notes array"] |}.
Proof.
  intros Hprobe Herr Hsig. unfold get_notes, await_db. cbn [bind try_catch].
  rewrite (run_db _ _ w w1 _ Hprobe). cbn [settle bind try_catch].
  rewrite Herr, Hsig. reflexivity.
Qed.

End ListRoute.

(** ** C8: the notes table is absent *)

(** C8.  When the existence probe fails with an error whose message
    contains ["Could not find the table"], [GET /api/notes] answers
    200 with an empty [data] array and the pagination
    [currentPage 1, totalPages 0, totalCount 0, hasNextPage false,
    hasPrevPage false] (and the requested [limit]); no further query
    is made and no error reaches the caller. *)
Theorem C8_absent_table_gives_the_empty_page :
  forall (W : Type) (H : Handler W) (w w1 : W) (req : Request) (reply : DbReply)
         (checkError : JsError),
    on_db H w probe_query = (Resolved reply, w1) ->
    error reply = Some checkError ->
    includes "Could not find the table" (message checkError) = true ->
    run H (get_notes req) w =
    {| result := Resolved
         {| status := 200;
            payload := JObj [ ("data", JArr []);
                              ("pagination",
                               JObj [ ("currentPage", jint 1);
                                      ("totalPages", jint 0);
                                      ("totalCount", jint 0);
                                      ("limit", to_json (JNum (limit_of req)));
                                      ("hasNextPage", JBool false);
                                      ("hasPrevPage", JBool false) ]) ] |};
       final := w1;
       trace := [EvDb probe_query;
                 EvConsole "Posts table not found, returning empty notes array"] |}.
Proof.
  intros W H w w1 req reply checkError Hprobe Herr Hsig.
  rewrite (get_notes_table_absent H req w w1 reply checkError Hprobe Herr Hsig). reflexivity.
Qed.

(** Before the schema is provisioned the store has no [posts] table. *)
Lemma C8_bare_store_witness :
  result (run memory (get_notes (Sample.request [] [("page", "3"); ("limit", "5")] JNull))
              Sample.bare_world)
  = Resolved
      {| status := 200;
         payload := JObj [ ("data", JArr []);
                           ("pagination",
                            JObj [ ("currentPage", jint 1);
                                   ("totalPages", jint 0);
                                   ("totalCount", jint 0);
                                   ("limit", jint 5);
                                   ("hasNextPage", JBool false);
                                   ("hasPrevPage", JBool false) ]) ] |}.
Proof.
  exact (f_equal (@result Response World)
           (@C8_absent_table_gives_the_empty_page World memory Sample.bare_world
              Sample.bare_world
              (Sample.request [] [("page", "3"); ("limit", "5")] JNull)
              (reply_error (table_missing "posts")) (table_missing "posts")
              eq_refl eq_refl eq_refl)).
Defined.

(** ** The list route against the in-memory store *)

Lemma with_db_same (w : World) : with_db w (db w) = w.
Proof. destruct w; reflexivity. Qed.

Lemma memory_select (w : World) (q : Query) (t : Table) (c : Columns) (h : bool) :
  table (q_table q) (tables (db w)) = Some t ->
  q_verb q = Select c h ->
  on_db memory w q = (Resolved (exec_select (db w) t q c h), w).
Proof.
  intros Ht Hv. cbn [on_db memory]. unfold exec. rewrite Ht, Hv, with_db_same. reflexivity.
Qed.

Lemma memory_missing (w : World) (q : Query) :
  table (q_table q) (tables (db w)) = None ->
  on_db memory w q = (Resolved (reply_error (table_missing (q_table q))), w).
Proof.
  intros Ht. cbn [on_db memory]. unfold exec. rewrite Ht, with_db_same. reflexivity.
Qed.

Lemma joined_query_shape (userId drafts visibility category search : jsval) :
  let q := joined_query userId drafts visibility category search in
  q_table q = "posts" /\ q_verb q = Select star_joined false /\
  q_order q = Some ("created_at", false) /\ q_limit q = None /\ q_single q = false.
Proof.
  unfold joined_query.
  destruct (strict_eq_str drafts "true"), (strict_eq_str drafts "false"),
    (strict_eq_str visibility "public"), (strict_eq_str visibility "private"),
    (truthy category), search as [| |b|n|s| |]; try destruct (truthy (JStr s));
    cbn; auto.
Qed.

Lemma matches_nil (s : Store) (row : jsval) : matches s [] row = true.
Proof. reflexivity. Qed.

Lemma shaped_star (s : Store) (row : jsval) : shaped s star row = row.
Proof. reflexivity. Qed.

Lemma probe_reply (s : Store) (t : Table) :
  error (exec_select s t probe_query (columns ["id"]) false) = None.
Proof. reflexivity. Qed.

Lemma count_reply (s : Store) (t : Table) (userId : jsval) :
  exec_select s t (count_query userId) star true
  = {| data := JNull; error := None;
       count := Some (len (filter (matches s [FEq "user_id" userId]) (t_rows t))) |}.
Proof. reflexivity. Qed.

Lemma simple_reply (s : Store) (t : Table) (userId : jsval) :
  table "posts" (tables s) = Some t ->
  exec_select s t (simple_query userId) star false
  = reply_ok (JArr (ordered (Some ("created_at", false)) (notes_of s userId))).
Proof.
  intro Ht. unfold exec_select, notes_of, rows_of. rewrite Ht.
  cbn [embeds star with_category with_post_labels orb andb simple_query q_filters q_order
       q_range q_limit q_single eq_ order from app ranged limited finish].
  rewrite (filter_ext _ _ (matches_one_eq s "user_id" userId)).
  rewrite (map_ext _ (fun r => r) (shaped_star s)), map_id. reflexivity.
Qed.

(** The relationship-degraded path. *)
Lemma get_notes_unrelated (w : World) (req : Request) (t : Table) :
  table "posts" (tables (db w)) = Some t ->
  relationships (db w) = false ->
  let userId := prop "id" (req_user req) in
  let items := map simple_view (ordered (Some ("created_at", false)) (notes_of (db w) userId)) in
  let totalPages := ceil_div (len items) (limit_of req) in
  exists ranged_query,
    run memory (get_notes req) w =
    {| result := Resolved (json (page_of items
                                   (pagination (page_number req) totalPages (len items)
                                      (limit_of req)
                                      (num_lt (page_number req) totalPages)
                                      (num_gt (page_number req) (Fin 1)))));
       final := w;
       trace := [ EvDb probe_query; EvDb (count_query userId); EvDb ranged_query;
                  EvConsole "Relationship error, trying simple query";
                  EvDb (simple_query userId) ] |}.
Proof.
  intros Ht Hrel userId items totalPages.
  eexists. unfold get_notes, await_db. cbn [bind try_catch].
  rewrite (run_db memory _ _ w w _ (memory_select w probe_query t _ _ Ht eq_refl)).
  cbn [settle bind try_catch]. rewrite probe_reply.
  cbn [bind try_catch].
  rewrite (run_db memory _ _ w w _ (memory_select w (count_query _) t _ _ Ht eq_refl)).
  cbn [settle bind try_catch]. rewrite count_reply. cbn [error bind try_catch].
  match goal with
  | |- context [Db (range ?lo ?hi (joined_query ?u ?d ?v ?c ?s)) _] =>
      destruct (joined_query_shape u d v c s) as (Qt & Qv & _);
      assert (Hq : on_db memory w (range lo hi (joined_query u d v c s))
                   = (Resolved (reply_error (relationship_missing "posts")), w))
  end.
  { erewrite memory_select; [| cbn [q_table range]; rewrite Qt; exact Ht
                             | cbn [q_verb range]; exact Qv].
    unfold exec_select. cbn [embeds star_joined with_category with_post_labels orb andb].
    rewrite Hrel. cbn [negb q_table range]. rewrite Qt. reflexivity. }
  rewrite (run_db memory _ _ w w _ Hq).
  cbn [settle bind try_catch error reply_error].
  change (includes "Could not find a relationship" (message (relationship_missing "posts")))
    with true.
  cbn [bind try_catch console run].
  rewrite (memory_select w (simple_query _) t _ _ Ht eq_refl).
  cbn [settle bind try_catch]. rewrite (simple_reply (db w) t _ Ht).
  cbn [error reply_ok data map_rows run logged result final trace].
  reflexivity.
Qed.

(** ** Objects and their JSON text *)

Lemma to_json_obj (fs : fields) : to_json (JObj fs) = JObj (json_fields fs).
Proof.
  cbn [to_json]. f_equal. unfold json_fields.
  induction fs as [|[k v] fs IH]; [reflexivity|].
  cbn [flat_map fst snd]. rewrite <- IH. destruct v; reflexivity.
Qed.

Lemma field_remove_same (k : string) (fs : fields) : field k (remove_field k fs) = None.
Proof.
  induction fs as [|[k' v'] fs IH]; cbn [remove_field field]; [reflexivity|].
  destruct (k =? k')%string eqn:E; [exact IH|]. cbn [field]. rewrite E. exact IH.
Qed.

Lemma field_remove_other (k k' : string) (fs : fields) :
  (k =? k')%string = false -> field k (remove_field k' fs) = field k fs.
Proof.
  intro Hne. induction fs as [|[k2 v2] fs IH]; cbn [remove_field field]; [reflexivity|].
  destruct (k' =? k2)%string eqn:E.
  - apply String.eqb_eq in E; subst k2. rewrite Hne. exact IH.
  - cbn [field]. rewrite IH. reflexivity.
Qed.

Lemma field_set_same (k : string) (v : jsval) (fs : fields) :
  field k (set_field k v fs) = Some v.
Proof.
  induction fs as [|[k' v'] fs IH]; cbn [set_field field].
  - rewrite String.eqb_refl. reflexivity.
  - destruct (k =? k')%string eqn:E; cbn [field].
    + rewrite String.eqb_refl. reflexivity.
    + rewrite E. exact IH.
Qed.

Lemma field_set_other (k k' : string) (v : jsval) (fs : fields) :
  (k =? k')%string = false -> field k (set_field k' v fs) = field k fs.
Proof.
  intro Hne. induction fs as [|[k2 v2] fs IH]; cbn [set_field field].
  - rewrite Hne. reflexivity.
  - destruct (k' =? k2)%string eqn:E; cbn [field].
    + apply String.eqb_eq in E; subst k2. rewrite Hne.
      apply field_remove_other, Hne.
    + rewrite IH. reflexivity.
Qed.

(** A property that holds a value keeps it, serialised. *)
Lemma json_field_some (k : string) (v : jsval) (fs : fields) :
  field k fs = Some v -> v <> JUndef -> field k (json_fields fs) = Some (to_json v).
Proof.
  intros Hf Hv. induction fs as [|[k' v'] fs IH]; [discriminate|].
  cbn [field] in Hf. unfold json_fields. cbn [flat_map fst snd].
  fold (json_fields fs).
  destruct (k =? k')%string eqn:E.
  - injection Hf as ->. destruct v; try congruence; cbn [app field]; rewrite E; reflexivity.
  - destruct v'; cbn [app field]; try rewrite E; auto.
Qed.

Lemma json_field_removed (k : string) (fs : fields) :
  field k (json_fields (remove_field k fs)) = None.
Proof.
  induction fs as [|[k' v'] fs IH]; cbn [remove_field]; [reflexivity|].
  destruct (k =? k')%string eqn:E; [exact IH|].
  unfold json_fields. cbn [flat_map fst snd]. fold (json_fields (remove_field k fs)).
  destruct v'; cbn [app field]; try rewrite E; exact IH.
Qed.

(** A property set to [undefined] is not in the JSON text. *)
Lemma json_field_undefined (k : string) (fs : fields) :
  field k (json_fields (set_field k JUndef fs)) = None.
Proof.
  induction fs as [|[k' v'] fs IH]; cbn [set_field]; [reflexivity|].
  destruct (k =? k')%string eqn:E.
  - unfold json_fields. cbn [flat_map fst snd app].
    apply json_field_removed.
  - unfold json_fields. cbn [flat_map fst snd]. fold (json_fields (set_field k JUndef fs)).
    destruct v'; cbn [app field]; try rewrite E; exact IH.
Qed.

(** ** Sorting *)

Lemma insert_sorted_perm (le : jsval -> jsval -> bool) (x : jsval) (l : list jsval) :
  Permutation (insert_sorted le x l) (x :: l).
Proof.
  induction l as [|y l IH]; cbn [insert_sorted]; [reflexivity|].
  destruct (le x y); [reflexivity|].
  rewrite IH. apply perm_swap.
Qed.

Lemma sort_rows_perm (le : jsval -> jsval -> bool) (l : list jsval) :
  Permutation (sort_rows le l) l.
Proof.
  unfold sort_rows. induction l as [|x l IH]; cbn [fold_right]; [reflexivity|].
  rewrite insert_sorted_perm. apply perm_skip, IH.
Qed.

Lemma ordered_perm (o : option (string * bool)) (l : list jsval) :
  Permutation (ordered o l) l.
Proof. destruct o as [[c a]|]; cbn [ordered]; [apply sort_rows_perm|reflexivity]. Qed.

Lemma cell_leb_total (a b : jsval) : cell_leb a b = true \/ cell_leb b a = true.
Proof.
  destruct a as [| |x|[x| | |]|x|x|x], b as [| |y|[y| | |]|y|y|y]; cbn; auto.
  - destruct x, y; auto.
  - destruct (Z.leb_spec x y); [auto|right; apply Z.leb_le; lia].
  - apply String.leb_total.
Qed.

Lemma row_leb_total (column : string) (ascending : bool) (a b : jsval) :
  row_leb column ascending a b = true \/ row_leb column ascending b a = true.
Proof. unfold row_leb. destruct ascending; apply cell_leb_total. Qed.

Lemma insert_sorted_sorted (le : jsval -> jsval -> bool)
      (total : forall a b, le a b = true \/ le b a = true) (x : jsval) (l : list jsval) :
  Sorted (fun a b => le a b = true) l ->
  Sorted (fun a b => le a b = true) (insert_sorted le x l).
Proof.
  induction l as [|y l IH]; intro Hs; cbn [insert_sorted].
  - constructor; constructor.
  - destruct (le x y) eqn:E.
    + constructor; [exact Hs|constructor; exact E].
    + apply Sorted_inv in Hs as [Hs Hhd]. constructor; [apply IH, Hs|].
      destruct l as [|z l]; cbn [insert_sorted].
      * constructor. destruct (total x y); congruence.
      * destruct (le x z); constructor.
        -- destruct (total x y); congruence.
        -- apply HdRel_inv in Hhd. exact Hhd.
Qed.

Lemma sort_rows_sorted (le : jsval -> jsval -> bool)
      (total : forall a b, le a b = true \/ le b a = true) (l : list jsval) :
  Sorted (fun a b => le a b = true) (sort_rows le l).
Proof.
  unfold sort_rows. induction l as [|x l IH]; cbn [fold_right]; [constructor|].
  apply insert_sorted_sorted; assumption.
Qed.

(** ** C10: the flat query of the relationship-degraded path *)

Lemma simple_view_labels (r : jsval) :
  prop "labels" (to_json (simple_view r)) = JArr [] /\
  prop "category" (to_json (simple_view r)) = JNull /\
  prop "encrypted_content" (to_json (simple_view r)) = JUndef.
Proof.
  unfold simple_view, spread. cbn [fold_left fst snd].
  rewrite to_json_obj. cbn [prop].
  repeat split.
  - rewrite (json_field_some "labels" (JArr [])); [reflexivity| |discriminate].
    repeat (rewrite field_set_other by reflexivity). apply field_set_same.
  - rewrite (json_field_some "category" JNull); [reflexivity| |discriminate].
    repeat (rewrite field_set_other by reflexivity). apply field_set_same.
  - rewrite json_field_undefined. reflexivity.
Qed.



(** ** C5: pagination of the list route *)

Lemma ranged_page_length (lo : jsnum) (l : Z) (rows page : list jsval) :
  ranged (Some (lo, num_sub (num_add lo (Fin l)) (Fin 1))) rows = inr page ->
  (length page <= Z.to_nat l)%nat.
Proof.
  destruct lo as [z| | |]; cbn [ranged num_add num_sub num_neg]; try discriminate.
  destruct (andb (0 <=? z) (z <=? z + l + - (1) + 1)); [|discriminate].
  intro E; injection E as <-.
  rewrite length_firstn. replace (z + l + - (1) - z + 1) with l by lia. lia.
Qed.

Lemma filter_by_labels_length (labelIds posts kept : list jsval) :
  filter_by_labels labelIds posts = Resolved kept ->
  (length kept <= length posts)%nat.
Proof.
  revert kept; induction posts as [|p posts IH]; intros kept; cbn [filter_by_labels].
  - intro E; injection E as <-. auto.
  - destruct (some_label labelIds _) as [keep|e]; [|discriminate].
    destruct (filter_by_labels labelIds posts) as [kept'|e]; [|discriminate].
    intro E; injection E as <-. specialize (IH kept' eq_refl).
    destruct keep; cbn [length]; lia.
Qed.

Lemma filter_by_labels_subset (labelIds posts kept : list jsval) :
  filter_by_labels labelIds posts = Resolved kept ->
  forall p, In p kept -> In p posts.
Proof.
  revert kept; induction posts as [|x posts IH]; intros kept; cbn [filter_by_labels].
  - intro E; injection E as <-. auto.
  - destruct (some_label labelIds _) as [keep|e]; [|discriminate].
    destruct (filter_by_labels labelIds posts) as [kept'|e]; [|discriminate].
    intro E; injection E as <-. specialize (IH kept' eq_refl).
    intros p Hp. destruct keep; cbn [In] in *; intuition.
Qed.

Lemma ranged_error (r : option (jsnum * jsnum)) (rows : list jsval) (e : JsError) :
  ranged r rows = inl e -> e = pg_error "PGRST103" "Requested range not satisfiable".
Proof.
  destruct r as [[[lo| | |] [hi| | |]]|]; cbn [ranged]; try congruence.
  destruct (andb _ _); congruence.
Qed.

(** What the joined query with its range answers when the foreign
    keys are declared: a range error, or at most [limit] rows. *)
Lemma joined_reply (s : Store) (t : Table) (q : Query) (lo lim : jsnum) :
  relationships s = true ->
  q_single q = false -> q_limit q = None ->
  let reply := exec_select s t (range lo (num_sub (num_add lo lim) (Fin 1)) q)
                           star_joined false in
  (exists e, error reply = Some e /\
             includes "Could not find a relationship" (message e) = false) \/
  (exists rows, error reply = None /\ data reply = JArr rows /\
                forall l, lim = Fin l -> (length rows <= Z.to_nat l)%nat).
Proof.
  intros Hrel Hsingle Hlimit reply. subst reply. unfold exec_select.
  cbn [embeds star_joined with_category with_post_labels orb andb]. rewrite Hrel.
  unfold finish. cbn [negb q_range q_order q_filters q_limit q_single range].
  rewrite Hsingle, Hlimit.
  destruct (ranged _ _) as [e|page] eqn:E.
  - left. exists e. split; [reflexivity|].
    rewrite (ranged_error _ _ e E). reflexivity.
  - right. eexists. split; [reflexivity|]. split; [reflexivity|].
    intros l ->. cbn [limited]. rewrite length_map. apply (ranged_page_length lo l _ page E).
Qed.

(** The normal path. *)
Lemma get_notes_related (w : World) (req : Request) (t : Table) :
  table "posts" (tables (db w)) = Some t ->
  relationships (db w) = true ->
  (exists msg, result (run memory (get_notes req) w)
               = Resolved (status_json 500 (error_body msg))) \/
  (exists items totalCount,
      result (run memory (get_notes req) w)
      = Resolved (json (page_of items
                          (pagination (page_number req) (ceil_div totalCount (limit_of req))
                             totalCount (limit_of req)
                             (num_lt (page_number req) (ceil_div totalCount (limit_of req)))
                             (num_gt (page_number req) (Fin 1))))) /\
      (forall l, limit_of req = Fin l -> (length items <= Z.to_nat l)%nat) /\
      (forall i, In i items -> exists r, i = list_view r)).
Proof.
  intros Ht Hrel.
  unfold get_notes, await_db. cbn [bind try_catch].
  fold (limit_of req). fold (page_number req).
  rewrite (run_db memory _ _ w w _ (memory_select w probe_query t _ _ Ht eq_refl)).
  cbn [settle bind try_catch]. rewrite probe_reply.
  cbn [bind try_catch].
  rewrite (run_db memory _ _ w w _ (memory_select w (count_query _) t _ _ Ht eq_refl)).
  cbn [settle bind try_catch]. rewrite count_reply. cbn [error count bind try_catch].
  match goal with
  | |- context [Db (range ?lo ?hi (joined_query ?u ?d ?v ?c ?s)) _] =>
      destruct (joined_query_shape u d v c s) as (Qt & Qv & _ & Ql & Qs);
      pose proof (memory_select w (range lo hi (joined_query u d v c s)) t star_joined false)
        as Hq;
      destruct (joined_reply (db w) t (joined_query u d v c s) lo (limit_of req) Hrel Qs Ql)
        as [(e & He & Hsig)|(rows & He & Hd & Hlen)]
  end.
  - rewrite (run_db memory _ _ w w _ (Hq ltac:(cbn [q_table range]; rewrite Qt; exact Ht)
                                        ltac:(cbn [q_verb range]; exact Qv))).
    cbn [settle bind try_catch]. rewrite He, Hsig.
    left. exists (message e). reflexivity.
  - rewrite (run_db memory _ _ w w _ (Hq ltac:(cbn [q_table range]; rewrite Qt; exact Ht)
                                        ltac:(cbn [q_verb range]; exact Qv))).
    cbn [settle bind try_catch]. rewrite He, Hd. cbn [map_rows].
    assert (Hview : (forall l, limit_of req = Fin l ->
                                (length (map list_view rows) <= Z.to_nat l)%nat) /\
                    (forall i, In i (map list_view rows) -> exists r, i = list_view r)).
    { split; [intros l Hl; rewrite length_map; exact (Hlen l Hl)|].
      intros i Hi. apply in_map_iff in Hi as (r & <- & _). exists r; reflexivity. }
    set (labels := lookup "labels" (req_query req)).
    destruct labels as [| |b|n|csv| |]; cbn [bind try_catch run logged result];
      try (right; eexists; eexists; split; [reflexivity|exact Hview]).
    destruct (truthy (JStr csv)); cbn [bind try_catch run logged result];
      [|right; eexists; eexists; split; [reflexivity|exact Hview]].
    destruct (filter_by_labels _ (map list_view rows)) as [kept|e] eqn:Hkept;
      cbn [settle bind try_catch run logged result].
    + right. eexists; eexists. split; [reflexivity|]. split.
      * intros l Hl. pose proof (filter_by_labels_length _ _ _ Hkept).
        pose proof (proj1 Hview l Hl). lia.
      * intros i Hi. apply Hview. apply (filter_by_labels_subset _ _ _ Hkept i Hi).
    + left. exists (message e). reflexivity.
Qed.

(** C5, as corrected.  For a request with [limit > 0] that is answered
    with a page: [hasNextPage] is [currentPage < totalPages] and
    [hasPrevPage] is [currentPage > 1], where [currentPage] is the
    page asked for, except on the table-absent path where it is 1;
    and on the normal path and on the table-absent path the page has
    at most [limit] items.  (The only other answers are 500s.) *)
Theorem C5_page_flags_and_page_size :
  forall (w : World) (req : Request) (l : Z),
    limit_of req = Fin l -> 0 < l ->
    let out := run memory (get_notes req) w in
    (exists msg, result out = Resolved (status_json 500 (error_body msg))) \/
    (exists items currentPage totalPages totalCount,
        result out
        = Resolved (json (page_of items
                            (pagination currentPage totalPages totalCount (Fin l)
                               (num_lt currentPage totalPages)
                               (num_gt currentPage (Fin 1))))) /\
        (currentPage = page_number req \/
         (table "posts" (tables (db w)) = None /\ currentPage = Fin 1)) /\
        (table "posts" (tables (db w)) = None \/ relationships (db w) = true ->
         len items <= l)).
Proof.
  intros w req l Hlim Hpos out. subst out.
  destruct (table "posts" (tables (db w))) as [t|] eqn:Ht.
  - destruct (relationships (db w)) eqn:Hrel.
    + destruct (get_notes_related w req t Ht Hrel)
        as [Herr|(items & tc & E & Hlen & _)];
        [left; exact Herr|].
      right. exists items, (page_number req), (ceil_div tc (Fin l)), tc.
      rewrite Hlim in E. split; [exact E|]. split; [left; reflexivity|].
      intros _. specialize (Hlen l Hlim). unfold len. lia.
    + destruct (get_notes_unrelated w req t Ht Hrel) as [rq E].
      right. rewrite Hlim in E. do 4 eexists.
      split; [rewrite E; reflexivity|]. split; [left; reflexivity|].
      intros [Hnone|Hyes]; discriminate.
  - right. exists [], (Fin 1), (Fin 0), 0.
    rewrite (get_notes_table_absent memory req w w (reply_error (table_missing "posts"))
               (table_missing "posts") (memory_missing w probe_query Ht) eq_refl eq_refl).
    rewrite Hlim. split; [reflexivity|]. split; [right; auto|].
    intros _. cbn. lia.
Qed.

(** Page 2 of the notes of [u1], one note a page. *)
Lemma C5_second_page_witness :
  let out := run memory (get_notes (Sample.request [] [("page", "2"); ("limit", "1")] JNull))
                 Sample.world in
  (exists msg, result out = Resolved (status_json 500 (error_body msg))) \/
  (exists items currentPage totalPages totalCount,
      result out
      = Resolved (json (page_of items
                          (pagination currentPage totalPages totalCount (Fin 1)
                             (num_lt currentPage totalPages)
                             (num_gt currentPage (Fin 1))))) /\
      (currentPage = Fin 2 \/
       (table "posts" (tables (db Sample.world)) = None /\ currentPage = Fin 1)) /\
      (table "posts" (tables (db Sample.world)) = None \/
       relationships (db Sample.world) = true -> len items <= 1)).
Proof.
  exact (C5_page_flags_and_page_size Sample.world
           (Sample.request [] [("page", "2"); ("limit", "1")] JNull) 1 eq_refl eq_refl).
Defined.

(** C5 as stated fails on the relationship-degraded path: asked with
    [limit=1], the answer carries both notes of the owner. *)
Lemma C5_degraded_page_exceeds_the_limit :
  exists items pg,
    result (run memory (get_notes (Sample.request [] [("limit", "1")] JNull))
                Sample.unrelated_world)
    = Resolved {| status := 200;
                  payload := JObj [ ("data", JArr items); ("pagination", pg) ] |} /\
    prop "limit" pg = jint 1 /\
    length items = 2%nat.
Proof. do 2 eexists. repeat split. Qed.

(** ** C3: writes to a note of another user *)

Lemma set_table_same (name : string) (t : Table) (ts : list (string * Table)) :
  table name ts = Some t -> set_table name t ts = ts.
Proof.
  induction ts as [|[n t'] ts IH]; cbn [table set_table]; [discriminate|].
  destruct (name =? n)%string; [intro E; injection E as ->; reflexivity|].
  intro E. rewrite (IH E). reflexivity.
Qed.

Lemma with_table_same (s : Store) (name : string) (t : Table) :
  table name (tables s) = Some t ->
  with_table s name (with_rows t (t_rows t) (t_serial t)) = s.
Proof.
  intro Ht. unfold with_table, with_rows.
  replace {| t_rows := t_rows t; t_primary := t_primary t; t_serial := t_serial t;
             t_defaults := t_defaults t |} with t by (destruct t; reflexivity).
  rewrite (set_table_same name t (tables s) Ht). destruct s; reflexivity.
Qed.

Lemma filter_none (f : jsval -> bool) (l : list jsval) :
  (forall r, In r l -> f r = false) -> filter f l = [].
Proof.
  induction l as [|x l IH]; intro Hf; cbn [filter]; [reflexivity|].
  rewrite (Hf x (or_introl eq_refl)). apply IH. intros r Hr. apply Hf. right; exact Hr.
Qed.

Lemma map_untouched (f : jsval -> bool) (g : jsval -> jsval) (l : list jsval) :
  (forall r, In r l -> f r = false) -> map (fun r => if f r then g r else r) l = l.
Proof.
  induction l as [|x l IH]; intro Hf; cbn [map]; [reflexivity|].
  rewrite (Hf x (or_introl eq_refl)). f_equal. apply IH. intros r Hr. apply Hf. right; exact Hr.
Qed.

Lemma filter_all (f : jsval -> bool) (l : list jsval) :
  (forall r, In r l -> f r = false) -> filter (fun r => negb (f r)) l = l.
Proof.
  induction l as [|x l IH]; intro Hf; cbn [filter]; [reflexivity|].
  rewrite (Hf x (or_introl eq_refl)). cbn [negb]. f_equal.
  apply IH. intros r Hr. apply Hf. right; exact Hr.
Qed.

(** An update that matches no row returns no row and changes
    nothing. *)
Lemma memory_update_no_match (w : World) (q : Query) (t : Table) (patch : jsval) :
  table (q_table q) (tables (db w)) = Some t ->
  q_verb q = Update patch -> q_returning q = true -> q_single q = false ->
  (forall r, In r (t_rows t) -> matches (db w) (q_filters q) r = false) ->
  on_db memory w q = (Resolved (reply_ok (JArr [])), w).
Proof.
  intros Ht Hv Hret Hsingle Hnone. cbn [on_db memory]. unfold exec.
  rewrite Ht, Hv, Hret. unfold finish. rewrite Hsingle.
  rewrite (filter_none _ _ Hnone), (map_untouched _ _ _ Hnone).
  rewrite (with_table_same (db w) (q_table q) t Ht), with_db_same. reflexivity.
Qed.

(** A delete that matches no row changes nothing and reports no
    error. *)
Lemma memory_delete_no_match (w : World) (q : Query) (t : Table) :
  table (q_table q) (tables (db w)) = Some t ->
  q_verb q = Delete -> q_returning q = false ->
  (forall r, In r (t_rows t) -> matches (db w) (q_filters q) r = false) ->
  on_db memory w q = (Resolved (reply_ok JNull), w).
Proof.
  intros Ht Hv Hret Hnone. cbn [on_db memory]. unfold exec.
  rewrite Ht, Hv, Hret.
  rewrite (filter_all _ _ Hnone).
  rewrite (with_table_same (db w) (q_table q) t Ht), with_db_same. reflexivity.
Qed.

Section ForeignNote.

Variables (w : World) (req : Request) (t : Table).
Hypothesis posts_table : table "posts" (tables (db w)) = Some t.
(** Every note with the id of the request belongs to someone else. *)
Hypothesis foreign :
  forall r, In r (t_rows t) ->
            sql_eq (prop "id" r) (lookup "id" (req_params req)) = true ->
            sql_eq (prop "user_id" r) (prop "id" (req_user req)) = false.

Lemma no_row_of_the_caller (rest : list Filter) (r : jsval) :
  In r (t_rows t) ->
  matches (db w) (FEq "id" (lookup "id" (req_params req))
                    :: FEq "user_id" (prop "id" (req_user req)) :: rest) r = false.
Proof.
  intro Hin. unfold matches. cbn [forallb holds].
  destruct (sql_eq (prop "id" r) (lookup "id" (req_params req))) eqn:E; [|reflexivity].
  rewrite (foreign r Hin E). reflexivity.
Qed.

Lemma put_note_foreign :
  run memory (put_note req) w =
  {| result := Resolved (not_found "Note not found or access denied"); final := w;
     trace := trace (run memory (put_note req) w) |}.
Proof.
  unfold put_note, new_Date, await_db. cbn [bind try_catch run].
  erewrite memory_update_no_match;
    [|exact posts_table|reflexivity|reflexivity|reflexivity
     |intros r Hr; apply (no_row_of_the_caller [] r Hr)].
  reflexivity.
Qed.

Lemma post_autosave_foreign :
  run memory (post_autosave req) w =
  {| result := Resolved (not_found "Note not found or access denied"); final := w;
     trace := trace (run memory (post_autosave req) w) |}.
Proof.
  unfold post_autosave, new_Date, await_db. cbn [bind try_catch run].
  erewrite memory_update_no_match;
    [|exact posts_table|reflexivity|reflexivity|reflexivity
     |intros r Hr; apply (no_row_of_the_caller [] r Hr)].
  reflexivity.
Qed.

Lemma patch_visibility_foreign :
  run memory (patch_visibility req) w =
  {| result := Resolved (not_found "Note not found or access denied"); final := w;
     trace := trace (run memory (patch_visibility req) w) |}.
Proof.
  unfold patch_visibility, new_Date, randomBytes_hex, await_db.
  destruct (truthy (prop "is_public" (req_body req))); cbn [bind try_catch run];
    (erewrite memory_update_no_match;
     [|exact posts_table|reflexivity|reflexivity|reflexivity
      |intros r Hr; apply (no_row_of_the_caller [] r Hr)]);
    reflexivity.
Qed.

Lemma patch_publish_foreign :
  run memory (patch_publish req) w =
  {| result := Resolved (not_found "Draft not found or access denied"); final := w;
     trace := trace (run memory (patch_publish req) w) |}.
Proof.
  unfold patch_publish, new_Date, await_db. cbn [bind try_catch run].
  erewrite memory_update_no_match;
    [|exact posts_table|reflexivity|reflexivity|reflexivity
     |intros r Hr; apply (no_row_of_the_caller [FEq "is_draft" (JBool true)] r Hr)].
  reflexivity.
Qed.

Lemma delete_note_foreign :
  run memory (delete_note req) w =
  {| result := Resolved (json (obj [("message", JStr "Note deleted successfully")]));
     final := w;
     trace := trace (run memory (delete_note req) w) |}.
Proof.
  unfold delete_note, await_db. cbn [bind try_catch run].
  erewrite memory_delete_no_match;
    [|exact posts_table|reflexivity|reflexivity
     |intros r Hr; apply (no_row_of_the_caller [] r Hr)].
  reflexivity.
Qed.

End ForeignNote.

(** C3, as corrected.  A request of an authenticated user against the
    id of a note that exists and belongs to another user leaves every
    stored row as it was.  [PUT /api/notes/:id],
    [POST /api/notes/:id/autosave], [PATCH /api/notes/:id/visibility]
    and [PATCH /api/notes/:id/publish] answer 404;
    [DELETE /api/notes/:id] answers 200 with
    ["Note deleted successfully"], as it does for an id that does not
    exist. *)
Theorem C3_note_of_another_user_is_left_unchanged :
  forall (w : World) (req : Request) (t : Table) (note : jsval),
    table "posts" (tables (db w)) = Some t ->
    In note (t_rows t) ->
    sql_eq (prop "id" note) (lookup "id" (req_params req)) = true ->
    (forall r, In r (t_rows t) ->
               sql_eq (prop "id" r) (lookup "id" (req_params req)) = true ->
               sql_eq (prop "user_id" r) (prop "id" (req_user req)) = false) ->
    let denied := {| status := 404;
                     payload := JObj [("error", JStr "Note not found or access denied")] |} in
    (result (run memory (put_note req) w) = Resolved denied /\
     final (run memory (put_note req) w) = w) /\
    (result (run memory (post_autosave req) w) = Resolved denied /\
     final (run memory (post_autosave req) w) = w) /\
    (result (run memory (patch_visibility req) w) = Resolved denied /\
     final (run memory (patch_visibility req) w) = w) /\
    (result (run memory (patch_publish req) w)
     = Resolved {| status := 404;
                   payload := JObj [("error", JStr "Draft not found or access denied")] |} /\
     final (run memory (patch_publish req) w) = w) /\
    (result (run memory (delete_note req) w)
     = Resolved {| status := 200;
                   payload := JObj [("message", JStr "Note deleted successfully")] |} /\
     final (run memory (delete_note req) w) = w).
Proof.
  intros w req t note Ht _ _ Hforeign denied. subst denied.
  rewrite (put_note_foreign w req t Ht Hforeign),
    (post_autosave_foreign w req t Ht Hforeign),
    (patch_visibility_foreign w req t Ht Hforeign),
    (patch_publish_foreign w req t Ht Hforeign),
    (delete_note_foreign w req t Ht Hforeign).
  cbn [result final]. repeat split.
Qed.

(** The user [u1] addresses note 2, which is [u2]'s. *)
Lemma C3_foreign_note_witness :
  let req := Sample.request [("id", "2")] []
               (JObj [("title", JStr "mine now"); ("content", JStr "x");
                      ("is_public", JBool true)]) in
  final (run memory (put_note req) Sample.world) = Sample.world /\
  final (run memory (post_autosave req) Sample.world) = Sample.world /\
  final (run memory (patch_visibility req) Sample.world) = Sample.world /\
  final (run memory (patch_publish req) Sample.world) = Sample.world /\
  final (run memory (delete_note req) Sample.world) = Sample.world.
Proof.
  intro req.
  assert (Hforeign : forall r, In r (t_rows Sample.posts) ->
                               sql_eq (prop "id" r) (lookup "id" (req_params req)) = true ->
                               sql_eq (prop "user_id" r) (prop "id" (req_user req)) = false).
  { intros r [<-|[<-|[<-|[]]]]; intro E; vm_compute in E |- *; congruence. }
  pose proof (C3_note_of_another_user_is_left_unchanged Sample.world req Sample.posts
                (Sample.note 2 "u2" false false 11 11 JNull)
                eq_refl (or_intror (or_introl eq_refl)) eq_refl Hforeign) as H.
  cbv zeta in H.
  repeat split; apply H.
Defined.

(** C3 as stated fails for [DELETE]: the note of [u2] stays, but the
    answer to [u1] is 200, not 404. *)
Lemma C3_delete_of_foreign_note_answers_200 :
  let req := Sample.request [("id", "2")] [] JNull in
  In (Sample.note 2 "u2" false false 11 11 JNull) (rows_of (db Sample.world) "posts") /\
  result (run memory (delete_note req) Sample.world)
  = Resolved {| status := 200;
                payload := JObj [("message", JStr "Note deleted successfully")] |} /\
  rows_of (db (final (run memory (delete_note req) Sample.world))) "posts"
  = rows_of (db Sample.world) "posts".
Proof. cbv zeta. split; [right; left; reflexivity|]. split; reflexivity. Qed.

(** ** C4: plain and encrypted content *)

Section Invariants.

Variable Q : Query -> Prop.

Lemma all_queries_bind {A B : Type} (p : Prog A) (f : A -> Prog B) :
  all_queries Q p -> (forall a, all_queries Q (f a)) -> all_queries Q (bind p f).
Proof.
  intros Hp Hf. induction p as [a|e|t k IH|q k IH|k IH|n k IH|l k IH];
    cbn [bind all_queries] in *; auto.
  destruct Hp as [Hq Hk]. auto.
Qed.

Lemma all_queries_try_catch {A : Type} (p : Prog A) (h : JsError -> Prog A) :
  all_queries Q p -> (forall e, all_queries Q (h e)) -> all_queries Q (try_catch p h).
Proof.
  intros Hp Hh. induction p as [a|e|t k IH|q k IH|k IH|n k IH|l k IH];
    cbn [try_catch all_queries] in *; auto.
  destruct Hp as [Hq Hk]. auto.
Qed.

Lemma all_queries_settle {A : Type} (r : settled A) : all_queries Q (settle r).
Proof. destruct r; exact I. Qed.

Lemma all_queries_await (q : Query) : Q q -> all_queries Q (await_db q).
Proof. intro Hq. split; [exact Hq|]. intro r. apply all_queries_settle. Qed.

Lemma all_queries_throw_if_error (r : DbReply) : all_queries Q (throw_if_error r).
Proof. unfold throw_if_error. destruct (error r); exact I. Qed.

Lemma all_queries_server_error (e : JsError) : all_queries Q (server_error e).
Proof. exact I. Qed.

End Invariants.

(** An invariant of the notes that every query of a program keeps
    holds when the program has run. *)
Lemma run_keeps_notes {A : Type} (G : jsval -> Prop) (p : Prog A) (w : World) :
  all_queries (keeps_notes G) p ->
  every_note G (db w) ->
  every_note G (db (final (run memory p w))).
Proof.
  revert w. induction p as [a|e|t k IH|q k IH|k IH|n k IH|l k IH]; intros w Hp Hw;
    cbn [run all_queries] in *; auto.
  - destruct (on_getUser memory w t) as [r w'] eqn:E. cbn [on_getUser memory] in E.
    injection E as <- <-. cbn [logged final]. apply IH; auto.
  - destruct Hp as [Hq Hk]. cbn [on_db memory].
    destruct (exec (db w) (clock w) q) as [r s] eqn:E. cbn [logged final].
    apply IH; [apply Hk|]. cbn [db with_db].
    specialize (Hq (db w) (clock w) Hw). rewrite E in Hq. exact Hq.
  - cbn [logged final]. apply IH; auto.
Qed.

Lemma rows_of_other_table (s : Store) (name : string) (t : Table) :
  ("posts" =? name)%string = false ->
  rows_of (with_table s name t) "posts" = rows_of s "posts".
Proof.
  intro Hne. unfold rows_of, with_table. cbn [tables].
  induction (tables s) as [|[n t'] ts IH]; cbn [set_table table].
  - rewrite Hne. reflexivity.
  - destruct (name =? n)%string eqn:E; cbn [table].
    + apply String.eqb_eq in E; subst n. rewrite Hne. reflexivity.
    + destruct ("posts" =? n)%string; [reflexivity|exact IH].
Qed.

Lemma rows_of_posts (s : Store) (t : Table) :
  rows_of (with_table s "posts" t) "posts" = t_rows t.
Proof. unfold rows_of, with_table. cbn [tables]. rewrite table_set_table. reflexivity. Qed.

Lemma insert_rows_appends (primary : bool) (defaults : fields) (new rows inserted rows' : list jsval)
      (serial serial' : option Z) (G : jsval -> Prop) :
  (forall r, In r new ->
             G (JObj (with_defaults defaults r)) /\
             forall n, G (JObj (("id", jint n) :: with_defaults defaults r))) ->
  insert_rows primary defaults new rows serial = Some (inserted, rows', serial') ->
  Forall G rows -> Forall G rows'.
Proof.
  revert rows inserted rows' serial serial'.
  induction new as [|r new IH]; intros rows inserted rows' serial serial' Hnew E Hrows;
    cbn [insert_rows] in E.
  - injection E as <- <- <-. exact Hrows.
  - destruct (andb primary _); [discriminate|].
    destruct (insert_rows primary defaults new _ _) as [[[ins rs] sr]|] eqn:E'; [|discriminate].
    injection E as <- <- <-.
    apply (IH _ _ _ _ _ (fun x Hx => Hnew x (or_intror Hx)) E').
    apply Forall_app. split; [exact Hrows|]. constructor; [|constructor].
    destruct (Hnew r (or_introl eq_refl)) as [G1 G2].
    destruct serial as [n|]; [destruct (field "id" (with_defaults defaults r))|];
      cbn [fst]; auto.
Qed.

Section Keeping.

Variable G : jsval -> Prop.

Lemma keeps_select (q : Query) (c : Columns) (h : bool) :
  q_verb q = Select c h -> keeps_notes G q.
Proof.
  intros Hv s now Hs. unfold exec. rewrite Hv.
  destruct (table (q_table q) (tables s)); exact Hs.
Qed.

Lemma keeps_other_table (q : Query) :
  ("posts" =? q_table q)%string = false -> keeps_notes G q.
Proof.
  intros Hne s now Hs. unfold exec, every_note in *.
  destruct (table (q_table q) (tables s)) as [t|]; [|exact Hs].
  destruct (q_verb q) as [c h|new|patch|]; cbn [snd]; [exact Hs| | |].
  - destruct (insert_rows _ _ _ _ _) as [[[ins rs] sr]|]; cbn [snd]; [|exact Hs].
    rewrite rows_of_other_table; assumption.
  - rewrite rows_of_other_table; assumption.
  - rewrite rows_of_other_table; assumption.
Qed.

Lemma keeps_insert (q : Query) (new : list jsval) :
  q_table q = "posts" -> q_verb q = Insert new ->
  (forall r defaults, In r new ->
                      G (JObj (with_defaults defaults r)) /\
                      forall n, G (JObj (("id", jint n) :: with_defaults defaults r))) ->
  keeps_notes G q.
Proof.
  intros Ht Hv Hnew s now Hs. unfold exec, every_note in *. rewrite Ht, Hv.
  destruct (table "posts" (tables s)) as [t|] eqn:Etab; [|exact Hs].
  destruct (insert_rows _ _ _ _ _) as [[[ins rs] sr]|] eqn:E; cbn [snd]; [|exact Hs].
  rewrite rows_of_posts. cbn [t_rows with_rows].
  apply (insert_rows_appends _ _ _ _ _ _ _ _ G (fun r Hr => Hnew r _ Hr) E).
  unfold rows_of in Hs. rewrite Etab in Hs. exact Hs.
Qed.

Lemma keeps_update (q : Query) (patch : jsval) :
  q_table q = "posts" -> q_verb q = Update patch ->
  (forall r, G r -> G (patched patch r)) ->
  keeps_notes G q.
Proof.
  intros Ht Hv Hpatch s now Hs. unfold exec, every_note in *. rewrite Ht, Hv.
  destruct (table "posts" (tables s)) as [t|] eqn:Etab; [|exact Hs].
  cbn [snd]. rewrite rows_of_posts. cbn [t_rows with_rows].
  unfold rows_of in Hs. rewrite Etab in Hs.
  induction Hs as [|r rows Hr Hrows IH]; cbn [map]; constructor; [|exact IH].
  destruct (matches s (q_filters q) r); auto.
Qed.

End Keeping.

Lemma stored_prop (k : string) (v : jsval) (defaults : fields) (payload : jsval) :
  field k (own_fields (to_json payload)) = Some v ->
  (k =? "id")%string = false ->
  prop k (JObj (with_defaults defaults payload)) = v /\
  forall n, prop k (JObj (("id", jint n) :: with_defaults defaults payload)) = v.
Proof.
  intros Hf Hne. pose proof (with_defaults_keeps k v defaults payload Hf) as E.
  split; [|intro n]; cbn [prop field]; try rewrite Hne; rewrite E; reflexivity.
Qed.

Lemma json_fields_keys (k : string) (fs : fields) :
  In k (map fst (json_fields fs)) -> In k (map fst fs).
Proof.
  induction fs as [|[k' v'] fs IH]; [auto|].
  unfold json_fields. cbn [flat_map fst snd map]. fold (json_fields fs).
  destruct v'; cbn [app map fst In]; intuition.
Qed.

Lemma json_fields_NoDup (fs : fields) :
  NoDup (map fst fs) -> NoDup (map fst (json_fields fs)).
Proof.
  induction fs as [|[k' v'] fs IH]; [auto|].
  cbn [map fst]. intro Hn. apply NoDup_cons_iff in Hn as [Hk Hn].
  unfold json_fields. cbn [flat_map fst snd]. fold (json_fields fs).
  destruct v'; cbn [app map fst]; auto;
    (constructor; [intro Hin; apply Hk, json_fields_keys, Hin|auto]).
Qed.

Lemma fold_set_field_other (k : string) (fs acc : fields) :
  ~ In k (map fst fs) ->
  field k (fold_left (fun a kv => set_field (fst kv) (snd kv) a) fs acc) = field k acc.
Proof.
  revert acc. induction fs as [|[k' v'] fs IH]; intros acc Hk; cbn [fold_left fst snd];
    [reflexivity|].
  cbn [map fst In] in Hk. rewrite IH by tauto.
  apply field_set_other. apply String.eqb_neq. intro E. apply Hk. left. congruence.
Qed.

Lemma fold_set_field (k : string) (v : jsval) (fs acc : fields) :
  NoDup (map fst fs) -> field k fs = Some v ->
  field k (fold_left (fun a kv => set_field (fst kv) (snd kv) a) fs acc) = Some v.
Proof.
  revert acc. induction fs as [|[k' v'] fs IH]; intros acc Hn Hf; [discriminate|].
  cbn [map fst] in Hn. apply NoDup_cons_iff in Hn as [Hk Hn].
  cbn [field] in Hf. cbn [fold_left fst snd].
  destruct (k =? k')%string eqn:E.
  - apply String.eqb_eq in E; subst k'. injection Hf as ->.
    rewrite fold_set_field_other by exact Hk. apply field_set_same.
  - apply IH; assumption.
Qed.

(** The column that an update sets holds the value sent. *)
Lemma patched_prop (k : string) (v : jsval) (entries : fields) (row : jsval) :
  NoDup (map fst entries) -> field k entries = Some v -> v <> JUndef ->
  prop k (patched (JObj entries) row) = to_json v.
Proof.
  intros Hn Hf Hv. unfold patched, spread. rewrite to_json_obj. cbn [own_fields prop].
  rewrite (fold_set_field k (to_json v)); [reflexivity|apply json_fields_NoDup, Hn|].
  apply json_field_some; assumption.
Qed.

Ltac distinct_keys :=
  cbn [map fst];
  repeat (apply NoDup_cons; [cbn [In]; intuition discriminate|]);
  apply NoDup_nil.

Ltac walk_queries :=
  repeat first
    [ exact I
    | apply all_queries_settle
    | apply all_queries_throw_if_error
    | apply all_queries_bind; [|intro] ].

Section ContentWrites.

Variable G : jsval -> Prop.
Variable flag : jsval.
(** A row with the excluded side empty is acceptable. *)
Hypothesis acceptable :
  forall row,
    (if truthy flag then prop "content" row = JNull
     else prop "encrypted_content" row = JNull) -> G row.

Lemma insert_labels_keeps (rows : option (list jsval)) :
  all_queries (keeps_notes G) (insert_labels rows).
Proof.
  destruct rows as [l|]; cbn [insert_labels]; [|exact I].
  apply all_queries_bind; [|intro; apply all_queries_throw_if_error].
  apply all_queries_await, keeps_other_table. reflexivity.
Qed.

Lemma post_notes_keeps (req : Request) :
  flag = default_to (JBool false) (prop "is_encrypted" (req_body req)) ->
  all_queries (keeps_notes G) (post_notes req).
Proof.
  intro Hflag. unfold post_notes.
  apply all_queries_try_catch; [|intro; exact I].
  apply all_queries_bind;
    [destruct (truthy (default_to (JBool false) (prop "is_public" (req_body req))));
     cbn; auto|intro token].
  apply all_queries_bind; [cbn; auto|intro last_autosave].
  apply all_queries_bind; [cbn; auto|intro updated_at].
  apply all_queries_bind; [|intro created].
  - apply all_queries_await.
    eapply keeps_insert; [reflexivity|reflexivity|].
    intros r defaults [<-|[]]. rewrite <- Hflag.
    cbn [obj spread own_fields fold_left fst snd set_field remove_field
         String.eqb Ascii.eqb Bool.eqb].
    destruct (truthy flag) eqn:Ef.
    + destruct (stored_prop "content" JNull defaults
                  (JObj [ ("title", prop "title" (req_body req)); ("content", JNull);
                          ("encrypted_content", prop "encrypted_content" (req_body req));
                          ("category_id", js_or (prop "category_id" (req_body req)) JNull);
                          ("user_id", prop "id" (req_user req));
                          ("is_draft", default_to (JBool false) (prop "is_draft" (req_body req)));
                          ("is_public", default_to (JBool false) (prop "is_public" (req_body req)));
                          ("is_encrypted", flag);
                          ("public_share_token", token);
                          ("last_autosave", last_autosave);
                          ("updated_at", updated_at) ])) as [S1 S2];
        [rewrite to_json_obj; cbn [own_fields]; apply (json_field_some "content" JNull);
         [reflexivity|discriminate] | reflexivity |].
      split; [|intro n]; apply acceptable; auto.
    + destruct (stored_prop "encrypted_content" JNull defaults
                  (JObj [ ("title", prop "title" (req_body req));
                          ("content", prop "content" (req_body req));
                          ("encrypted_content", JNull);
                          ("category_id", js_or (prop "category_id" (req_body req)) JNull);
                          ("user_id", prop "id" (req_user req));
                          ("is_draft", default_to (JBool false) (prop "is_draft" (req_body req)));
                          ("is_public", default_to (JBool false) (prop "is_public" (req_body req)));
                          ("is_encrypted", flag);
                          ("public_share_token", token);
                          ("last_autosave", last_autosave);
                          ("updated_at", updated_at) ])) as [S1 S2];
        [rewrite to_json_obj; cbn [own_fields];
         apply (json_field_some "encrypted_content" JNull);
         [reflexivity|discriminate] | reflexivity |].
      split; [|intro n]; apply acceptable; auto.
  - walk_queries.
    + apply insert_labels_keeps.
    + apply all_queries_await. eapply keeps_select. reflexivity.
Qed.

Lemma post_autosave_keeps (req : Request) :
  flag = prop "is_encrypted" (req_body req) ->
  all_queries (keeps_notes G) (post_autosave req).
Proof.
  intro Hflag. unfold post_autosave.
  apply all_queries_try_catch; [|intro; exact I].
  apply all_queries_bind; [cbn; auto|intro last_autosave].
  apply all_queries_bind; [cbn; auto|intro updated_at].
  apply all_queries_bind; [|intro updated].
  - apply all_queries_await.
    eapply keeps_update; [reflexivity|reflexivity|].
    intros r _. rewrite <- Hflag.
    apply acceptable.
    destruct (truthy flag); unfold obj, spread;
      cbn [own_fields fold_left fst snd set_field remove_field
           String.eqb Ascii.eqb Bool.eqb].
    + rewrite (patched_prop "content" JNull); [reflexivity|distinct_keys|reflexivity|discriminate].
    + rewrite (patched_prop "encrypted_content" JNull);
        [reflexivity|distinct_keys|reflexivity|discriminate].
  - walk_queries. destruct (no_rows (data updated)); exact I.
Qed.

End ContentWrites.

(** C4, as corrected.  [POST /api/notes] and
    [POST /api/notes/:id/autosave] never leave a note row with plain
    and encrypted content both populated, and every row they write
    has the side that the request's encryption flag rules out empty:
    no [content] under a truthy flag, no [encrypted_content]
    otherwise.  (The side the flag selects holds what the request
    sent, which may be nothing.) *)
Theorem C4_create_and_autosave_keep_content_exclusive :
  forall (w : World) (req : Request),
    let created := db (final (run memory (post_notes req) w)) in
    let autosaved := db (final (run memory (post_autosave req) w)) in
    (forallb exclusive_content (rows_of (db w) "posts") = true ->
     forallb exclusive_content (rows_of created "posts") = true /\
     forallb exclusive_content (rows_of autosaved "posts") = true) /\
    (forall r, In r (rows_of created "posts") ->
               In r (rows_of (db w) "posts") \/
               content_follows_flag
                 (default_to (JBool false) (prop "is_encrypted" (req_body req))) r = true) /\
    (forall r, In r (rows_of autosaved "posts") ->
               In r (rows_of (db w) "posts") \/
               content_follows_flag (prop "is_encrypted" (req_body req)) r = true).
Proof.
  intros w req created autosaved. subst created autosaved.
  assert (Hexcl : forall flag row,
             (if truthy flag then prop "content" row = JNull
              else prop "encrypted_content" row = JNull) ->
             exclusive_content row = true).
  { intros flag row. unfold exclusive_content.
    destruct (truthy flag); intros ->; cbn [populated nullish negb andb];
      [reflexivity|rewrite andb_false_r; reflexivity]. }
  assert (Hflag : forall flag row,
             (if truthy flag then prop "content" row = JNull
              else prop "encrypted_content" row = JNull) ->
             In row (rows_of (db w) "posts") \/ content_follows_flag flag row = true).
  { intros flag row Hrow. right. unfold content_follows_flag.
    destruct (truthy flag); rewrite Hrow; reflexivity. }
  split; [|split].
  - intro Hw. rewrite forallb_forall in Hw. apply Forall_forall in Hw.
    split; apply forallb_forall, Forall_forall.
    + apply (run_keeps_notes (fun r => exclusive_content r = true) (post_notes req) w);
        [|exact Hw].
      apply (post_notes_keeps _ _ (Hexcl _) req eq_refl).
    + apply (run_keeps_notes (fun r => exclusive_content r = true) (post_autosave req) w);
        [|exact Hw].
      apply (post_autosave_keeps _ _ (Hexcl _) req eq_refl).
  - apply Forall_forall.
    apply (run_keeps_notes _ (post_notes req) w); [|apply Forall_forall; auto].
    apply (post_notes_keeps _ _ (Hflag _) req eq_refl).
  - apply Forall_forall.
    apply (run_keeps_notes _ (post_autosave req) w); [|apply Forall_forall; auto].
    apply (post_autosave_keeps _ _ (Hflag _) req eq_refl).
Qed.

(** An encrypted note is created and then autosaved as plain text. *)
Lemma C4_autosave_witness :
  let req := Sample.request [("id", "1")] []
               (JObj [ ("title", JStr "list"); ("content", JStr "eggs");
                       ("is_encrypted", JBool false) ]) in
  forallb exclusive_content
    (rows_of (db (final (run memory (post_notes req) Sample.world))) "posts") = true /\
  forallb exclusive_content
    (rows_of (db (final (run memory (post_autosave req) Sample.world))) "posts") = true.
Proof.
  intro req.
  exact (proj1 (C4_create_and_autosave_keep_content_exclusive Sample.world req) eq_refl).
Defined.

(** C4 as stated fails twice.  [PUT /api/notes/:id] on the encrypted
    note 1 of [u1] writes the plain content and keeps the encrypted
    content and the flag: both are populated.  [POST /api/notes] with
    a title only creates a row with neither populated. *)
Lemma C4_put_leaves_both_and_create_may_leave_neither :
  let put := Sample.request [("id", "1")] []
               (JObj [ ("title", JStr "list"); ("content", JStr "eggs") ]) in
  let after_put := rows_of (db (final (run memory (put_note put) Sample.world))) "posts" in
  let post := Sample.request [] [] (JObj [ ("title", JStr "empty") ]) in
  let after_post := rows_of (db (final (run memory (post_notes post) Sample.world))) "posts" in
  forallb exclusive_content (rows_of (db Sample.world) "posts") = true /\
  status_of (result (run memory (put_note put) Sample.world)) = Some 200 /\
  map (fun r => (prop "content" r, prop "encrypted_content" r, prop "is_encrypted" r))
      (filter (fun r => sql_eq (prop "id" r) (JStr "1")) after_put)
  = [(JStr "eggs", JStr "c2VjcmV0", JBool true)] /\
  forallb exclusive_content after_put = false /\
  status_of (result (run memory (post_notes post) Sample.world)) = Some 201 /\
  map (fun r => (populated (prop "content" r), populated (prop "encrypted_content" r)))
      (filter (fun r => sql_eq (prop "id" r) (JStr "4")) after_post)
  = [(false, false)].
Proof. cbv zeta. repeat split. Qed.

(** ** C6 and C7: what the views show *)

Lemma json_field_none (k : string) (fs : fields) :
  field k fs = None -> field k (json_fields fs) = None.
Proof.
  induction fs as [|[k' v'] fs IH]; [auto|].
  cbn [field]. unfold json_fields. cbn [flat_map fst snd]. fold (json_fields fs).
  destruct (k =? k')%string eqn:E; [discriminate|].
  intro Hf. destruct v'; cbn [app field]; try rewrite E; auto.
Qed.

Lemma prop_field (k : string) (v row : jsval) :
  prop k row = v -> v <> JUndef -> field k (own_fields row) = Some v.
Proof.
  destruct row as [| |b|n|s|l|fs]; cbn [prop own_fields]; try congruence.
  destruct (field k fs); congruence.
Qed.

Ltac look_up :=
  repeat first [ rewrite field_set_same | rewrite field_set_other by reflexivity ].

(** The date shown follows the updated flag of the record that the
    view is given. *)
Lemma view_dates (post : jsval) :
  let shown v := (prop "display_date" v, prop "date_type" v) in
  let expected := if truthy (prop "is_updated" post)
                  then (prop "updated_at" post, JStr "updated")
                  else (prop "created_at" post, JStr "created") in
  shown (list_view post) = expected /\
  shown (simple_view post) = expected /\
  shown (full_view post) = expected.
Proof.
  cbv zeta. unfold list_view, simple_view, full_view, spread, display_date, date_type.
  cbn [fold_left fst snd prop].
  destruct (truthy (prop "is_updated" post)); look_up; auto.
Qed.

Lemma list_view_omits (r : jsval) :
  prop "encrypted_content" (to_json (list_view r)) = JUndef.
Proof.
  unfold list_view, spread. cbn [fold_left fst snd].
  rewrite to_json_obj. cbn [prop]. rewrite json_field_undefined. reflexivity.
Qed.

Lemma json_page (items : list jsval) (a b : jsnum) (c : Z) (d : jsnum) (e f : bool) :
  json (page_of items (pagination a b c d e f))
  = {| status := 200;
       payload := JObj [ ("data", JArr (map to_json items));
                         ("pagination", to_json (pagination a b c d e f)) ] |}.
Proof. reflexivity. Qed.

(** Every record of a list answer lacks [encrypted_content]. *)
Lemma get_notes_omits (w : World) (req : Request) (items : list jsval) (pg : jsval) :
  result (run memory (get_notes req) w)
  = Resolved {| status := 200;
                payload := JObj [ ("data", JArr items); ("pagination", pg) ] |} ->
  forall i, In i items -> prop "encrypted_content" i = JUndef.
Proof.
  intros E i Hi.
  destruct (table "posts" (tables (db w))) as [t|] eqn:Ht.
  - destruct (relationships (db w)) eqn:Hrel.
    + destruct (get_notes_related w req t Ht Hrel) as [(msg & E')|(xs & tc & E' & _ & Hxs)];
        rewrite E' in E; [discriminate E|].
      rewrite json_page in E. injection E as <- _.
      apply in_map_iff in Hi as (x & <- & Hx). destruct (Hxs x Hx) as [r ->].
      apply list_view_omits.
    + destruct (get_notes_unrelated w req t Ht Hrel) as [rq E'].
      rewrite E' in E. cbn [result] in E. rewrite json_page in E. injection E as <- _.
      apply in_map_iff in Hi as (x & <- & Hx).
      apply in_map_iff in Hx as (r & <- & _). apply simple_view_labels.
  - rewrite (get_notes_table_absent memory req w w (reply_error (table_missing "posts"))
               (table_missing "posts") (memory_missing w probe_query Ht) eq_refl eq_refl) in E.
    cbn [result] in E. rewrite json_page in E. injection E as <- _. destruct Hi.
Qed.

(** The row that a query with [.single()] returned. *)
Lemma single_row (s : Store) (t : Table) (q : Query) (c : Columns) :
  q_single q = true -> q_range q = None -> q_limit q = None -> q_order q = None ->
  error (exec_select s t q c false) = None ->
  exists r, filter (matches s (q_filters q)) (t_rows t) = [r] /\
            data (exec_select s t q c false) = shaped s c r.
Proof.
  intros Hs Hr Hl Ho. unfold exec_select.
  destruct (andb (embeds c) (negb (relationships s))); [discriminate|].
  rewrite Hr, Hl, Ho. cbn [ordered ranged limited]. unfold finish. rewrite Hs.
  destruct (filter (matches s (q_filters q)) (t_rows t)) as [|r [|r' rest]]; cbn [map];
    try discriminate.
  intros _. exists r. auto.
Qed.

Lemma shaped_embeds_truthy (s : Store) (c : Columns) (r : jsval) :
  with_post_labels c = true -> truthy (shaped s c r) = true.
Proof. intro H. unfold shaped. rewrite H. reflexivity. Qed.

Lemma memory_select_run {A : Type} (w : World) (q : Query) (k : settled DbReply -> Prog A)
      (c : Columns) (h : bool) :
  q_verb q = Select c h ->
  result (run memory (Db q k) w)
  = match table (q_table q) (tables (db w)) with
    | Some t => result (run memory (k (Resolved (exec_select (db w) t q c h))) w)
    | None => result (run memory (k (Resolved (reply_error (table_missing (q_table q))))) w)
    end.
Proof.
  intro Hv. destruct (table (q_table q) (tables (db w))) as [t|] eqn:Ht.
  - rewrite (run_db memory q k w w _ (memory_select w q t c h Ht Hv)). reflexivity.
  - rewrite (run_db memory q k w w _ (memory_missing w q Ht)). reflexivity.
Qed.

Lemma full_view_keeps_encrypted (s : Store) (r : jsval) (c : string) :
  prop "encrypted_content" r = JStr c ->
  prop "encrypted_content" (to_json (full_view (shaped s star_joined r))) = JStr c.
Proof.
  intro Hc. pose proof (prop_field "encrypted_content" (JStr c) r Hc) as Hf.
  unfold full_view, shaped, spread.
  cbn [named with_category with_post_labels star_joined fold_left fst snd own_fields].
  rewrite to_json_obj. cbn [prop].
  rewrite (json_field_some "encrypted_content" (JStr c)); [reflexivity| |discriminate].
  look_up. apply Hf. discriminate.
Qed.

Lemma pick_absent (k : string) (cols : list string) (r : jsval) :
  existsb (String.eqb k) cols = false -> field k (own_fields (pick cols r)) = None.
Proof.
  unfold pick. cbn [own_fields].
  induction cols as [|c cols IH]; cbn [existsb map field]; [reflexivity|].
  intro H. apply orb_false_iff in H as [H1 H2]. rewrite H1. auto.
Qed.

Lemma pick_present (k : string) (cols : list string) (r : jsval) :
  existsb (String.eqb k) cols = true ->
  exists v, v <> JUndef /\ field k (own_fields (pick cols r)) = Some v.
Proof.
  unfold pick. cbn [own_fields].
  induction cols as [|c cols IH]; cbn [existsb map field]; [discriminate|].
  destruct (k =? c)%string eqn:E; [|exact IH].
  intros _. eexists. split; [|reflexivity]. destruct (prop c r); discriminate.
Qed.

(** The record that the public query returns has no [is_updated] and
    no [encrypted_content] column. *)
Lemma public_row_shape (s : Store) (r : jsval) :
  let post := shaped s public_columns r in
  prop "is_updated" post = JUndef /\
  field "encrypted_content" (own_fields post) = None /\
  exists v, v <> JUndef /\ field "created_at" (own_fields post) = Some v.
Proof.
  cbv zeta. unfold shaped, spread.
  cbn [named with_category with_post_labels public_columns fold_left fst snd prop].
  cbn [own_fields]. look_up.
  fold (own_fields (pick ["id"; "title"; "content"; "is_encrypted"; "created_at"; "updated_at"] r)).
  rewrite !pick_absent by reflexivity.
  split; [reflexivity|]. split; [reflexivity|].
  apply pick_present. reflexivity.
Qed.

Lemma full_view_of_unflagged (post v : jsval) :
  prop "is_updated" post = JUndef ->
  field "encrypted_content" (own_fields post) = None ->
  v <> JUndef -> field "created_at" (own_fields post) = Some v ->
  let p := to_json (full_view post) in
  prop "encrypted_content" p = JUndef /\
  prop "display_date" p = prop "created_at" p /\
  prop "date_type" p = JStr "created".
Proof.
  intros Hflag Henc Hv Hcreated. cbv zeta.
  assert (Hc : prop "created_at" post = v).
  { destruct post; cbn [own_fields field] in Hcreated; try discriminate.
    cbn [prop]. rewrite Hcreated. reflexivity. }
  unfold full_view, spread, display_date, date_type. rewrite Hflag, Hc.
  cbn [truthy fold_left fst snd]. rewrite to_json_obj. cbn [prop].
  split; [|split].
  - rewrite json_field_none; [reflexivity|]. look_up. exact Henc.
  - rewrite (json_field_some "display_date" v); [| |exact Hv].
    + rewrite (json_field_some "created_at" v); [reflexivity| |exact Hv].
      look_up. exact Hcreated.
    + look_up. reflexivity.
  - rewrite (json_field_some "date_type" (JStr "created")); [reflexivity| |discriminate].
    look_up. reflexivity.
Qed.

Lemma public_view_shape (s : Store) (r : jsval) :
  let p := to_json (full_view (shaped s public_columns r)) in
  prop "encrypted_content" p = JUndef /\
  prop "display_date" p = prop "created_at" p /\
  prop "date_type" p = JStr "created".
Proof.
  destruct (public_row_shape s r) as (Hflag & Henc & v & Hv & Hcreated).
  exact (full_view_of_unflagged _ v Hflag Henc Hv Hcreated).
Qed.

(** The single-note view carries the encrypted content of the row. *)
Lemma get_note_includes (w : World) (req : Request) (p : jsval) :
  result (run memory (get_note req) w) = Resolved {| status := 200; payload := p |} ->
  exists note,
    In note (rows_of (db w) "posts") /\
    sql_eq (prop "id" note) (lookup "id" (req_params req)) = true /\
    sql_eq (prop "user_id" note) (prop "id" (req_user req)) = true /\
    forall c, prop "encrypted_content" note = JStr c -> prop "encrypted_content" p = JStr c.
Proof.
  unfold get_note, await_db. cbn [bind try_catch].
  match goal with
  | |- context [run memory (Db ?q ?k) w] =>
      rewrite (memory_select_run w q k star_joined false eq_refl)
  end.
  cbn [q_table from eq_ single].
  destruct (table "posts" (tables (db w))) as [t|] eqn:Ht; cbn [settle bind try_catch];
    [|cbn [error reply_error run result]; discriminate].
  match goal with
  | |- context [exec_select (db w) t ?q star_joined false] =>
      destruct (error (exec_select (db w) t q star_joined false)) as [e|] eqn:He;
      [cbn [try_catch run result]; discriminate|];
      destruct (single_row (db w) t q star_joined eq_refl eq_refl eq_refl eq_refl He)
        as (r & Hr & Hd)
  end.
  rewrite Hd, (shaped_embeds_truthy (db w) star_joined r eq_refl).
  cbn [negb try_catch run result]. unfold json, status_json.
  intro E. apply (f_equal body_of) in E. cbn [body_of payload] in E. subst p.
  cbn [q_filters from eq_ single app] in Hr.
  assert (Hin : In r (filter (matches (db w)
                                [FEq "id" (lookup "id" (req_params req));
                                 FEq "user_id" (prop "id" (req_user req))]) (t_rows t)))
    by (rewrite Hr; left; reflexivity).
  apply filter_In in Hin as [Hin Hm]. unfold matches in Hm. cbn [forallb holds] in Hm.
  apply andb_prop in Hm as [Hid Hm]. apply andb_prop in Hm as [Hown _].
  exists r. split; [unfold rows_of; rewrite Ht; exact Hin|]. split; [exact Hid|].
  split; [exact Hown|].
  intros c Hc. exact (full_view_keeps_encrypted (db w) r c Hc).
Qed.

(** The public view never carries [encrypted_content], and always
    shows the creation date. *)
Lemma get_public_omits (w : World) (req : Request) (p : jsval) :
  result (run memory (get_public req) w) = Resolved {| status := 200; payload := p |} ->
  prop "encrypted_content" p = JUndef /\
  prop "display_date" p = prop "created_at" p /\
  prop "date_type" p = JStr "created".
Proof.
  unfold get_public, await_db. cbn [bind try_catch].
  match goal with
  | |- context [run memory (Db ?q ?k) w] =>
      rewrite (memory_select_run w q k public_columns false eq_refl)
  end.
  cbn [q_table from eq_ single].
  destruct (table "posts" (tables (db w))) as [t|] eqn:Ht; cbn [settle bind try_catch];
    [|cbn [error reply_error run result]; discriminate].
  match goal with
  | |- context [exec_select (db w) t ?q public_columns false] =>
      destruct (error (exec_select (db w) t q public_columns false)) as [e|] eqn:He;
      [cbn [try_catch run result]; discriminate|];
      destruct (single_row (db w) t q public_columns eq_refl eq_refl eq_refl eq_refl He)
        as (r & Hr & Hd)
  end.
  rewrite Hd, (shaped_embeds_truthy (db w) public_columns r eq_refl).
  cbn [negb try_catch run result]. unfold json, status_json.
  intro E. apply (f_equal body_of) in E. cbn [body_of payload] in E. subst p.
  exact (public_view_shape (db w) r).
Qed.

(** C6.  The sample note 1 has been updated (created at 10, updated at
    20).  The single-note view and the list view show
    [display_date = updated_at] and [date_type = "updated"]; the
    public view of the same note shows the creation date and
    ["created"], because its column list leaves [is_updated] out. *)
Theorem C6_public_view_of_an_updated_note_shows_created :
  let note := Sample.note 1 "u1" true true 10 20 (JStr "aa11") in
  let shown v := (prop "display_date" v, prop "date_type" v) in
  In note (rows_of (db Sample.world) "posts") /\
  prop "is_updated" note = JBool true /\
  shown (body_of (result (run memory (get_note (Sample.request [("id", "1")] [] JNull))
                               Sample.world)))
  = (jint 20, JStr "updated") /\
  map shown (match prop "data"
                     (body_of (result (run memory (get_notes (Sample.request [] [] JNull))
                                           Sample.world)))
             with JArr items => items | _ => [] end)
  = [(jint 12, JStr "created"); (jint 20, JStr "updated")] /\
  status_of (result (run memory (get_public (Sample.request [("token", "aa11")] [] JNull))
                         Sample.world)) = Some 200 /\
  shown (body_of (result (run memory (get_public (Sample.request [("token", "aa11")] [] JNull))
                               Sample.world)))
  = (jint 10, JStr "created").
Proof. cbv zeta. split; [left; reflexivity|]. repeat split. Qed.

(** C7, as corrected.  No record of a [GET /api/notes] answer carries
    [encrypted_content]; the answer of [GET /api/notes/:id] carries
    the encrypted content of the caller's note as stored; the answer
    of [GET /api/public/:token] never carries [encrypted_content]. *)
Theorem C7_encrypted_content_in_the_views :
  forall (w : World) (req : Request),
    (forall items pg,
        result (run memory (get_notes req) w)
        = Resolved {| status := 200;
                      payload := JObj [ ("data", JArr items); ("pagination", pg) ] |} ->
        forall i, In i items -> prop "encrypted_content" i = JUndef) /\
    (forall p,
        result (run memory (get_note req) w) = Resolved {| status := 200; payload := p |} ->
        exists note,
          In note (rows_of (db w) "posts") /\
          sql_eq (prop "id" note) (lookup "id" (req_params req)) = true /\
          sql_eq (prop "user_id" note) (prop "id" (req_user req)) = true /\
          forall c, prop "encrypted_content" note = JStr c ->
                    prop "encrypted_content" p = JStr c) /\
    (forall p,
        result (run memory (get_public req) w) = Resolved {| status := 200; payload := p |} ->
        prop "encrypted_content" p = JUndef).
Proof.
  intros w req. split; [|split].
  - intros items pg E. exact (get_notes_omits w req items pg E).
  - intros p E. exact (get_note_includes w req p E).
  - intros p E. exact (proj1 (get_public_omits w req p E)).
Qed.

(** The public view of the encrypted sample note. *)
Lemma C7_public_view_witness :
  prop "encrypted_content"
       (body_of (result (run memory (get_public (Sample.request [("token", "aa11")] [] JNull))
                             Sample.world))) = JUndef.
Proof.
  apply (proj2 (proj2 (C7_encrypted_content_in_the_views Sample.world
                         (Sample.request [("token", "aa11")] [] JNull)))).
  reflexivity.
Defined.

(** C7 as stated fails for the public view: the shared note 1 is
    encrypted and holds its encrypted content, and the answer of
    [GET /api/public/aa11] says [is_encrypted] with a null [content]
    and no [encrypted_content]. *)
Lemma C7_public_view_drops_encrypted_content :
  let note := Sample.note 1 "u1" true true 10 20 (JStr "aa11") in
  let answer := result (run memory (get_public (Sample.request [("token", "aa11")] [] JNull))
                            Sample.world) in
  In note (rows_of (db Sample.world) "posts") /\
  prop "encrypted_content" note = JStr "c2VjcmV0" /\
  status_of answer = Some 200 /\
  prop "is_encrypted" (body_of answer) = JBool true /\
  prop "content" (body_of answer) = JNull /\
  prop "encrypted_content" (body_of answer) = JUndef.
Proof. cbv zeta. split; [left; reflexivity|]. repeat split. Qed.

(* ================================================================== *)
(** * Further properties of the middleware and of the token helpers *)

Section MiddlewareOutcomes.

Variable jwt_verify : jsval -> string -> list string -> string -> settled jsval.
Variable secret : string.
Context {W : Type} (H : Handler W).

Lemma after_authority_shape (req : Request) (r : settled AuthReply) :
  (exists user, after_authority req r = Next (with_user req user) /\ truthy user = true) \/
  after_authority req r = Respond (status_json 401 (error_body "Invalid or expired token")) \/
  after_authority req r = Respond (status_json 500 (error_body "Internal server error")).
Proof.
  destruct r as [reply|e]; cbn [after_authority]; [|auto].
  destruct (auth_error reply); [auto|].
  destruct (truthy (auth_user reply)) eqn:E; [|auto].
  left. exists (auth_user reply). auto.
Qed.

(** The optional middleware, when the token passes local
    verification. *)
Lemma optionalAuth_fast_path (req : Request) (w : W) :
  truthy (accessToken req) = true ->
  locally_verified jwt_verify secret (accessToken req) = true ->
  result (run H (optionalAuth jwt_verify secret req) w) =
    Resolved (Next (with_user req
                      (user_of_jwt (v_user (verifySupabaseToken jwt_verify secret
                                                                (accessToken req))))))
  /\ filter is_getUser (trace (run H (optionalAuth jwt_verify secret req) w)) = [].
Proof.
  intros Htok Hok. unfold locally_verified in Hok.
  unfold optionalAuth. rewrite run_try_catch, Htok.
  rewrite Hok, !run_bind.
  destruct (ensureUserExists_swallows H
              (user_of_jwt (v_user (verifySupabaseToken jwt_verify secret (accessToken req)))) w)
    as [Hres Htr].
  unfold or_else, and_then. rewrite Hres.
  cbn [result final trace run]. rewrite !app_nil_r. auto.
Qed.

Lemma optionalAuth_fallback (req : Request) (w : W) :
  truthy (accessToken req) = true ->
  locally_verified jwt_verify secret (accessToken req) = false ->
  filter is_getUser (trace (run H (optionalAuth jwt_verify secret req) w)) = [EvGetUser (accessToken req)] /\
  result (run H (optionalAuth jwt_verify secret req) w) =
    Resolved (forwarded req (after_authority req (fst (on_getUser H w (accessToken req))))).
Proof.
  intros Htok Hok. unfold locally_verified in Hok.
  unfold optionalAuth. rewrite run_try_catch, Htok.
  rewrite Hok. unfold await_getUser, after_authority. cbn [bind run].
  destruct (on_getUser H w (accessToken req)) as [[reply|e] w1]; cbn [fst settle bind].
  - destruct (auth_error reply); [cbn; auto|].
    destruct (truthy (auth_user reply)); [|cbn; auto].
    rewrite !run_bind.
    destruct (ensureUserExists_swallows H (auth_user reply) w1) as [Hres Htr].
    unfold or_else, and_then, logged. rewrite Hres.
    cbn [result final trace run app filter is_getUser forwarded].
    rewrite !app_nil_r, Htr. auto.
  - cbn. auto.
Qed.

Lemma middlewares_end_alike (req : Request) (w : W) :
  final (run H (optionalAuth jwt_verify secret req) w)
  = final (run H (authenticateUser jwt_verify secret req) w).
Proof.
  unfold optionalAuth, authenticateUser. rewrite !run_try_catch.
  destruct (truthy (accessToken req)); cbn [negb]; [|reflexivity].
  destruct (truthy (v_user (verifySupabaseToken jwt_verify secret (accessToken req))) &&
            negb (truthy (v_error (verifySupabaseToken jwt_verify secret (accessToken req))))).
  - rewrite !run_bind.
    destruct (ensureUserExists_swallows H
                (user_of_jwt (v_user (verifySupabaseToken jwt_verify secret (accessToken req)))) w)
      as [Hres _].
    unfold or_else, and_then. rewrite Hres. reflexivity.
  - unfold await_getUser. cbn [bind run].
    destruct (on_getUser H w (accessToken req)) as [[reply|e] w1]; cbn [fst settle bind].
    + destruct (auth_error reply); [reflexivity|].
      destruct (truthy (auth_user reply)); cbn [negb]; [|reflexivity].
      rewrite !run_bind.
      destruct (ensureUserExists_swallows H (auth_user reply) w1) as [Hres _].
      unfold or_else, and_then, logged. rewrite Hres. reflexivity.
    + reflexivity.
Qed.

End MiddlewareOutcomes.

(** X1.  The mandatory middleware always answers, and it hands a
    request on only with an identity attached: the outcome is the
    request with a truthy [req.user] (and then the request carried a
    credential), a 401, or the 500 of its own [catch]; it never throws
    and never hands on the request as it came. *)
Theorem authenticateUser_forwards_only_with_an_identity :
  forall (jwt_verify : jsval -> string -> list string -> string -> settled jsval)
         (secret : string) (W : Type) (H : Handler W) (w : W) (req : Request),
    let out := result (run H (authenticateUser jwt_verify secret req) w) in
    (exists user, out = Resolved (Next (with_user req user)) /\
                  truthy user = true /\ truthy (accessToken req) = true) \/
    (exists msg, out = Resolved (Respond (status_json 401 (error_body msg)))) \/
    out = Resolved (Respond (status_json 500 (error_body "Internal server error"))).
Proof.
  intros jwt_verify secret W H w req out. subst out.
  destruct (truthy (accessToken req)) eqn:Htok.
  - destruct (locally_verified jwt_verify secret (accessToken req)) eqn:Hok.
    + destruct (authenticateUser_fast_path jwt_verify secret H req w Htok Hok) as [E _].
      left. eexists. split; [exact E|]. split; reflexivity.
    + destruct (authenticateUser_fallback jwt_verify secret H req w Htok Hok) as [_ E].
      rewrite E.
      destruct (after_authority_shape req (fst (on_getUser H w (accessToken req))))
        as [[user [E1 T]]|[E1|E1]]; rewrite E1.
      * left. exists user. auto.
      * right. left. eexists. reflexivity.
      * right. right. reflexivity.
  - rewrite (authenticateUser_no_token jwt_verify secret H req w Htok).
    right. left. eexists. reflexivity.
Qed.

(** X2.  The optional middleware never answers and never throws: it
    hands on exactly the request that the mandatory middleware would
    hand on, and the request as it came wherever the mandatory one
    answers 401 or 500.  Both leave the same state behind and ask the
    authority at most once. *)
Theorem optionalAuth_forwards_what_authenticateUser_would :
  forall (jwt_verify : jsval -> string -> list string -> string -> settled jsval)
         (secret : string) (W : Type) (H : Handler W) (w : W) (req : Request),
    let strict := run H (authenticateUser jwt_verify secret req) w in
    let lenient := run H (optionalAuth jwt_verify secret req) w in
    (exists flow, result strict = Resolved flow /\
                  result lenient = Resolved (forwarded req flow)) /\
    final lenient = final strict /\
    filter is_getUser (trace lenient) = filter is_getUser (trace strict) /\
    (authority_calls (trace lenient) <= 1)%nat.
Proof.
  intros jwt_verify secret W H w req strict lenient. subst strict lenient.
  split; [|split; [apply middlewares_end_alike|]].
  - destruct (truthy (accessToken req)) eqn:Htok.
    + destruct (locally_verified jwt_verify secret (accessToken req)) eqn:Hok.
      * destruct (authenticateUser_fast_path jwt_verify secret H req w Htok Hok) as [E _].
        destruct (optionalAuth_fast_path jwt_verify secret H req w Htok Hok) as [E' _].
        eexists. split; [exact E|exact E'].
      * destruct (authenticateUser_fallback jwt_verify secret H req w Htok Hok) as [_ E].
        destruct (optionalAuth_fallback jwt_verify secret H req w Htok Hok) as [_ E'].
        eexists. split; [exact E|exact E'].
    + rewrite (authenticateUser_no_token jwt_verify secret H req w Htok).
      rewrite (optionalAuth_no_token jwt_verify secret H req w Htok).
      eexists. split; reflexivity.
  - unfold authority_calls.
    destruct (truthy (accessToken req)) eqn:Htok.
    + destruct (locally_verified jwt_verify secret (accessToken req)) eqn:Hok.
      * destruct (authenticateUser_fast_path jwt_verify secret H req w Htok Hok) as [_ E].
        destruct (optionalAuth_fast_path jwt_verify secret H req w Htok Hok) as [_ E'].
        rewrite E, E'. cbn [length]. split; [reflexivity|lia].
      * destruct (authenticateUser_fallback jwt_verify secret H req w Htok Hok) as [E _].
        destruct (optionalAuth_fallback jwt_verify secret H req w Htok Hok) as [E' _].
        rewrite E, E'. cbn [length]. split; [reflexivity|lia].
    + rewrite (authenticateUser_no_token jwt_verify secret H req w Htok).
      rewrite (optionalAuth_no_token jwt_verify secret H req w Htok).
      cbn [trace filter length]. split; [reflexivity|lia].
Qed.

(** ** Provisioning, query by query *)

Lemma user_record_fields (id email name verified created_at : jsval) :
  obj [ ("id", id); ("email", email); ("name", name);
        ("email_verified", verified); ("created_at", created_at) ]
  = JObj [ ("id", id); ("email", email); ("name", name);
           ("email_verified", verified); ("created_at", created_at) ].
Proof. reflexivity. Qed.

(** X3.  [ensureUserExists] never throws, looks the record up once,
    and writes at most once: an insert is issued only after the lookup
    was answered with the error code PGRST116, and the record it
    inserts carries the id and the email of the identity, the derived
    name, the verification flag, and the creation time of the identity
    or else the current time.  In every other case the lookup is the
    only query. *)
Theorem ensureUserExists_inserts_only_after_PGRST116 :
  forall (W : Type) (H : Handler W) (w : W) (u : jsval),
    let lookup_q := select_user_by_id (prop "id" u) in
    let out := run H (ensureUserExists u) w in
    result out = Resolved tt /\
    ((filter is_db (trace out) = [EvDb lookup_q] /\ final out = snd (on_db H w lookup_q)) \/
     (exists fetched e row,
        fst (on_db H w lookup_q) = Resolved fetched /\
        error fetched = Some e /\ code e = "PGRST116" /\
        filter is_db (trace out) = [EvDb lookup_q; EvDb (insert_user row)] /\
        prop "id" row = prop "id" u /\
        prop "email" row = prop "email" u /\
        derived_name u = Resolved (prop "name" row) /\
        prop "email_verified" row = JBool (truthy (prop "email_confirmed_at" u)) /\
        prop "created_at" row
        = if truthy (prop "created_at" u) then prop "created_at" u
          else jint (on_date H (snd (on_db H w lookup_q))))).
Proof.
  intros W H w u lookup_q out. subst lookup_q out.
  split; [apply ensureUserExists_swallows|].
  unfold ensureUserExists, await_db, new_Date, console.
  cbn [bind try_catch run settle].
  destruct (on_db H w (select_user_by_id (prop "id" u))) as [[r|e] w1] eqn:Hq;
    cbn [fst snd settle bind try_catch run]; [|left; cbn; auto].
  destruct (error r) as [fe|] eqn:He; cbn [settle bind try_catch run]; [|left; cbn; auto].
  destruct (code fe =? "PGRST116")%string eqn:Hc; [|left; cbn; auto].
  apply String.eqb_eq in Hc.
  destruct (derived_name u) as [n|e] eqn:Hn; cbn [settle bind try_catch run]; [|left; cbn; auto].
  right. exists r, fe.
  destruct (truthy (prop "created_at" u)) eqn:Hcr; cbn [settle bind try_catch run].
  - eexists. split; [reflexivity|]. split; [exact He|]. split; [exact Hc|].
    split.
    + match goal with
      | |- context [on_db H w1 ?q] =>
          destruct (on_db H w1 q) as [[r2|e2] w2]; cbn [settle bind try_catch run]; [|reflexivity]
      end.
      destruct (error r2); reflexivity.
    + rewrite user_record_fields. repeat split.
  - eexists. split; [reflexivity|]. split; [exact He|]. split; [exact Hc|].
    split.
    + match goal with
      | |- context [on_db H w1 ?q] =>
          destruct (on_db H w1 q) as [[r2|e2] w2]; cbn [settle bind try_catch run]; [|reflexivity]
      end.
      destruct (error r2); reflexivity.
    + rewrite user_record_fields. repeat split.
Qed.

(** ** The credential and the derived name *)

Lemma replace_absent (pat rep s : string) :
  includes pat s = false -> replace pat rep s = s.
Proof.
  induction s as [|c s IH]; cbn [includes replace].
  - destruct (prefix pat EmptyString); [discriminate|reflexivity].
  - destruct (prefix pat (String c s)); [discriminate|].
    intro Hs. rewrite (IH Hs). reflexivity.
Qed.

Lemma replace_unfold (pat rep s : string) :
  replace pat rep s
  = if prefix pat s then rep ++ drop (String.length pat) s
    else match s with
         | EmptyString => EmptyString
         | String c rest => String c (replace pat rep rest)
         end.
Proof. destruct s; reflexivity. Qed.

Lemma prefix_append (p t : string) : prefix p (p ++ t) = true.
Proof.
  induction p as [|c p IH]; cbn [String.append prefix].
  - destruct t; reflexivity.
  - destruct (ascii_dec c c); [exact IH|contradiction].
Qed.

Lemma drop_append (p t : string) : drop (String.length p) (p ++ t) = t.
Proof. induction p as [|c p IH]; [reflexivity|exact IH]. Qed.

(** The first occurrence is the one replaced. *)
Lemma replace_prefix (pat rep t : string) : replace pat rep (pat ++ t) = rep ++ t.
Proof. rewrite replace_unfold, prefix_append, drop_append. reflexivity. Qed.

Lemma split_head (sep : ascii) (s : string) : exists w ws, split sep s = w :: ws.
Proof.
  induction s as [|c s [w [ws IH]]]; cbn [split]; [eauto|].
  destruct (Ascii.eqb c sep); [eauto|]. rewrite IH. eauto.
Qed.

Lemma split_first (sep : ascii) (a b : string) :
  includes (String sep EmptyString) a = false ->
  exists ws, split sep (a ++ String sep b) = a :: ws.
Proof.
  induction a as [|c a IH]; cbn [includes prefix String.append split].
  - intros _. rewrite Ascii.eqb_refl. eauto.
  - destruct (ascii_dec sep c) as [->|Hne].
    + destruct a; discriminate.
    + intro Ha. destruct (IH Ha) as [ws Hws]. rewrite Hws.
      destruct (Ascii.eqb_spec c sep) as [->|_]; [contradiction|]. eauto.
Qed.

(** X4.  For an identity without a [full_name] and a [name] in its
    metadata, the name given to the local record is the part of the
    e-mail address before the first [@]. *)
Theorem derived_name_is_the_local_part_of_the_email :
  forall (u : jsval) (local domain : string),
    truthy (opt_prop "full_name" (prop "user_metadata" u)) = false ->
    truthy (opt_prop "name" (prop "user_metadata" u)) = false ->
    includes "@" local = false ->
    prop "email" u = JStr (local ++ "@" ++ domain) ->
    derived_name u = Resolved (JStr local).
Proof.
  intros u local domain Hf Hn Hl He. unfold derived_name. rewrite Hf, Hn, He.
  destruct (split_first "@"%char local domain Hl) as [ws Hws].
  cbn [String.append]. rewrite Hws. reflexivity.
Qed.

Lemma derived_name_is_the_local_part_witness :
  derived_name Sample.ann = Resolved (JStr "ann").
Proof.
  apply (derived_name_is_the_local_part_of_the_email Sample.ann "ann" "example.com");
    reflexivity.
Defined.

(** X5.  The credential of a request: a non-empty session cookie wins
    over the header; without one, a header [Bearer t] gives [t], and a
    header in which the text [Bearer ] does not occur is taken whole. *)
Theorem accessToken_prefers_the_cookie_and_strips_Bearer :
  forall (req : Request),
    (forall c, lookup "sb-access-token" (req_cookies req) = JStr c -> c <> EmptyString ->
               accessToken req = JStr c) /\
    (truthy (lookup "sb-access-token" (req_cookies req)) = false ->
     (forall t, req_authorization req = Some ("Bearer " ++ t) -> accessToken req = JStr t) /\
     (forall h, req_authorization req = Some h -> includes "Bearer " h = false ->
                accessToken req = JStr h) /\
     (req_authorization req = None -> accessToken req = JUndef)).
Proof.
  intro req. unfold accessToken, js_or. split.
  - intros c Hc Hne. rewrite Hc. cbn [truthy].
    destruct (String.eqb_spec c EmptyString); [contradiction|reflexivity].
  - intro Hf. rewrite Hf. repeat split.
    + intros t Ht. rewrite Ht, replace_prefix. reflexivity.
    + intros h Hh Hn. rewrite Hh, (replace_absent "Bearer " EmptyString h Hn). reflexivity.
    + intro Hn. rewrite Hn. reflexivity.
Qed.

Lemma accessToken_prefers_the_cookie_witness :
  accessToken {| req_cookies := [("sb-access-token", "c1")];
                 req_authorization := Some "Bearer h1"; req_params := []; req_query := [];
                 req_body := JNull; req_user := JUndef |} = JStr "c1" /\
  accessToken (Sample.bearer "Bearer h1") = JStr "h1" /\
  accessToken (Sample.bearer "h1") = JStr "h1".
Proof.
  split; [|split].
  - apply (proj1 (accessToken_prefers_the_cookie_and_strips_Bearer _) "c1");
      [reflexivity|discriminate].
  - apply (proj1 (proj2 (accessToken_prefers_the_cookie_and_strips_Bearer
                           (Sample.bearer "Bearer h1")) eq_refl) "h1"). reflexivity.
  - apply (proj1 (proj2 (proj2 (accessToken_prefers_the_cookie_and_strips_Bearer
                                  (Sample.bearer "h1")) eq_refl)) "h1"); reflexivity.
Defined.

(** X6.  [getUserIdFromToken] agrees with the fast path of the
    middleware: for a token that passes local verification it is the
    [id] of the identity that [authenticateUser] attaches to the
    request, without a call to the authority; for every other token
    it is [null]. *)
Theorem getUserIdFromToken_is_the_fast_path_identity :
  forall (jwt_verify : jsval -> string -> list string -> string -> settled jsval)
         (secret : string) (W : Type) (H : Handler W) (w : W) (req : Request),
    truthy (accessToken req) = true ->
    if locally_verified jwt_verify secret (accessToken req) then
      exists r,
        result (run H (authenticateUser jwt_verify secret req) w) = Resolved (Next r) /\
        prop "id" (req_user r) = getUserIdFromToken jwt_verify secret (accessToken req) /\
        authority_calls (trace (run H (authenticateUser jwt_verify secret req) w)) = 0%nat
    else getUserIdFromToken jwt_verify secret (accessToken req) = JNull.
Proof.
  intros jwt_verify secret W H w req Htok.
  destruct (locally_verified jwt_verify secret (accessToken req)) eqn:Hok.
  - destruct (authenticateUser_fast_path jwt_verify secret H req w Htok Hok) as [E T].
    eexists. split; [exact E|]. split.
    + unfold getUserIdFromToken. unfold locally_verified in Hok.
      apply andb_prop in Hok as [Hu He]. apply negb_true_iff in He.
      rewrite He, Hu. reflexivity.
    + unfold authority_calls. rewrite T. reflexivity.
  - unfold getUserIdFromToken. unfold locally_verified in Hok.
    destruct (truthy (v_error _)); [reflexivity|].
    destruct (truthy (v_user _)); [discriminate|reflexivity].
Qed.

Lemma getUserIdFromToken_witness :
  exists r,
    result (run memory (authenticateUser Sample.verify "secret" (Sample.bearer "Bearer good"))
                Sample.world) = Resolved (Next r) /\
    prop "id" (req_user r) = getUserIdFromToken Sample.verify "secret" (JStr "good") /\
    authority_calls
      (trace (run memory (authenticateUser Sample.verify "secret" (Sample.bearer "Bearer good"))
                  Sample.world)) = 0%nat.
Proof.
  exact (getUserIdFromToken_is_the_fast_path_identity Sample.verify "secret" World memory
           Sample.world (Sample.bearer "Bearer good") eq_refl).
Defined.

(** ** The record of a new identity *)

Lemma no_record_no_id (uid : string) (rows : list jsval) :
  forallb has_string_id rows = true ->
  filter (fun r => sql_eq (prop "id" r) (JStr uid)) rows = [] ->
  has_id rows (JStr uid) = false.
Proof.
  intros Hs Hnone. destruct (has_id rows (JStr uid)) eqn:E; [|reflexivity].
  pose proof (has_id_true uid rows Hs E) as Hlen. rewrite Hnone in Hlen. cbn in Hlen. lia.
Qed.

Lemma derived_name_defined (u name : jsval) :
  derived_name u = Resolved name -> name <> JUndef.
Proof.
  unfold derived_name.
  destruct (truthy (opt_prop "full_name" (prop "user_metadata" u))) eqn:Hf.
  - intros [= <-] E. rewrite E in Hf. discriminate.
  - destruct (truthy (opt_prop "name" (prop "user_metadata" u))) eqn:Hn.
    + intros [= <-] E. rewrite E in Hn. discriminate.
    + destruct (prop "email" u) as [| |b|n|e|l|fs]; try discriminate.
      destruct (split_head "@"%char e) as [w [ws E]]. rewrite E.
      intros [= <-]. discriminate.
Qed.

(** The insert of a record, in a store that holds none of the
    identity. *)
Lemma memory_insert_user (uid : string) (w : World) (t : Table) (row : jsval) :
  table "users" (tables (db w)) = Some t ->
  forallb has_string_id (t_rows t) = true ->
  users_with_id (db w) (JStr uid) = [] ->
  field "id" (own_fields (to_json row)) = Some (JStr uid) ->
  let stored := JObj (with_defaults (t_defaults t (clock w)) row) in
  on_db memory w (insert_user row)
  = (Resolved (reply_ok JNull),
     with_db w (with_table (db w) "users"
                  (with_rows t (t_rows t ++ [stored]) (t_serial t)))).
Proof.
  intros Ht Hs Hnone Hfield stored. subst stored.
  cbn [memory on_db]. unfold exec, insert_user. cbn [q_table q_verb q_returning from]. rewrite Ht.
  cbn [insert_rows].
  rewrite (with_defaults_keeps "id" _ (t_defaults t (clock w)) row Hfield).
  assert (Hnum : forall (o : option Z) (fs : fields),
             match o, Some (JStr uid) with
             | Some n, None => (JObj (("id", jint n) :: fs), Some (n + 1))
             | _, _ => (JObj fs, o)
             end = (JObj fs, o)) by (intros [n|] fs; reflexivity).
  rewrite Hnum. cbn [fst snd].
  assert (Hnew : prop "id" (JObj (with_defaults (t_defaults t (clock w)) row)) = JStr uid).
  { cbn [prop]. rewrite (with_defaults_keeps "id" _ (t_defaults t (clock w)) row Hfield).
    reflexivity. }
  rewrite Hnew.
  assert (Hrows : rows_of (db w) "users" = t_rows t) by (unfold rows_of; rewrite Ht; reflexivity).
  unfold users_with_id in Hnone. rewrite Hrows in Hnone.
  rewrite (no_record_no_id uid (t_rows t) Hs Hnone), andb_false_r.
  reflexivity.
Qed.

(** X7.  For an identity that has no record yet, in a store whose
    [users] table has its primary key on a text [id],
    [ensureUserExists] appends exactly one record and leaves the
    others alone.  The record holds the id and the e-mail address of
    the identity, the derived name, whether the address is confirmed,
    and as creation time that of the identity or else the time of the
    call. *)
Theorem ensureUserExists_creates_the_record :
  forall (uid e : string) (u : jsval) (w : World),
    prop "id" u = JStr uid -> prop "email" u = JStr e ->
    users_ready uid w ->
    users_with_id (db w) (JStr uid) = [] ->
    let after := db (final (run memory (ensureUserExists u) w)) in
    exists row name,
      rows_of after "users" = (rows_of (db w) "users" ++ [row])%list /\
      users_with_id after (JStr uid) = [row] /\
      derived_name u = Resolved name /\
      prop "id" row = JStr uid /\
      prop "email" row = JStr e /\
      prop "name" row = to_json name /\
      prop "email_verified" row = JBool (truthy (prop "email_confirmed_at" u)) /\
      prop "created_at" row
      = if truthy (prop "created_at" u) then to_json (prop "created_at" u) else jint (clock w).
Proof.
  intros uid e u w Hid He (t & Ht & Hp & Hs & Hc) Hnone after. subst after.
  destruct (derived_name_resolves u e He) as [name Hname].
  pose proof (derived_name_defined u name Hname) as Hdef.
  set (created_at := if truthy (prop "created_at" u) then prop "created_at" u else jint (clock w)).
  set (row := obj [ ("id", prop "id" u); ("email", prop "email" u); ("name", name);
                    ("email_verified", JBool (truthy (prop "email_confirmed_at" u)));
                    ("created_at", created_at) ]).
  assert (Hcreated : created_at <> JUndef).
  { subst created_at. destruct (truthy (prop "created_at" u)) eqn:E; [|discriminate].
    intro E'. rewrite E' in E. discriminate. }
  assert (Hjson : forall k v, v <> JUndef ->
            field k [ ("id", prop "id" u); ("email", prop "email" u); ("name", name);
                      ("email_verified", JBool (truthy (prop "email_confirmed_at" u)));
                      ("created_at", created_at) ] = Some v ->
            field k (own_fields (to_json row)) = Some (to_json v)).
  { intros k v Hv Hk. subst row. rewrite user_record_fields, to_json_obj. cbn [own_fields].
    apply json_field_some; assumption. }
  assert (Hstored : forall k v, v <> JUndef ->
            field k [ ("id", prop "id" u); ("email", prop "email" u); ("name", name);
                      ("email_verified", JBool (truthy (prop "email_confirmed_at" u)));
                      ("created_at", created_at) ] = Some v ->
            prop k (JObj (with_defaults (t_defaults t (clock w)) row)) = to_json v).
  { intros k v Hv Hk. cbn [prop].
    rewrite (with_defaults_keeps k (to_json v) (t_defaults t (clock w)) row (Hjson k v Hv Hk)).
    reflexivity. }
  assert (Hfield : field "id" (own_fields (to_json row)) = Some (JStr uid)).
  { rewrite (Hjson "id" (JStr uid)); [reflexivity|discriminate|]. rewrite Hid. reflexivity. }
  assert (Hrun : db (final (run memory (ensureUserExists u) w))
                 = with_table (db w) "users"
                     (with_rows t (t_rows t ++ [JObj (with_defaults (t_defaults t (clock w)) row)])
                                (t_serial t))).
  { unfold ensureUserExists, await_db, new_Date, console.
    cbn [bind try_catch run memory on_db].
    rewrite (select_user_reply (db w) (clock w) (prop "id" u) t Ht), Hid, Hnone.
    cbn [map settle bind try_catch run error reply_error code not_single pg_error
         String.eqb Ascii.eqb Bool.eqb].
    rewrite Hname. cbn [settle bind try_catch run].
    rewrite with_db_same.
    subst row created_at. rewrite <- Hid.
    destruct (truthy (prop "created_at" u)); cbn [settle bind try_catch run on_date memory];
      rewrite (memory_insert_user uid w t _ Ht Hs Hnone Hfield); reflexivity. }
  exists (JObj (with_defaults (t_defaults t (clock w)) row)), name.
  rewrite Hrun.
  assert (Hrows : rows_of (db w) "users" = t_rows t) by (unfold rows_of; rewrite Ht; reflexivity).
  split; [rewrite Hrows; unfold rows_of, with_table; cbn [tables];
          rewrite table_set_table; reflexivity|].
  split.
  { rewrite users_of_with_table. cbn [t_rows with_rows].
    unfold users_with_id in Hnone. rewrite Hrows in Hnone.
    rewrite filter_app, Hnone. cbn [filter app].
    rewrite (Hstored "id" (JStr uid)); [|discriminate|rewrite Hid; reflexivity].
    cbn [to_json sql_eq text_of]. rewrite String.eqb_refl. reflexivity. }
  split; [exact Hname|].
  split; [rewrite (Hstored "id" (JStr uid)); [reflexivity|discriminate|rewrite Hid; reflexivity]|].
  split; [rewrite (Hstored "email" (JStr e)); [reflexivity|discriminate|rewrite He; reflexivity]|].
  split; [apply Hstored; [exact Hdef|reflexivity]|].
  split; [rewrite (Hstored "email_verified" (JBool (truthy (prop "email_confirmed_at" u))));
          [reflexivity|discriminate|reflexivity]|].
  rewrite (Hstored "created_at" created_at Hcreated eq_refl).
  subst created_at. destruct (truthy (prop "created_at" u)); reflexivity.
Qed.

Lemma ensureUserExists_creates_the_record_witness :
  exists row name,
    rows_of (db (final (run memory (ensureUserExists Sample.ann) Sample.world))) "users"
    = (rows_of (db Sample.world) "users" ++ [row])%list /\
    users_with_id (db (final (run memory (ensureUserExists Sample.ann) Sample.world))) (JStr "u1")
    = [row] /\
    derived_name Sample.ann = Resolved name /\
    prop "id" row = JStr "u1" /\
    prop "email" row = JStr "ann@example.com" /\
    prop "name" row = to_json name /\
    prop "email_verified" row = JBool false /\
    prop "created_at" row = jint 100.
Proof.
  apply (ensureUserExists_creates_the_record "u1" "ann@example.com" Sample.ann Sample.world);
    try reflexivity.
  exists Sample.users. repeat split; cbn; lia.
Defined.

(** ** The routes that answer from a token *)

(** X8.  [GET /api/auth/user] reads the session cookie only.  Without
    a non-empty cookie it answers 401 without asking anyone, whatever
    the [Authorization] header holds.  With one it asks the authority
    once, for the cookie, and never the database; it answers 200 with
    the user as the authority gave it (a missing user included) when
    the authority reports no error, 401 with the authority's message
    when it reports one, and 500 when the call fails. *)
Theorem get_user_reads_the_cookie_only :
  forall (W : Type) (H : Handler W) (w : W) (req : Request),
    let token := lookup "sb-access-token" (req_cookies req) in
    let out := run H (get_user req) w in
    if truthy token then
      filter is_getUser (trace out) = [EvGetUser token] /\
      db_calls (trace out) = 0%nat /\
      final out = snd (on_getUser H w token) /\
      result out
      = Resolved match fst (on_getUser H w token) with
                 | Resolved reply =>
                     match auth_error reply with
                     | Some e => status_json 401 (error_body (message e))
                     | None => json (obj [("user", auth_user reply)])
                     end
                 | Rejected _ => status_json 500 (error_body "Internal server error")
                 end
    else
      out = {| result := Resolved (status_json 401 (error_body "No access token"));
               final := w; trace := [] |}.
Proof.
  intros W H w req token out. subst token out.
  unfold get_user. rewrite run_try_catch.
  destruct (truthy (lookup "sb-access-token" (req_cookies req))); cbn [negb]; [|reflexivity].
  unfold await_getUser, db_calls. cbn [bind run].
  destruct (on_getUser H w (lookup "sb-access-token" (req_cookies req))) as [[reply|e] w1];
    cbn [fst snd settle bind]; [|cbn; auto].
  destruct (auth_error reply); cbn; auto.
Qed.

(** X9.  [POST /api/auth/verify-jwt] decides locally: it calls
    neither the database nor the authority.  For a truthy [token] it
    answers 200 with the claims [sub], [email], [role], [exp] and
    [iat] of the payload when verification yields a payload, and 401
    with the verifier's message and the unverified decoding when
    verification fails with a message.  The two remaining cases end in
    the 500 of its [catch]: a failure whose message is empty, and a
    verification that yields no payload. *)
Theorem verify_jwt_answers_from_the_verifier_alone :
  forall (jwt_verify : jsval -> string -> list string -> string -> settled jsval)
         (secret : string) (jwt_decode : jsval -> settled jsval)
         (W : Type) (H : Handler W) (w : W) (req : Request),
    let token := prop "token" (req_body req) in
    let out := run H (verify_jwt jwt_verify secret jwt_decode req) w in
    truthy token = true ->
    filter is_db (trace out) = [] /\ filter is_getUser (trace out) = [] /\ final out = w /\
    result out
    = Resolved
        match jwt_verify token secret ["HS256"] "supabase" with
        | Resolved user =>
            if nullish user then status_json 500 (error_body "Internal server error")
            else json (obj [ ("message", JStr "Token is valid");
                             ("user", obj [ ("id", prop "sub" user);
                                            ("email", prop "email" user);
                                            ("role", prop "role" user);
                                            ("exp", prop "exp" user);
                                            ("iat", prop "iat" user) ]) ])
        | Rejected e =>
            if (message e =? EmptyString)%string
            then status_json 500 (error_body "Internal server error")
            else status_json 401 (obj [ ("error", JStr "Invalid token");
                                        ("details", JStr (message e));
                                        ("decoded", decodeToken jwt_decode token) ])
        end.
Proof.
  intros jwt_verify secret jwt_decode W H w req token out Htok. subst token out.
  unfold verify_jwt, verifySupabaseToken. rewrite run_try_catch, Htok. cbn [negb].
  destruct (jwt_verify (prop "token" (req_body req)) secret ["HS256"] "supabase") as [user|e];
    cbn [v_user v_error truthy].
  - unfold member. destruct (nullish user); cbn; auto.
  - destruct (message e =? EmptyString)%string; cbn; auto.
Qed.

Lemma verify_jwt_witness :
  result (run memory
            (verify_jwt Sample.verify "secret" (fun _ => Resolved JNull)
               (Sample.request [] [] (JObj [("token", JStr "good")])))
            Sample.world)
  = Resolved {| status := 200;
                payload := JObj [ ("message", JStr "Token is valid");
                                  ("user", JObj [ ("id", JStr "u1");
                                                  ("email", JStr "ann@example.com") ]) ] |}.
Proof.
  exact (proj2 (proj2 (proj2
           (verify_jwt_answers_from_the_verifier_alone Sample.verify "secret"
              (fun _ => Resolved JNull) World memory Sample.world
              (Sample.request [] [] (JObj [("token", JStr "good")])) eq_refl)))).
Defined.

(** ** The status route *)

Section StatusRoute.

Context {W : Type} (H : Handler W).

(** The loop ends normally whatever the probes do, and asks once per
    table. *)
Lemma check_tables_resolves (names : list string) (tables : jsval) (w : W) :
  (exists v, result (run H (check_tables names tables) w) = Resolved v) /\
  filter is_db (trace (run H (check_tables names tables) w))
  = map (fun n => EvDb (table_probe n)) names /\
  filter is_getUser (trace (run H (check_tables names tables) w)) = [].
Proof.
  revert tables w. induction names as [|n names IH]; intros tables w; cbn [check_tables map].
  - cbn. eauto.
  - unfold await_db. cbn [bind try_catch run].
    destruct (on_db H w (table_probe n)) as [[r|e] w1];
      cbn [settle bind try_catch run logged result trace filter is_db is_getUser].
    + destruct (IH (spread tables [(n, JBool match error r with Some _ => false | None => true end)]) w1)
        as ([v Hv] & Hd & Hg).
      rewrite Hv, Hd, Hg. eauto.
    + destruct (IH (spread tables [(n, JBool false)]) w1) as ([v Hv] & Hd & Hg).
      rewrite Hv, Hd, Hg. eauto.
Qed.

End StatusRoute.

(** X10.  [GET /api/status] never fails: whatever the database does,
    a probe that throws included, the answer is 200; it asks the
    database exactly once for each of the five tables, in the order
    users, categories, labels, posts, post_labels, and never asks the
    authority. *)
Theorem get_status_always_answers_200 :
  forall (W : Type) (H : Handler W) (w : W) (req : Request),
    let out := run H (get_status req) w in
    status_of (result out) = Some 200 /\
    filter is_db (trace out)
    = [ EvDb (table_probe "users"); EvDb (table_probe "categories");
        EvDb (table_probe "labels"); EvDb (table_probe "posts");
        EvDb (table_probe "post_labels") ] /\
    authority_calls (trace out) = 0%nat.
Proof.
  intros W H w req out. subst out.
  unfold get_status, authority_calls. rewrite run_try_catch, run_bind.
  match goal with
  | |- context [run H (check_tables status_tables ?t) w] =>
      destruct (check_tables_resolves H status_tables t w) as ([v Hv] & Hd & Hg);
      destruct (run H (check_tables status_tables t) w) as [res fin tr]
  end.
  cbn [result trace] in Hv, Hd, Hg. subst res.
  unfold or_else, and_then.
  cbn [result final trace run status_of json status_json status].
  rewrite app_nil_r, Hd, Hg. repeat split.
Qed.

(** The probe of a table in the in-memory store. *)
Lemma memory_table_probe (w : World) (n : string) :
  exists r,
    on_db memory w (table_probe n) = (Resolved r, w) /\
    match error r with Some _ => false | None => true end
    = match table n (tables (db w)) with Some _ => true | None => false end.
Proof.
  destruct (table n (tables (db w))) as [t|] eqn:Ht.
  - eexists. split.
    + apply (memory_select w (table_probe n) t star false); [exact Ht|reflexivity].
    + reflexivity.
  - eexists. split.
    + apply (memory_missing w (table_probe n)). exact Ht.
    + reflexivity.
Qed.

Lemma check_tables_memory (w : World) (names : list string) (fs : fields) :
  let present n := match table n (tables (db w)) with Some _ => true | None => false end in
  result (run memory (check_tables names (JObj fs)) w)
  = Resolved (JObj (fold_left (fun acc n => set_field n (JBool (present n)) acc) names fs)) /\
  final (run memory (check_tables names (JObj fs)) w) = w.
Proof.
  intro present. revert fs. induction names as [|n names IH]; intro fs;
    cbn [check_tables fold_left]; [split; reflexivity|].
  unfold await_db. cbn [bind try_catch run].
  destruct (memory_table_probe w n) as (r & Hq & Hr). rewrite Hq.
  cbn [settle bind try_catch run logged result final]. rewrite Hr.
  apply (IH (set_field n (JBool (present n)) fs)).
Qed.

(** X11.  Against the in-memory store, [GET /api/status] reports for
    each of the five tables whether the store has it, is [ready]
    exactly when it has all five, words its message accordingly, and
    leaves the store as it was. *)
Theorem get_status_is_ready_when_all_tables_exist :
  forall (w : World) (req : Request),
    let present n := match table n (tables (db w)) with Some _ => true | None => false end in
    let out := run memory (get_status req) w in
    let body := body_of (result out) in
    final out = w /\
    prop "tables" body
    = JObj [ ("users", JBool (present "users")); ("categories", JBool (present "categories"));
             ("labels", JBool (present "labels")); ("posts", JBool (present "posts"));
             ("post_labels", JBool (present "post_labels")) ] /\
    prop "ready" body = JBool (forallb present status_tables) /\
    prop "message" body
    = JStr (if forallb present status_tables then "All database tables are ready"
            else "Some database tables are missing. Please run the SQL schema in Supabase.").
Proof.
  intros w req present out body. subst out body.
  unfold get_status. rewrite run_try_catch, run_bind.
  match goal with
  | |- context [run memory (check_tables status_tables (prop "tables" ?s)) w] =>
      change (prop "tables" s)
        with (JObj [ ("users", JBool false); ("categories", JBool false);
                     ("labels", JBool false); ("posts", JBool false);
                     ("post_labels", JBool false) ])
  end.
  match goal with
  | |- context [run memory (check_tables status_tables (JObj ?fs)) w] =>
      destruct (check_tables_memory w status_tables fs) as [Hv Hf];
      destruct (run memory (check_tables status_tables (JObj fs)) w) as [res fin tr]
  end.
  cbn [result final] in Hv, Hf. subst res fin.
  unfold or_else, and_then. cbn [result final trace run body_of].
  subst present. cbv beta. cbn [status_tables fold_left forallb].
  destruct (table "users" (tables (db w))), (table "categories" (tables (db w))),
           (table "labels" (tables (db w))), (table "posts" (tables (db w))),
           (table "post_labels" (tables (db w))); repeat split.
Qed.

(** ** The category and label routes *)

Lemma owned_by_name_reply (w : World) (name : string) (userId : jsval) (t : Table) :
  table name (tables (db w)) = Some t ->
  on_db memory w (owned_by_name name userId)
  = (Resolved (reply_ok (JArr (sort_rows (row_leb "name" true)
                                 (filter (fun r => sql_eq (prop "user_id" r) userId)
                                         (t_rows t))))), w).
Proof.
  intro Ht.
  rewrite (memory_select w (owned_by_name name userId) t star false Ht eq_refl).
  unfold exec_select, owned_by_name.
  cbn [q_filters q_order q_range q_limit q_single q_table eq_ order from star embeds
       with_category with_post_labels orb andb ordered ranged limited finish app].
  rewrite (filter_ext _ _ (matches_one_eq (db w) "user_id" userId)).
  rewrite (map_ext _ (fun r => r) (shaped_star (db w))), map_id.
  reflexivity.
Qed.

(** One row sent with [insert([row]).select().single()]: a conflict on
    the primary key, or the row as stored, appended to the table. *)
Lemma memory_insert_one (w : World) (q : Query) (t : Table) (sent : jsval) :
  table (q_table q) (tables (db w)) = Some t ->
  q_verb q = Insert [sent] -> q_returning q = true -> q_single q = true ->
  on_db memory w q = (Resolved (reply_error duplicate_key), w) \/
  exists row serial,
    (row = JObj (with_defaults (t_defaults t (clock w)) sent) \/
     exists n, row = JObj (("id", jint n) :: with_defaults (t_defaults t (clock w)) sent)) /\
    on_db memory w q
    = (Resolved (reply_ok row),
       with_db w (with_table (db w) (q_table q) (with_rows t (t_rows t ++ [row]) serial))).
Proof.
  intros Ht Hv Hr Hs. cbn [memory on_db]. unfold exec. rewrite Ht, Hv. cbn [insert_rows].
  set (filled := with_defaults (t_defaults t (clock w)) sent).
  set (numbered := match t_serial t, field "id" filled with
                   | Some n, None => (JObj (("id", jint n) :: filled), Some (n + 1))
                   | _, _ => (JObj filled, t_serial t)
                   end).
  assert (Hshape : fst numbered = JObj filled \/
                   exists n, fst numbered = JObj (("id", jint n) :: filled)).
  { subst numbered. destruct (t_serial t) as [n|]; [|auto].
    destruct (field "id" filled); [auto|]. right. exists n. reflexivity. }
  destruct (t_primary t && has_id (t_rows t) (prop "id" (fst numbered))).
  - left. rewrite with_db_same. reflexivity.
  - right. exists (fst numbered), (snd numbered). split; [exact Hshape|].
    rewrite Hr. unfold finish. rewrite Hs. reflexivity.
Qed.

Lemma rows_of_with_table (s : Store) (name : string) (t : Table) :
  rows_of (with_table s name t) name = t_rows t.
Proof. unfold rows_of, with_table. cbn [tables]. rewrite table_set_table. reflexivity. Qed.

(** X12.  [GET /api/categories] lists the categories of the caller
    and no others, ordered by name, and changes nothing; where the
    store has no [categories] table it answers 200 with the eight
    built-in categories instead. *)
Theorem get_categories_lists_the_callers_by_name :
  forall (w : World) (req : Request),
    let userId := prop "id" (req_user req) in
    let out := run memory (get_categories req) w in
    final out = w /\
    match table "categories" (tables (db w)) with
    | None => result out = Resolved (json default_categories)
    | Some t =>
        exists rows,
          result out = Resolved (json (JArr rows)) /\
          Permutation rows (filter (fun r => sql_eq (prop "user_id" r) userId) (t_rows t)) /\
          Sorted (fun a b => cell_leb (prop "name" a) (prop "name" b) = true) rows
    end.
Proof.
  intros w req userId out. subst userId out.
  unfold get_categories, await_db. cbn [bind try_catch run].
  destruct (table "categories" (tables (db w))) as [t|] eqn:Ht.
  - rewrite (owned_by_name_reply w "categories" _ t Ht).
    cbn [settle bind try_catch run logged result final error reply_ok data js_or truthy].
    split; [reflexivity|]. eexists. split; [reflexivity|]. split.
    + apply sort_rows_perm.
    + exact (sort_rows_sorted (row_leb "name" true) (row_leb_total "name" true) _).
  - rewrite (memory_missing w (owned_by_name "categories" (prop "id" (req_user req))) Ht).
    split; reflexivity.
Qed.

Lemma get_categories_witness :
  (exists rows,
      result (run memory (get_categories (Sample.request [] [] JNull)) Fixture.site)
      = Resolved (json (JArr rows)) /\
      Permutation rows [Fixture.owned 1 "u1" "Work"; Fixture.owned 3 "u1" "Ideas"] /\
      Sorted (fun a b => cell_leb (prop "name" a) (prop "name" b) = true) rows) /\
  result (run memory (get_categories (Sample.request [] [] JNull)) Sample.bare_world)
  = Resolved (json default_categories).
Proof.
  split.
  - exact (proj2 (get_categories_lists_the_callers_by_name Fixture.site
                    (Sample.request [] [] JNull))).
  - exact (proj2 (get_categories_lists_the_callers_by_name Sample.bare_world
                    (Sample.request [] [] JNull))).
Defined.

(** X13.  [GET /api/labels] lists the labels of the caller and no
    others, ordered by name, and changes nothing; where the store has
    no [labels] table it answers 200 with the eight built-in labels
    instead. *)
Theorem get_labels_lists_the_callers_by_name :
  forall (w : World) (req : Request),
    let userId := prop "id" (req_user req) in
    let out := run memory (get_labels req) w in
    final out = w /\
    match table "labels" (tables (db w)) with
    | None => result out = Resolved (json default_labels)
    | Some t =>
        exists rows,
          result out = Resolved (json (JArr rows)) /\
          Permutation rows (filter (fun r => sql_eq (prop "user_id" r) userId) (t_rows t)) /\
          Sorted (fun a b => cell_leb (prop "name" a) (prop "name" b) = true) rows
    end.
Proof.
  intros w req userId out. subst userId out.
  unfold get_labels, await_db. cbn [bind try_catch run].
  destruct (table "labels" (tables (db w))) as [t|] eqn:Ht.
  - rewrite (owned_by_name_reply w "labels" _ t Ht).
    cbn [settle bind try_catch run logged result final error reply_ok data js_or truthy].
    split; [reflexivity|]. eexists. split; [reflexivity|]. split.
    + apply sort_rows_perm.
    + exact (sort_rows_sorted (row_leb "name" true) (row_leb_total "name" true) _).
  - rewrite (memory_missing w (owned_by_name "labels" (prop "id" (req_user req))) Ht).
    split; reflexivity.
Qed.

Lemma falsy_or_defined (v d : jsval) : d <> JUndef -> js_or v d <> JUndef.
Proof.
  unfold js_or. destruct (truthy v) eqn:E; [|auto]. intros _ E'. rewrite E' in E. discriminate.
Qed.

(** A column that the payload sends, in the row as stored. *)
Lemma sent_column (k : string) (v : jsval) (entries defaults : fields) (row : jsval) :
  field k entries = Some v -> v <> JUndef -> (k =? "id")%string = false ->
  (row = JObj (with_defaults defaults (JObj entries)) \/
   exists n, row = JObj (("id", jint n) :: with_defaults defaults (JObj entries))) ->
  prop k row = to_json v.
Proof.
  intros Hk Hv Hid Hrow.
  assert (Hf : field k (own_fields (to_json (JObj entries))) = Some (to_json v)).
  { rewrite to_json_obj. cbn [own_fields]. apply json_field_some; assumption. }
  destruct (stored_prop k (to_json v) defaults (JObj entries) Hf Hid) as [H1 H2].
  destruct Hrow as [->|[n ->]]; [exact H1|apply H2].
Qed.

(** X14.  [POST /api/categories] stores one category, owned by the
    caller whatever the body says, whose colour and icon are those of
    the body when they are truthy and the defaults [#3B82F6] and the
    folder icon otherwise, and answers 201 with the stored row; on a
    conflict of the primary key it answers 500 and stores nothing. *)
Theorem post_categories_creates_for_the_caller :
  forall (w : World) (req : Request) (t : Table) (uid : string),
    table "categories" (tables (db w)) = Some t ->
    prop "id" (req_user req) = JStr uid ->
    let out := run memory (post_categories req) w in
    (result out = Resolved (status_json 500 (error_body (message duplicate_key))) /\
     final out = w) \/
    (exists row,
        result out = Resolved (status_json 201 row) /\
        rows_of (db (final out)) "categories" = (t_rows t ++ [row])%list /\
        prop "user_id" row = JStr uid /\
        prop "color" row
        = (if truthy (prop "color" (req_body req)) then to_json (prop "color" (req_body req))
           else JStr "#3B82F6") /\
        prop "icon" row
        = (if truthy (prop "icon" (req_body req)) then to_json (prop "icon" (req_body req))
           else JStr "📁")).
Proof.
  intros w req t uid Ht Hid out. subst out.
  unfold post_categories, await_db. rewrite Hid. cbn [bind try_catch run].
  match goal with
  | |- context [on_db memory w ?q] =>
      destruct (memory_insert_one w q t
                  (JObj [ ("name", prop "name" (req_body req));
                          ("color", js_or (prop "color" (req_body req)) (JStr "#3B82F6"));
                          ("icon", js_or (prop "icon" (req_body req)) (JStr "📁"));
                          ("user_id", JStr uid) ]) Ht eq_refl eq_refl eq_refl)
        as [E|(row & serial & Hrow & E)]; rewrite E
  end.
  - left. split; reflexivity.
  - right. exists row.
    cbn [settle bind try_catch run logged result final throw_if_error error reply_ok data
         db with_db].
    split; [reflexivity|]. split; [apply rows_of_with_table|].
    match type of Hrow with
    | context [with_defaults ?d (JObj ?es)] =>
        pose proof (fun k v Hk Hv Hid => sent_column k v es d row Hk Hv Hid Hrow) as Hcol
    end.
    split; [apply (Hcol "user_id" (JStr uid)); [reflexivity|discriminate|reflexivity]|].
    split.
    + rewrite (Hcol "color" (js_or (prop "color" (req_body req)) (JStr "#3B82F6")));
        [|reflexivity|apply falsy_or_defined; discriminate|reflexivity].
      unfold js_or. destruct (truthy (prop "color" (req_body req))); reflexivity.
    + rewrite (Hcol "icon" (js_or (prop "icon" (req_body req)) (JStr "📁")));
        [|reflexivity|apply falsy_or_defined; discriminate|reflexivity].
      unfold js_or. destruct (truthy (prop "icon" (req_body req))); reflexivity.
Qed.

Lemma post_categories_witness :
  let req := Sample.request [] []
               (JObj [("name", JStr "Travel"); ("color", JStr EmptyString);
                      ("user_id", JStr "u2")]) in
  let out := run memory (post_categories req) Sample.world in
  (result out = Resolved (status_json 500 (error_body (message duplicate_key))) /\
   final out = Sample.world) \/
  (exists row,
      result out = Resolved (status_json 201 row) /\
      rows_of (db (final out)) "categories" = ([] ++ [row])%list /\
      prop "user_id" row = JStr "u1" /\
      prop "color" row = JStr "#3B82F6" /\
      prop "icon" row = JStr "📁").
Proof.
  exact (post_categories_creates_for_the_caller Sample.world
           (Sample.request [] []
              (JObj [("name", JStr "Travel"); ("color", JStr EmptyString);
                     ("user_id", JStr "u2")]))
           (Sample.plain []) "u1" eq_refl eq_refl).
Defined.

(** X15.  [POST /api/labels] stores one label, owned by the caller
    whatever the body says, whose colour is that of the body when it
    is truthy and [#10B981] otherwise, and answers 201 with the stored
    row; on a conflict of the primary key it answers 500 and stores
    nothing. *)
Theorem post_labels_creates_for_the_caller :
  forall (w : World) (req : Request) (t : Table) (uid : string),
    table "labels" (tables (db w)) = Some t ->
    prop "id" (req_user req) = JStr uid ->
    let out := run memory (post_labels req) w in
    (result out = Resolved (status_json 500 (error_body (message duplicate_key))) /\
     final out = w) \/
    (exists row,
        result out = Resolved (status_json 201 row) /\
        rows_of (db (final out)) "labels" = (t_rows t ++ [row])%list /\
        prop "user_id" row = JStr uid /\
        prop "color" row
        = (if truthy (prop "color" (req_body req)) then to_json (prop "color" (req_body req))
           else JStr "#10B981")).
Proof.
  intros w req t uid Ht Hid out. subst out.
  unfold post_labels, await_db. rewrite Hid. cbn [bind try_catch run].
  match goal with
  | |- context [on_db memory w ?q] =>
      destruct (memory_insert_one w q t
                  (JObj [ ("name", prop "name" (req_body req));
                          ("color", js_or (prop "color" (req_body req)) (JStr "#10B981"));
                          ("user_id", JStr uid) ]) Ht eq_refl eq_refl eq_refl)
        as [E|(row & serial & Hrow & E)]; rewrite E
  end.
  - left. split; reflexivity.
  - right. exists row.
    cbn [settle bind try_catch run logged result final throw_if_error error reply_ok data
         db with_db].
    split; [reflexivity|]. split; [apply rows_of_with_table|].
    match type of Hrow with
    | context [with_defaults ?d (JObj ?es)] =>
        pose proof (fun k v Hk Hv Hid => sent_column k v es d row Hk Hv Hid Hrow) as Hcol
    end.
    split; [apply (Hcol "user_id" (JStr uid)); [reflexivity|discriminate|reflexivity]|].
    rewrite (Hcol "color" (js_or (prop "color" (req_body req)) (JStr "#10B981")));
      [|reflexivity|apply falsy_or_defined; discriminate|reflexivity].
    unfold js_or. destruct (truthy (prop "color" (req_body req))); reflexivity.
Qed.

Lemma post_labels_witness :
  let req := Sample.request [] [] (JObj [("name", JStr "Later"); ("color", JStr "#000000")]) in
  let out := run memory (post_labels req) Sample.world in
  (result out = Resolved (status_json 500 (error_body (message duplicate_key))) /\
   final out = Sample.world) \/
  (exists row,
      result out = Resolved (status_json 201 row) /\
      rows_of (db (final out)) "labels" = ([] ++ [row])%list /\
      prop "user_id" row = JStr "u1" /\
      prop "color" row = JStr "#000000").
Proof.
  exact (post_labels_creates_for_the_caller Sample.world
           (Sample.request [] [] (JObj [("name", JStr "Later"); ("color", JStr "#000000")]))
           (Sample.plain []) "u1" eq_refl eq_refl).
Defined.

(** ** Writes and the notes of other users *)

Lemma run_leaves_others {A : Type} (userId : jsval) (p : Prog A) (w : World) :
  all_queries (leaves_others userId) p ->
  notes_of_others (db (final (run memory p w))) userId = notes_of_others (db w) userId.
Proof.
  revert w. induction p as [a|e|t k IH|q k IH|k IH|n k IH|l k IH]; intros w Hp;
    cbn [run all_queries] in *; auto.
  - destruct (on_getUser memory w t) as [r w'] eqn:E. cbn [on_getUser memory] in E.
    injection E as <- <-. cbn [logged final]. apply IH; auto.
  - destruct Hp as [Hq Hk]. cbn [on_db memory].
    destruct (exec (db w) (clock w) q) as [r s] eqn:E. cbn [logged final].
    rewrite (IH _ _ (Hk _)). cbn [db with_db].
    specialize (Hq (db w) (clock w)). rewrite E in Hq. exact Hq.
  - cbn [logged final]. apply IH; auto.
Qed.

(** What [insert_rows] appends: each row sent, as stored. *)
Lemma insert_rows_shape (primary : bool) (defaults : fields) (new rows inserted rows' : list jsval)
      (serial serial' : option Z) :
  insert_rows primary defaults new rows serial = Some (inserted, rows', serial') ->
  rows' = (rows ++ inserted)%list /\
  Forall2 (fun sent row =>
             row = JObj (with_defaults defaults sent) \/
             exists n, row = JObj (("id", jint n) :: with_defaults defaults sent))
          new inserted.
Proof.
  revert rows inserted rows' serial serial'.
  induction new as [|r new IH]; intros rows inserted rows' serial serial' E;
    cbn [insert_rows] in E.
  - injection E as <- <- <-. rewrite app_nil_r. split; [reflexivity|constructor].
  - destruct (andb primary _); [discriminate|].
    destruct (insert_rows primary defaults new _ _) as [[[ins rs] sr]|] eqn:E'; [|discriminate].
    injection E as <- <- <-.
    destruct (IH _ _ _ _ _ E') as [-> Hall].
    rewrite <- app_assoc. split; [reflexivity|]. constructor; [|exact Hall].
    destruct serial as [n|]; [destruct (field "id" (with_defaults defaults r))|];
      cbn [fst]; eauto.
Qed.

Lemma notes_of_others_other_table (s : Store) (name : string) (t : Table) (userId : jsval) :
  ("posts" =? name)%string = false ->
  notes_of_others (with_table s name t) userId = notes_of_others s userId.
Proof. intro Hne. unfold notes_of_others. rewrite rows_of_other_table; auto. Qed.

(** A column that a patch does not name keeps its value. *)
Lemma patched_other (k : string) (patch row : jsval) :
  ~ In k (map fst (own_fields patch)) -> prop k (patched patch row) = prop k row.
Proof.
  intro Hk. unfold patched, spread. cbn [prop].
  rewrite fold_set_field_other.
  - destruct row; reflexivity.
  - intro Hin. apply Hk.
    destruct patch as [| |b|n|s|l|fs]; try (cbn in Hin; contradiction).
    + destruct n; cbn in Hin; contradiction.
    + rewrite to_json_obj in Hin. cbn [own_fields] in *. apply json_fields_keys, Hin.
Qed.

Section Isolation.

Variable userId : jsval.

Lemma leaves_select (q : Query) (c : Columns) (h : bool) :
  q_verb q = Select c h -> leaves_others userId q.
Proof.
  intros Hv s now. unfold exec. rewrite Hv.
  destruct (table (q_table q) (tables s)); reflexivity.
Qed.

Lemma leaves_other_table (q : Query) :
  ("posts" =? q_table q)%string = false -> leaves_others userId q.
Proof.
  intros Hne s now. unfold exec.
  destruct (table (q_table q) (tables s)) as [t|]; [|reflexivity].
  destruct (q_verb q) as [c h|new|patch|]; cbn [snd]; [reflexivity| | |].
  - destruct (insert_rows _ _ _ _ _) as [[[ins rs] sr]|]; cbn [snd]; [|reflexivity].
    apply notes_of_others_other_table, Hne.
  - apply notes_of_others_other_table, Hne.
  - apply notes_of_others_other_table, Hne.
Qed.

(** The rows that an owner-scoped filter matches are the caller's. *)
Lemma scoped_hit (s : Store) (fs : list Filter) (r : jsval) :
  In (FEq "user_id" userId) fs ->
  matches s fs r = true -> sql_eq (prop "user_id" r) userId = true.
Proof.
  intros Hin Hm. unfold matches in Hm. rewrite forallb_forall in Hm.
  exact (Hm _ Hin).
Qed.

Lemma leaves_update (q : Query) (patch : jsval) :
  q_table q = "posts" -> q_verb q = Update patch ->
  In (FEq "user_id" userId) (q_filters q) ->
  ~ In "user_id" (map fst (own_fields patch)) ->
  leaves_others userId q.
Proof.
  intros Ht Hv Hscope Hpatch s now. unfold exec, notes_of_others. rewrite Ht, Hv.
  destruct (table "posts" (tables s)) as [t|] eqn:Etab; [|reflexivity].
  cbn [snd]. rewrite rows_of_posts. cbn [t_rows with_rows].
  unfold rows_of. rewrite Etab.
  induction (t_rows t) as [|r rows IH]; cbn [map filter]; [reflexivity|].
  destruct (matches s (q_filters q) r) eqn:Hm.
  - rewrite (patched_other "user_id" patch r Hpatch), (scoped_hit s _ r Hscope Hm).
    cbn [negb]. exact IH.
  - rewrite IH. reflexivity.
Qed.

Lemma leaves_delete (q : Query) :
  q_table q = "posts" -> q_verb q = Delete ->
  In (FEq "user_id" userId) (q_filters q) ->
  leaves_others userId q.
Proof.
  intros Ht Hv Hscope s now. unfold exec, notes_of_others. rewrite Ht, Hv.
  destruct (table "posts" (tables s)) as [t|] eqn:Etab; [|reflexivity].
  cbn [snd]. rewrite rows_of_posts. cbn [t_rows with_rows].
  unfold rows_of. rewrite Etab.
  induction (t_rows t) as [|r rows IH]; cbn [filter]; [reflexivity|].
  destruct (matches s (q_filters q) r) eqn:Hm; cbn [negb filter].
  - rewrite (scoped_hit s _ r Hscope Hm). cbn [negb]. exact IH.
  - rewrite IH. reflexivity.
Qed.

Lemma leaves_insert (q : Query) (sent : jsval) :
  q_table q = "posts" -> q_verb q = Insert [sent] ->
  (forall row defaults,
      row = JObj (with_defaults defaults sent) \/
      (exists n, row = JObj (("id", jint n) :: with_defaults defaults sent)) ->
      sql_eq (prop "user_id" row) userId = true) ->
  leaves_others userId q.
Proof.
  intros Ht Hv Hown s now. unfold exec, notes_of_others. rewrite Ht, Hv.
  destruct (table "posts" (tables s)) as [t|] eqn:Etab; [|reflexivity].
  destruct (insert_rows _ _ _ _ _) as [[[ins rs] sr]|] eqn:E; cbn [snd]; [|reflexivity].
  rewrite rows_of_posts. cbn [t_rows with_rows].
  unfold rows_of. rewrite Etab.
  destruct (insert_rows_shape _ _ _ _ _ _ _ _ E) as [-> Hall].
  rewrite filter_app.
  inversion Hall as [|sent' row l l' Hrow Hrest]; subst.
  inversion Hrest; subst. cbn [filter].
  rewrite (Hown row _ Hrow). cbn [negb]. apply app_nil_r.
Qed.

Lemma insert_labels_leaves (rows : option (list jsval)) :
  all_queries (leaves_others userId) (insert_labels rows).
Proof.
  destruct rows as [l|]; cbn [insert_labels]; [|exact I].
  apply all_queries_bind; [|intro; apply all_queries_throw_if_error].
  apply all_queries_await, leaves_other_table. reflexivity.
Qed.

End Isolation.

Ltac literal_object :=
  unfold obj, spread;
  cbn [own_fields fold_left fst snd set_field remove_field String.eqb Ascii.eqb Bool.eqb].

Ltac not_a_key :=
  literal_object; cbn [map fst In]; intuition discriminate.

Ltac scoped := cbn; auto.

Section OwnerScopedRoutes.

Variable uid : string.
Variable req : Request.
Hypothesis caller : prop "id" (req_user req) = JStr uid.

Lemma post_notes_leaves : all_queries (leaves_others (JStr uid)) (post_notes req).
Proof.
  unfold post_notes. rewrite caller.
  apply all_queries_try_catch; [|intro; exact I].
  apply all_queries_bind;
    [destruct (truthy (default_to (JBool false) (prop "is_public" (req_body req))));
     cbn; auto|intro token].
  apply all_queries_bind; [cbn; auto|intro last_autosave].
  apply all_queries_bind; [cbn; auto|intro updated_at].
  apply all_queries_bind; [|intro created].
  - apply all_queries_await.
    eapply leaves_insert; [reflexivity|reflexivity|].
    intros row defaults Hrow. revert Hrow. literal_object. intro Hrow.
    match type of Hrow with
    | context [with_defaults _ (JObj ?es)] =>
        rewrite (sent_column "user_id" (JStr uid) es defaults row eq_refl ltac:(discriminate)
                   eq_refl Hrow)
    end.
    cbn [to_json sql_eq text_of]. apply String.eqb_refl.
  - walk_queries.
    + apply insert_labels_leaves.
    + apply all_queries_await. eapply leaves_select. reflexivity.
Qed.

Lemma put_note_leaves : all_queries (leaves_others (JStr uid)) (put_note req).
Proof.
  unfold put_note. rewrite caller.
  apply all_queries_try_catch; [|intro; exact I].
  apply all_queries_bind; [cbn; auto|intro updated_at].
  apply all_queries_bind; [|intro updated].
  - apply all_queries_await.
    eapply leaves_update; [reflexivity|reflexivity|scoped|not_a_key].
  - apply all_queries_bind; [apply all_queries_throw_if_error|intros _].
    destruct (no_rows (data updated)); [exact I|].
    apply all_queries_bind.
    + destruct (prop "label_ids" (req_body req)); try exact I;
        (apply all_queries_bind;
         [apply all_queries_await, leaves_other_table; reflexivity|intros _];
         apply all_queries_bind; [apply all_queries_settle|intro rows];
         apply insert_labels_leaves).
    + intros _. walk_queries.
      apply all_queries_await. eapply leaves_select. reflexivity.
Qed.

Lemma delete_note_leaves : all_queries (leaves_others (JStr uid)) (delete_note req).
Proof.
  unfold delete_note. rewrite caller.
  apply all_queries_try_catch; [|intro; exact I].
  apply all_queries_bind; [|intro deleted; walk_queries].
  apply all_queries_await.
  eapply leaves_delete; [reflexivity|reflexivity|scoped].
Qed.

Lemma post_autosave_leaves : all_queries (leaves_others (JStr uid)) (post_autosave req).
Proof.
  unfold post_autosave. rewrite caller.
  apply all_queries_try_catch; [|intro; exact I].
  apply all_queries_bind; [cbn; auto|intro last_autosave].
  apply all_queries_bind; [cbn; auto|intro updated_at].
  apply all_queries_bind; [|intro updated].
  - apply all_queries_await.
    eapply leaves_update; [reflexivity|reflexivity|scoped|].
    destruct (truthy (prop "is_encrypted" (req_body req))); not_a_key.
  - walk_queries. destruct (no_rows (data updated)); exact I.
Qed.

Lemma patch_visibility_leaves : all_queries (leaves_others (JStr uid)) (patch_visibility req).
Proof.
  unfold patch_visibility. rewrite caller.
  apply all_queries_try_catch; [|intro; exact I].
  apply all_queries_bind;
    [destruct (truthy (prop "is_public" (req_body req))); cbn; auto|intro token].
  apply all_queries_bind; [cbn; auto|intro updated_at].
  apply all_queries_bind; [|intro updated].
  - apply all_queries_await.
    eapply leaves_update; [reflexivity|reflexivity|scoped|not_a_key].
  - walk_queries. destruct (no_rows (data updated)); exact I.
Qed.

Lemma patch_publish_leaves : all_queries (leaves_others (JStr uid)) (patch_publish req).
Proof.
  unfold patch_publish. rewrite caller.
  apply all_queries_try_catch; [|intro; exact I].
  apply all_queries_bind; [cbn; auto|intro updated_at].
  apply all_queries_bind; [|intro updated].
  - apply all_queries_await.
    eapply leaves_update; [reflexivity|reflexivity|scoped|not_a_key].
  - walk_queries. destruct (no_rows (data updated)); exact I.
Qed.

End OwnerScopedRoutes.

(** X16.  No writing route touches a note of another user: whatever
    the id and the body of the request, after creating, updating,
    autosaving, publishing, changing the visibility of or deleting a
    note, the rows of [posts] that are not the caller's are the same
    rows, in the same order, as before. *)
Theorem writes_leave_the_notes_of_others :
  forall (w : World) (req : Request) (uid : string),
    prop "id" (req_user req) = JStr uid ->
    let others p := notes_of_others (db (final (run memory p w))) (JStr uid) in
    others (post_notes req) = notes_of_others (db w) (JStr uid) /\
    others (put_note req) = notes_of_others (db w) (JStr uid) /\
    others (post_autosave req) = notes_of_others (db w) (JStr uid) /\
    others (patch_visibility req) = notes_of_others (db w) (JStr uid) /\
    others (patch_publish req) = notes_of_others (db w) (JStr uid) /\
    others (delete_note req) = notes_of_others (db w) (JStr uid).
Proof.
  intros w req uid Hid others. subst others. cbv beta.
  repeat split; apply run_leaves_others.
  - apply (post_notes_leaves uid req Hid).
  - apply (put_note_leaves uid req Hid).
  - apply (post_autosave_leaves uid req Hid).
  - apply (patch_visibility_leaves uid req Hid).
  - apply (patch_publish_leaves uid req Hid).
  - apply (delete_note_leaves uid req Hid).
Qed.

Lemma writes_leave_the_notes_of_others_witness :
  let req := Sample.request [("id", "2")] []
               (JObj [("title", JStr "mine now"); ("user_id", JStr "u2")]) in
  let others p := notes_of_others (db (final (run memory p Sample.world))) (JStr "u1") in
  others (post_notes req) = [Sample.note 2 "u2" false false 11 11 JNull] /\
  others (put_note req) = [Sample.note 2 "u2" false false 11 11 JNull] /\
  others (post_autosave req) = [Sample.note 2 "u2" false false 11 11 JNull] /\
  others (patch_visibility req) = [Sample.note 2 "u2" false false 11 11 JNull] /\
  others (patch_publish req) = [Sample.note 2 "u2" false false 11 11 JNull] /\
  others (delete_note req) = [Sample.note 2 "u2" false false 11 11 JNull].
Proof.
  exact (writes_leave_the_notes_of_others Sample.world
           (Sample.request [("id", "2")] []
              (JObj [("title", JStr "mine now"); ("user_id", JStr "u2")]))
           "u1" eq_refl).
Defined.

(** ** Notes: composition of the routes *)

Lemma matches_with_table (s : Store) (name : string) (t : Table) (fs : list Filter) (r : jsval) :
  matches (with_table s name t) fs r = matches s fs r.
Proof. reflexivity. Qed.

(** A [.single()] query that no row matches answers with an error. *)
Lemma single_none (s : Store) (t : Table) (q : Query) (c : Columns) :
  q_single q = true -> q_range q = None -> q_limit q = None -> q_order q = None ->
  (forall r, In r (t_rows t) -> matches s (q_filters q) r = false) ->
  exists e, exec_select s t q c false = reply_error e.
Proof.
  intros Hs Hr Hl Ho Hnone. unfold exec_select.
  destruct (andb (embeds c) (negb (relationships s))); [eauto|].
  rewrite Hr, Hl, Ho, (filter_none _ _ Hnone). cbn [ordered ranged limited map].
  unfold finish. rewrite Hs. eauto.
Qed.

(** What a delete does in the in-memory store. *)
Lemma memory_delete (w : World) (q : Query) (t : Table) :
  table (q_table q) (tables (db w)) = Some t ->
  q_verb q = Delete -> q_returning q = false ->
  on_db memory w q
  = (Resolved (reply_ok JNull),
     with_db w (with_table (db w) (q_table q)
                  (with_rows t (filter (fun r => negb (matches (db w) (q_filters q) r)) (t_rows t))
                             (t_serial t)))).
Proof.
  intros Ht Hv Hret. cbn [on_db memory]. unfold exec. rewrite Ht, Hv, Hret. reflexivity.
Qed.

(** What an update does in the in-memory store. *)
Lemma memory_update (w : World) (q : Query) (t : Table) (patch : jsval) :
  table (q_table q) (tables (db w)) = Some t ->
  q_verb q = Update patch -> q_returning q = true -> q_single q = false ->
  on_db memory w q
  = (Resolved (reply_ok (JArr (map (patched patch)
                                  (filter (matches (db w) (q_filters q)) (t_rows t))))),
     with_db w (with_table (db w) (q_table q)
                  (with_rows t (map (fun r => if matches (db w) (q_filters q) r
                                              then patched patch r else r) (t_rows t))
                             (t_serial t)))).
Proof.
  intros Ht Hv Hret Hs. cbn [on_db memory]. unfold exec. rewrite Ht, Hv, Hret.
  unfold finish. rewrite Hs. reflexivity.
Qed.

Lemma table_with_table (w : World) (name : string) (t : Table) :
  table name (tables (db (with_db w (with_table (db w) name t)))) = Some t.
Proof. cbn [db with_db with_table tables]. apply table_set_table. Qed.

(** X17.  A note that its owner has deleted is gone: after
    [DELETE /api/notes/:id], whatever it answered, the same caller's
    [GET /api/notes/:id] answers 404. *)
Theorem deleted_note_is_not_found :
  forall (w : World) (req : Request),
    let after := final (run memory (delete_note req) w) in
    result (run memory (get_note req) after)
    = Resolved (not_found "Note not found or access denied").
Proof.
  intros w req after. subst after.
  assert (Hget : forall w1,
             (forall t1, table "posts" (tables (db w1)) = Some t1 ->
                         forall r, In r (t_rows t1) ->
                                   matches (db w1)
                                     [FEq "id" (lookup "id" (req_params req));
                                      FEq "user_id" (prop "id" (req_user req))] r = false) ->
             result (run memory (get_note req) w1)
             = Resolved (not_found "Note not found or access denied")).
  { intros w1 Hnone. unfold get_note, await_db. cbn [bind try_catch].
    match goal with
    | |- context [run memory (Db ?q ?k) w1] =>
        rewrite (memory_select_run w1 q k star_joined false eq_refl)
    end.
    cbn [q_table from eq_ single].
    destruct (table "posts" (tables (db w1))) as [t1|] eqn:Ht1; [|reflexivity].
    match goal with
    | |- context [exec_select (db w1) t1 ?q star_joined false] =>
        destruct (single_none (db w1) t1 q star_joined eq_refl eq_refl eq_refl eq_refl
                    (Hnone t1 eq_refl)) as [e ->]
    end.
    reflexivity. }
  destruct (table "posts" (tables (db w))) as [t|] eqn:Ht.
  - unfold delete_note, await_db. cbn [bind try_catch run].
    match goal with
    | |- context [on_db memory w ?q] => rewrite (memory_delete w q t Ht eq_refl eq_refl)
    end.
    cbn [settle bind try_catch run logged final throw_if_error error reply_ok].
    apply Hget. intros t1 Ht1 r Hr.
    cbn [q_table from eq_] in Ht1. rewrite table_with_table in Ht1. injection Ht1 as <-.
    cbn [t_rows with_rows q_filters from eq_ app] in Hr.
    apply filter_In in Hr as [_ Hr]. apply negb_true_iff in Hr. exact Hr.
  - unfold delete_note, await_db. cbn [bind try_catch run].
    match goal with
    | |- context [on_db memory w ?q] => rewrite (memory_missing w q Ht)
    end.
    cbn [settle bind try_catch run logged final throw_if_error error reply_error server_error].
    apply Hget. intros t1 Ht1. rewrite Ht in Ht1. discriminate.
Qed.

(** X18.  Publishing is one-shot: after [PATCH /api/notes/:id/publish]
    the same request finds no draft any more.  Where the store has a
    [posts] table the second request answers 404 and changes nothing,
    whether or not the first one published anything. *)
Theorem publish_twice_finds_no_draft :
  forall (w : World) (req : Request) (t : Table),
    table "posts" (tables (db w)) = Some t ->
    let once := final (run memory (patch_publish req) w) in
    result (run memory (patch_publish req) once)
    = Resolved (not_found "Draft not found or access denied") /\
    final (run memory (patch_publish req) once) = once.
Proof.
  intros w req t Ht once. subst once.
  set (fs := [FEq "id" (lookup "id" (req_params req));
              FEq "user_id" (prop "id" (req_user req));
              FEq "is_draft" (JBool true)]).
  set (patch := obj [ ("is_draft", JBool false); ("updated_at", jint (clock w));
                      ("is_updated", JBool true) ]).
  set (t1 := with_rows t (map (fun r => if matches (db w) fs r then patched patch r else r)
                              (t_rows t)) (t_serial t)).
  assert (Hfirst : final (run memory (patch_publish req) w)
                   = with_db w (with_table (db w) "posts" t1)).
  { unfold patch_publish, new_Date, await_db. cbn [bind try_catch run].
    match goal with
    | |- context [on_db memory w ?q] =>
        rewrite (memory_update w q t _ Ht eq_refl eq_refl eq_refl)
    end.
    cbn [settle bind try_catch run logged final throw_if_error error reply_ok data].
    match goal with
    | |- context [no_rows ?d] => destruct (no_rows d)
    end; reflexivity. }
  rewrite Hfirst.
  assert (Hnone : forall r, In r (t_rows t1) ->
                            matches (db (with_db w (with_table (db w) "posts" t1))) fs r = false).
  { intros r Hr. subst t1. cbn [t_rows with_rows] in Hr.
    apply in_map_iff in Hr as (r0 & <- & _).
    cbn [db with_db]. rewrite matches_with_table.
    destruct (matches (db w) fs r0) eqn:Hm; [|exact Hm].
    unfold matches, fs. cbn [forallb holds].
    assert (Hdraft : prop "is_draft" (patched patch r0) = JBool false).
    { subst patch. literal_object.
      rewrite (patched_prop "is_draft" (JBool false)); [reflexivity|distinct_keys|reflexivity|discriminate]. }
    rewrite Hdraft. cbn [sql_eq text_of String.eqb Ascii.eqb Bool.eqb].
    rewrite !andb_false_r. reflexivity. }
  unfold patch_publish, new_Date, await_db. cbn [bind try_catch run].
  match goal with
  | |- context [on_db memory ?w1 ?q] =>
      rewrite (memory_update_no_match w1 q t1 _ (table_with_table w "posts" t1)
                 eq_refl eq_refl eq_refl Hnone)
  end.
  split; reflexivity.
Qed.

Lemma publish_twice_witness :
  let req := Sample.request [("id", "4")] [] JNull in
  let once := final (run memory (patch_publish req) Fixture.site) in
  status_of (result (run memory (patch_publish req) Fixture.site)) = Some 200 /\
  result (run memory (patch_publish req) once)
  = Resolved (not_found "Draft not found or access denied") /\
  final (run memory (patch_publish req) once) = once.
Proof.
  split; [reflexivity|].
  exact (publish_twice_finds_no_draft Fixture.site (Sample.request [("id", "4")] [] JNull)
           Fixture.notes eq_refl).
Defined.

Lemma matches_id_owner (s : Store) (id userId r : jsval) :
  matches s [FEq "id" id; FEq "user_id" userId] r
  = sql_eq (prop "id" r) id && sql_eq (prop "user_id" r) userId.
Proof. unfold matches. cbn [forallb holds]. rewrite andb_true_r. reflexivity. Qed.

(** X19.  [PATCH /api/notes/:id/visibility] answers 200 when the
    caller owns a note with that id and 404 otherwise.  Afterwards
    every note of the caller with that id carries a share token that
    is the fresh random text when [is_public] of the body is truthy
    and [null] when it is not (a body without [is_public] included),
    and an [is_public] column equal to the value sent, when one was
    sent; the 200 answer reports that token. *)
Theorem visibility_sets_or_clears_the_share_token :
  forall (w : World) (req : Request) (t : Table),
    table "posts" (tables (db w)) = Some t ->
    let id := lookup "id" (req_params req) in
    let userId := prop "id" (req_user req) in
    let is_public := prop "is_public" (req_body req) in
    let token := if truthy is_public then JStr (entropy w) else JNull in
    let out := run memory (patch_visibility req) w in
    status_of (result out)
    = Some (if existsb (fun r => sql_eq (prop "id" r) id && sql_eq (prop "user_id" r) userId)
                       (t_rows t)
            then 200 else 404) /\
    (status_of (result out) = Some 200 ->
     prop "public_share_token" (body_of (result out)) = token) /\
    (forall r, In r (rows_of (db (final out)) "posts") ->
               sql_eq (prop "id" r) id = true -> sql_eq (prop "user_id" r) userId = true ->
               prop "public_share_token" r = token /\
               (is_public <> JUndef -> prop "is_public" r = to_json is_public)).
Proof.
  intros w req t Ht id userId is_public token out.
  set (patch := obj [ ("is_public", is_public); ("public_share_token", token);
                      ("updated_at", jint (clock w)) ]).
  set (hit := matches (db w) [FEq "id" id; FEq "user_id" userId]).
  assert (Htoken : token <> JUndef) by (subst token; destruct (truthy is_public); discriminate).
  assert (Hpatched : forall r, prop "public_share_token" (patched patch r) = token /\
                               (is_public <> JUndef ->
                                prop "is_public" (patched patch r) = to_json is_public)).
  { intro r. subst patch. literal_object. split.
    - rewrite (patched_prop "public_share_token" token);
        [|distinct_keys|reflexivity|exact Htoken].
      subst token. destruct (truthy is_public); reflexivity.
    - intro Hdef. apply patched_prop; [distinct_keys|reflexivity|exact Hdef]. }
  assert (Hrun : result out
                 = Resolved (if no_rows (JArr (map (patched patch) (filter hit (t_rows t))))
                             then not_found "Note not found or access denied"
                             else json (obj [
                                    ("message", JStr (if truthy is_public then "Note made public"
                                                      else "Note made private"));
                                    ("public_share_token",
                                     prop "public_share_token"
                                       (first_row (JArr (map (patched patch)
                                                            (filter hit (t_rows t))))));
                                    ("is_public",
                                     prop "is_public"
                                       (first_row (JArr (map (patched patch)
                                                            (filter hit (t_rows t)))))) ])) /\
                 final out
                 = with_db w (with_table (db w) "posts"
                                (with_rows t (map (fun r => if hit r then patched patch r else r)
                                                  (t_rows t)) (t_serial t)))).
  { subst out patch token hit is_public id userId.
    unfold patch_visibility, new_Date, randomBytes_hex, await_db.
    destruct (truthy (prop "is_public" (req_body req))); cbn [bind try_catch run];
      (match goal with
       | |- context [on_db memory w ?q] =>
           rewrite (memory_update w q t _ Ht eq_refl eq_refl eq_refl)
       end);
      cbn [settle bind try_catch run logged result final throw_if_error error reply_ok data
           on_random on_date memory q_filters q_table from eq_ returning app];
      match goal with
      | |- context [no_rows ?d] => destruct (no_rows d)
      end; split; reflexivity. }
  destruct Hrun as [Hres Hfin]. rewrite Hres, Hfin. clear Hres Hfin.
  assert (Hex : existsb (fun r => sql_eq (prop "id" r) id && sql_eq (prop "user_id" r) userId)
                        (t_rows t)
                = negb (no_rows (JArr (map (patched patch) (filter hit (t_rows t)))))).
  { induction (t_rows t) as [|r rows IH]; [reflexivity|].
    cbn [existsb filter]. unfold hit at 1. rewrite matches_id_owner.
    destruct (sql_eq (prop "id" r) id && sql_eq (prop "user_id" r) userId);
      [reflexivity|exact IH]. }
  rewrite Hex. split; [|split].
  - destruct (no_rows _); reflexivity.
  - destruct (filter hit (t_rows t)) as [|r0 rest]; cbn [map no_rows first_row];
      [discriminate|].
    intros _. cbn [body_of payload json status_json]. literal_object.
    rewrite to_json_obj. cbn [prop].
    rewrite (json_field_some "public_share_token" (prop "public_share_token" (patched patch r0)));
      [|reflexivity|rewrite (proj1 (Hpatched r0)); exact Htoken].
    rewrite (proj1 (Hpatched r0)). subst token. destruct (truthy is_public); reflexivity.
  - intros r Hr Hid Hown. cbn [db with_db] in Hr. rewrite rows_of_posts in Hr.
    cbn [t_rows with_rows] in Hr. apply in_map_iff in Hr as (r0 & <- & _).
    destruct (hit r0) eqn:Hhit; [apply Hpatched|].
    unfold hit in Hhit. rewrite matches_id_owner, Hid, Hown in Hhit. discriminate.
Qed.

Lemma visibility_witness :
  let req := Sample.request [("id", "3")] [] (JObj [("is_public", JBool true)]) in
  let out := run memory (patch_visibility req) Sample.world in
  status_of (result out) = Some 200 /\
  prop "public_share_token" (body_of (result out)) = JStr "5f2d" /\
  map (prop "public_share_token")
      (filter (fun r => sql_eq (prop "id" r) (JStr "3")) (rows_of (db (final out)) "posts"))
  = [JStr "5f2d"].
Proof.
  pose proof (visibility_sets_or_clears_the_share_token Sample.world
                (Sample.request [("id", "3")] [] (JObj [("is_public", JBool true)]))
                Sample.posts eq_refl) as (Hs & Hb & _).
  split; [exact Hs|]. split; [exact (Hb Hs)|]. reflexivity.
Defined.

(** ** Notes: the two routes that show one note *)

(** The answer to a [.single()] query without order, range and
    limit. *)
Lemma single_select_reply (s : Store) (t : Table) (q : Query) (c : Columns) :
  q_single q = true -> q_range q = None -> q_limit q = None -> q_order q = None ->
  exec_select s t q c false
  = if andb (embeds c) (negb (relationships s))
    then reply_error (relationship_missing (q_table q))
    else match filter (matches s (q_filters q)) (t_rows t) with
         | [r] => reply_ok (shaped s c r)
         | _ => reply_error not_single
         end.
Proof.
  intros Hs Hr Hl Ho. unfold exec_select.
  rewrite Hr, Hl, Ho. cbn [ordered ranged limited]. unfold finish. rewrite Hs.
  destruct (andb (embeds c) (negb (relationships s))); [reflexivity|].
  destruct (filter (matches s (q_filters q)) (t_rows t)) as [|r [|r' rest]]; reflexivity.
Qed.

Lemma length_one (l : list jsval) :
  (length l =? 1)%nat = true -> exists r, l = [r].
Proof. destruct l as [|r [|r' rest]]; try discriminate. eauto. Qed.

Lemma length_not_one (l : list jsval) :
  (length l =? 1)%nat = false -> match l with [r] => False | _ => True end.
Proof. destruct l as [|r [|r' rest]]; try discriminate; auto. Qed.

(** A column of a note in the view of the note. *)
Lemma full_view_column (k : string) (v post : jsval) :
  field k (own_fields post) = Some v -> v <> JUndef ->
  (k =? "labels")%string = false -> (k =? "display_date")%string = false ->
  (k =? "date_type")%string = false ->
  prop k (to_json (full_view post)) = to_json v.
Proof.
  intros Hk Hv H1 H2 H3. unfold full_view, spread. cbn [fold_left fst snd].
  rewrite to_json_obj. cbn [prop].
  rewrite (json_field_some k v); [reflexivity| |exact Hv].
  rewrite !field_set_other by assumption. exact Hk.
Qed.

Lemma shaped_joined_column (s : Store) (k : string) (v row : jsval) :
  prop k row = v -> v <> JUndef ->
  (k =? "category")%string = false -> (k =? "post_labels")%string = false ->
  field k (own_fields (shaped s star_joined row)) = Some v.
Proof.
  intros Hk Hv H1 H2. unfold shaped, spread.
  cbn [named with_category with_post_labels star_joined fold_left fst snd own_fields].
  rewrite !field_set_other by assumption. apply prop_field; assumption.
Qed.

(** X20.  [GET /api/notes/:id] answers 200 exactly when the embedded
    resources can be resolved and exactly one note has the id of the
    request and belongs to the caller; in every other case (no such
    note, a note of someone else, no table, relationships not
    declared) it answers the same 404.  The 200 answer shows the
    columns of that note. *)
Theorem get_note_shows_the_callers_note_only :
  forall (w : World) (req : Request),
    let mine := filter (fun r => sql_eq (prop "id" r) (lookup "id" (req_params req)) &&
                                 sql_eq (prop "user_id" r) (prop "id" (req_user req)))
                       (rows_of (db w) "posts") in
    let out := run memory (get_note req) w in
    final out = w /\
    if relationships (db w) && (length mine =? 1)%nat then
      exists note,
        mine = [note] /\
        result out = Resolved (json (full_view (shaped (db w) star_joined note))) /\
        forall k v, prop k note = v -> v <> JUndef ->
                    ~ In k ["category"; "post_labels"; "labels"; "display_date"; "date_type"] ->
                    prop k (body_of (result out)) = to_json v
    else result out = Resolved (not_found "Note not found or access denied").
Proof.
  intros w req mine out.
  assert (Hfinal : final out = w).
  { subst out. unfold get_note, await_db. cbn [bind try_catch run].
    destruct (table "posts" (tables (db w))) as [t|] eqn:Ht.
    - match goal with
      | |- context [on_db memory w ?q] =>
          rewrite (memory_select w q t star_joined false Ht eq_refl)
      end.
      cbn [settle bind try_catch]. destruct (error _); [reflexivity|].
      destruct (negb _); reflexivity.
    - match goal with
      | |- context [on_db memory w ?q] => rewrite (memory_missing w q Ht)
      end.
      reflexivity. }
  split; [exact Hfinal|]. subst out. clear Hfinal.
  unfold get_note, await_db. cbn [bind try_catch].
  match goal with
  | |- context [run memory (Db ?q ?k) w] =>
      rewrite (memory_select_run w q k star_joined false eq_refl)
  end.
  cbn [q_table from eq_ single]. subst mine. unfold rows_of.
  destruct (table "posts" (tables (db w))) as [t|] eqn:Ht;
    [|rewrite andb_false_r; reflexivity].
  rewrite single_select_reply by reflexivity.
  cbn [q_filters from eq_ single app embeds star_joined with_category with_post_labels orb andb].
  rewrite (filter_ext _ _ (matches_id_owner (db w) _ _)).
  destruct (relationships (db w)); cbn [negb andb]; [|reflexivity].
  match goal with
  | |- context [(length ?l =? 1)%nat] => destruct (length l =? 1)%nat eqn:Hlen
  end.
  - destruct (length_one _ Hlen) as [note Hnote]. rewrite Hnote.
    cbn [settle bind try_catch error reply_ok data].
    rewrite (shaped_embeds_truthy (db w) star_joined note eq_refl).
    cbn [negb try_catch run result]. exists note. split; [reflexivity|]. split; [reflexivity|].
    intros k v Hk Hv Hnot. cbn [body_of payload json status_json].
    cbn [In] in Hnot.
    apply full_view_column; [apply shaped_joined_column; [exact Hk|exact Hv| |]|exact Hv| | |];
      apply String.eqb_neq; intro; subst k; tauto.
  - apply length_not_one in Hlen.
    match goal with
    | |- context [filter ?f (t_rows t)] => destruct (filter f (t_rows t)) as [|r [|r' rest]]
    end; [reflexivity|destruct Hlen|reflexivity].
Qed.

Lemma pick_value (k : string) (cols : list string) (r : jsval) :
  existsb (String.eqb k) cols = true ->
  field k (own_fields (pick cols r))
  = Some (match prop k r with JUndef => JNull | v => v end).
Proof.
  unfold pick. cbn [own_fields].
  induction cols as [|c cols IH]; cbn [existsb map field]; [discriminate|].
  destruct (String.eqb_spec k c) as [->|Hne]; [reflexivity|exact IH].
Qed.

Lemma matches_token_public (s : Store) (token r : jsval) :
  matches s [FEq "public_share_token" token; FEq "is_public" (JBool true)] r
  = sql_eq (prop "public_share_token" r) token && sql_eq (prop "is_public" r) (JBool true).
Proof. unfold matches. cbn [forallb holds]. rewrite andb_true_r. reflexivity. Qed.

(** X21.  [GET /api/public/:token] serves a note only through its own
    share token and only while it is public: it answers 200 exactly
    when the embedded resources can be resolved and exactly one note
    carries the token of the request and is public, with the six
    columns of the public view taken from that note, and 404 in every
    other case.  A note without a token is never served. *)
Theorem get_public_serves_the_public_note_of_the_token :
  forall (w : World) (req : Request),
    let token := lookup "token" (req_params req) in
    let shared := filter (fun r => sql_eq (prop "public_share_token" r) token &&
                                   sql_eq (prop "is_public" r) (JBool true))
                         (rows_of (db w) "posts") in
    let out := run memory (get_public req) w in
    final out = w /\
    if relationships (db w) && (length shared =? 1)%nat then
      exists note,
        shared = [note] /\
        nullish (prop "public_share_token" note) = false /\
        result out = Resolved (json (full_view (shaped (db w) public_columns note))) /\
        forall k v, In k ["id"; "title"; "content"; "is_encrypted"; "created_at"; "updated_at"] ->
                    prop k note = v -> v <> JUndef ->
                    prop k (body_of (result out)) = to_json v
    else result out = Resolved (not_found "Public note not found").
Proof.
  intros w req token shared out. subst token.
  assert (Hfinal : final out = w).
  { subst out. unfold get_public, await_db. cbn [bind try_catch run].
    destruct (table "posts" (tables (db w))) as [t|] eqn:Ht.
    - match goal with
      | |- context [on_db memory w ?q] =>
          rewrite (memory_select w q t public_columns false Ht eq_refl)
      end.
      cbn [settle bind try_catch]. destruct (error _); [reflexivity|].
      destruct (negb _); reflexivity.
    - match goal with
      | |- context [on_db memory w ?q] => rewrite (memory_missing w q Ht)
      end.
      reflexivity. }
  split; [exact Hfinal|]. subst out. clear Hfinal.
  unfold get_public, await_db. cbn [bind try_catch].
  match goal with
  | |- context [run memory (Db ?q ?k) w] =>
      rewrite (memory_select_run w q k public_columns false eq_refl)
  end.
  cbn [q_table from eq_ single]. subst shared. unfold rows_of.
  destruct (table "posts" (tables (db w))) as [t|] eqn:Ht;
    [|rewrite andb_false_r; reflexivity].
  rewrite single_select_reply by reflexivity.
  cbn [q_filters from eq_ single app embeds public_columns with_category with_post_labels
       orb andb].
  rewrite (filter_ext _ _ (matches_token_public (db w) _)).
  destruct (relationships (db w)); cbn [negb andb]; [|reflexivity].
  match goal with
  | |- context [(length ?l =? 1)%nat] => destruct (length l =? 1)%nat eqn:Hlen
  end.
  - destruct (length_one _ Hlen) as [note Hnote]. rewrite Hnote.
    cbn [settle bind try_catch error reply_ok data].
    match goal with
    | |- context [truthy (shaped ?s ?c ?r)] => rewrite (shaped_embeds_truthy s c r eq_refl)
    end.
    cbn [negb try_catch run result]. exists note. split; [reflexivity|]. split.
    { assert (Hin : In note [note]) by (left; reflexivity).
      rewrite <- Hnote in Hin. apply filter_In in Hin as [_ Hm].
      apply andb_prop in Hm as [Hm _].
      destruct (prop "public_share_token" note); try reflexivity;
        unfold sql_eq in Hm; destruct (text_of _); discriminate. }
    split; [reflexivity|].
    intros k v Hk Hv Hdef. cbn [body_of payload json status_json].
    assert (Hcol : existsb (String.eqb k)
                     ["id"; "title"; "content"; "is_encrypted"; "created_at"; "updated_at"]
                   = true).
    { apply existsb_exists. exists k. split; [exact Hk|apply String.eqb_refl]. }
    assert (Hne : forall k', ~ In k' ["id"; "title"; "content"; "is_encrypted"; "created_at";
                                      "updated_at"] -> (k =? k')%string = false).
    { intros k' Hk'. apply String.eqb_neq. intro; subst k'. exact (Hk' Hk). }
    apply full_view_column; [|exact Hdef| | |];
      try (apply Hne; cbn [In]; intuition discriminate).
    unfold shaped, spread.
    cbn [named with_category with_post_labels public_columns fold_left fst snd own_fields].
    rewrite !field_set_other by (apply Hne; cbn [In]; intuition discriminate).
    fold (own_fields (pick ["id"; "title"; "content"; "is_encrypted"; "created_at"; "updated_at"]
                           note)).
    rewrite (pick_value k _ note Hcol), Hv. destruct v; try reflexivity. contradiction.
  - apply length_not_one in Hlen.
    match goal with
    | |- context [filter ?f (t_rows t)] => destruct (filter f (t_rows t)) as [|r [|r' rest]]
    end; [reflexivity|destruct Hlen|reflexivity].
Qed.

(** X30.  Where the store has a [posts] table,
    [DELETE /api/notes/:id] removes exactly the rows that have the id
    of the request and belong to the caller, keeps every other row in
    place, and answers 200 whether or not a row was removed. *)
Theorem delete_note_removes_the_callers_rows_of_that_id :
  forall (w : World) (req : Request) (t : Table),
    table "posts" (tables (db w)) = Some t ->
    let out := run memory (delete_note req) w in
    result out = Resolved (json (obj [("message", JStr "Note deleted successfully")])) /\
    rows_of (db (final out)) "posts"
    = filter (fun r => negb (sql_eq (prop "id" r) (lookup "id" (req_params req)) &&
                             sql_eq (prop "user_id" r) (prop "id" (req_user req))))
             (t_rows t).
Proof.
  intros w req t Ht out. subst out.
  unfold delete_note, await_db. cbn [bind try_catch run].
  match goal with
  | |- context [on_db memory w ?q] => rewrite (memory_delete w q t Ht eq_refl eq_refl)
  end.
  cbn [settle bind try_catch run logged result final throw_if_error error reply_ok
       db with_db q_table q_filters from eq_ app].
  split; [reflexivity|]. rewrite rows_of_with_table. cbn [t_rows with_rows].
  apply filter_ext. intro r. rewrite matches_id_owner. reflexivity.
Qed.

Lemma delete_note_witness :
  let out := run memory (delete_note (Sample.request [("id", "3")] [] JNull)) Sample.world in
  result out = Resolved (json (obj [("message", JStr "Note deleted successfully")])) /\
  rows_of (db (final out)) "posts"
  = [ Sample.note 1 "u1" true true 10 20 (JStr "aa11"); Sample.note 2 "u2" false false 11 11 JNull ].
Proof.
  exact (delete_note_removes_the_callers_rows_of_that_id Sample.world
           (Sample.request [("id", "3")] [] JNull) Sample.posts eq_refl).
Defined.

(** ** The list route: whose notes, which notes, how many *)

Lemma in_firstn (n : nat) (l : list jsval) (x : jsval) : In x (firstn n l) -> In x l.
Proof.
  revert l; induction n as [|n IH]; intros [|y l]; cbn [firstn In]; try tauto.
  intros [->|Hx]; auto.
Qed.

Lemma in_skipn (n : nat) (l : list jsval) (x : jsval) : In x (skipn n l) -> In x l.
Proof.
  revert l; induction n as [|n IH]; intros [|y l]; cbn [skipn In]; try tauto.
  intro Hx. right. apply IH, Hx.
Qed.

Lemma ranged_subset (r : option (jsnum * jsnum)) (l page : list jsval) :
  ranged r l = inr page -> forall x, In x page -> In x l.
Proof.
  destruct r as [[[lo| | |] [hi| | |]]|]; cbn [ranged]; try discriminate.
  - destruct (andb _ _); [|discriminate]. intros [= <-] x Hx.
    apply in_firstn, in_skipn in Hx. exact Hx.
  - intros [= <-]. auto.
Qed.

(** The rows behind an answer of the joined query: rows of the table
    that pass every filter of the query. *)
Lemma joined_rows (s : Store) (t : Table) (q : Query) (lo hi : jsnum) :
  relationships s = true ->
  q_single q = false -> q_limit q = None ->
  let reply := exec_select s t (range lo hi q) star_joined false in
  error reply = None ->
  exists rows,
    data reply = JArr (map (shaped s star_joined) rows) /\
    forall r, In r rows -> In r (t_rows t) /\ matches s (q_filters q) r = true.
Proof.
  intros Hrel Hsingle Hlimit reply. subst reply. unfold exec_select.
  cbn [embeds star_joined with_category with_post_labels orb andb]. rewrite Hrel.
  unfold finish. cbn [negb q_range q_order q_filters q_limit q_single range].
  rewrite Hsingle, Hlimit.
  destruct (ranged _ _) as [e|page] eqn:E; [discriminate|].
  intros _. exists page. cbn [limited data reply_ok]. split; [reflexivity|].
  intros r Hr. apply (ranged_subset _ _ _ E) in Hr.
  apply (Permutation_in _ (ordered_perm _ _)) in Hr.
  apply filter_In in Hr. exact Hr.
Qed.

(** The filters of the joined query, one by one. *)
Lemma joined_filters (s : Store) (userId drafts visibility category search r : jsval) :
  matches s (q_filters (joined_query userId drafts visibility category search)) r = true ->
  sql_eq (prop "user_id" r) userId = true /\
  (drafts = JStr "true" -> sql_eq (prop "is_draft" r) (JBool true) = true) /\
  (drafts = JStr "false" -> sql_eq (prop "is_draft" r) (JBool false) = true) /\
  (visibility = JStr "public" -> sql_eq (prop "is_public" r) (JBool true) = true) /\
  (visibility = JStr "private" -> sql_eq (prop "is_public" r) (JBool false) = true) /\
  (truthy category = true -> sql_eq (prop "category_id" r) category = true).
Proof.
  unfold matches. rewrite forallb_forall. intro Hall.
  assert (Hin : forall f, In f (q_filters (joined_query userId drafts visibility category search)) ->
                          holds s f r = true) by exact Hall.
  clear Hall. unfold joined_query in Hin.
  assert (Hstep_or : forall e q f, In f (q_filters q) -> In f (q_filters (or_ e q))).
  { intros e q f Hf. cbn [q_filters or_]. apply in_or_app. left; exact Hf. }
  assert (Hstep_eq : forall c v q f, In f (q_filters q) -> In f (q_filters (eq_ c v q))).
  { intros c v q f Hf. cbn [q_filters eq_]. apply in_or_app. left; exact Hf. }
  assert (Hlast : forall c v q, In (FEq c v) (q_filters (eq_ c v q))).
  { intros c v q. cbn [q_filters eq_]. apply in_or_app. right; left; reflexivity. }
  assert (Hsearch : forall q f, In f (q_filters q) ->
             In f (q_filters (match search with
                              | JStr s0 => if truthy search
                                           then or_ ("title.ilike.%" ++ s0 ++ "%,content.ilike.%" ++ s0 ++ "%") q
                                           else q
                              | _ => q
                              end))).
  { intros q f Hf. destruct search; try exact Hf. destruct (truthy _); [apply Hstep_or|]; exact Hf. }
  assert (Hcat : forall q f, In f (q_filters q) ->
             In f (q_filters (if truthy category then eq_ "category_id" category q else q))).
  { intros q f Hf. destruct (truthy category); [apply Hstep_eq|]; exact Hf. }
  assert (Hvis : forall q f, In f (q_filters q) ->
             In f (q_filters (if strict_eq_str visibility "public"
                              then eq_ "is_public" (JBool true) q
                              else if strict_eq_str visibility "private"
                                   then eq_ "is_public" (JBool false) q else q))).
  { intros q f Hf. destruct (strict_eq_str visibility "public"); [apply Hstep_eq; exact Hf|].
    destruct (strict_eq_str visibility "private"); [apply Hstep_eq|]; exact Hf. }
  assert (Hdr : forall q f, In f (q_filters q) ->
             In f (q_filters (if strict_eq_str drafts "true"
                              then eq_ "is_draft" (JBool true) q
                              else if strict_eq_str drafts "false"
                                   then eq_ "is_draft" (JBool false) q else q))).
  { intros q f Hf. destruct (strict_eq_str drafts "true"); [apply Hstep_eq; exact Hf|].
    destruct (strict_eq_str drafts "false"); [apply Hstep_eq|]; exact Hf. }
  cbn [q_filters order] in Hin.
  split; [|split; [|split; [|split; [|split]]]].
  - apply (Hin (FEq "user_id" userId)).
    apply Hsearch, Hcat, Hvis, Hdr, Hlast.
  - intros ->. apply (Hin (FEq "is_draft" (JBool true))).
    apply Hsearch, Hcat, Hvis. cbn [strict_eq_str String.eqb Ascii.eqb Bool.eqb]. apply Hlast.
  - intros ->. apply (Hin (FEq "is_draft" (JBool false))).
    apply Hsearch, Hcat, Hvis. cbn [strict_eq_str String.eqb Ascii.eqb Bool.eqb]. apply Hlast.
  - intros ->. apply (Hin (FEq "is_public" (JBool true))).
    apply Hsearch, Hcat. cbn [strict_eq_str String.eqb Ascii.eqb Bool.eqb]. apply Hlast.
  - intros ->. apply (Hin (FEq "is_public" (JBool false))).
    apply Hsearch, Hcat. cbn [strict_eq_str String.eqb Ascii.eqb Bool.eqb]. apply Hlast.
  - intros Hc. apply (Hin (FEq "category_id" category)).
    apply Hsearch. rewrite Hc. apply Hlast.
Qed.

(** The normal path, with the rows behind the page. *)
Lemma get_notes_related_rows (w : World) (req : Request) (t : Table) :
  table "posts" (tables (db w)) = Some t ->
  relationships (db w) = true ->
  let userId := prop "id" (req_user req) in
  let q := joined_query userId (lookup "drafts" (req_query req))
             (lookup "visibility" (req_query req)) (lookup "category" (req_query req))
             (lookup "search" (req_query req)) in
  (exists msg, result (run memory (get_notes req) w)
               = Resolved (status_json 500 (error_body msg))) \/
  (exists rows items,
      let counted := len (notes_of (db w) userId) in
      let totalCount := if counted =? 0 then len items else counted in
      result (run memory (get_notes req) w)
      = Resolved (json (page_of items
                          (pagination (page_number req) (ceil_div totalCount (limit_of req))
                             totalCount (limit_of req)
                             (num_lt (page_number req) (ceil_div totalCount (limit_of req)))
                             (num_gt (page_number req) (Fin 1))))) /\
      (forall i, In i items -> In i (map list_view (map (shaped (db w) star_joined) rows))) /\
      (forall r, In r rows -> In r (t_rows t) /\ matches (db w) (q_filters q) r = true)).
Proof.
  intros Ht Hrel userId q. subst userId q.
  unfold get_notes, await_db. cbn [bind try_catch].
  fold (limit_of req). fold (page_number req).
  rewrite (run_db memory _ _ w w _ (memory_select w probe_query t _ _ Ht eq_refl)).
  cbn [settle bind try_catch]. rewrite probe_reply.
  cbn [bind try_catch].
  rewrite (run_db memory _ _ w w _ (memory_select w (count_query _) t _ _ Ht eq_refl)).
  cbn [settle bind try_catch]. rewrite count_reply. cbn [error count bind try_catch].
  assert (Hcount : filter (matches (db w) [FEq "user_id" (prop "id" (req_user req))]) (t_rows t)
                   = notes_of (db w) (prop "id" (req_user req))).
  { unfold notes_of, rows_of. rewrite Ht. apply filter_ext. intro r. apply matches_one_eq. }
  rewrite Hcount.
  match goal with
  | |- context [Db (range ?lo ?hi (joined_query ?u ?d ?v ?c ?s)) _] =>
      destruct (joined_query_shape u d v c s) as (Qt & Qv & _ & Ql & Qs);
      pose proof (memory_select w (range lo hi (joined_query u d v c s)) t star_joined false)
        as Hq;
      pose proof (joined_rows (db w) t (joined_query u d v c s) lo hi Hrel Qs Ql) as Hrows;
      destruct (joined_reply (db w) t (joined_query u d v c s) lo (limit_of req) Hrel Qs Ql)
        as [(e & He & Hsig)|(rows0 & He & _ & _)]
  end.
  - rewrite (run_db memory _ _ w w _ (Hq ltac:(cbn [q_table range]; rewrite Qt; exact Ht)
                                        ltac:(cbn [q_verb range]; exact Qv))).
    cbn [settle bind try_catch]. rewrite He, Hsig.
    left. exists (message e). reflexivity.
  - rewrite (run_db memory _ _ w w _ (Hq ltac:(cbn [q_table range]; rewrite Qt; exact Ht)
                                        ltac:(cbn [q_verb range]; exact Qv))).
    cbn [settle bind try_catch]. rewrite He.
    destruct (Hrows He) as (rows & Hd & Hin). rewrite Hd. cbn [map_rows].
    set (labels := lookup "labels" (req_query req)).
    destruct labels as [| |b|n|csv| |]; cbn [bind try_catch run logged result];
      try (right; exists rows; eexists; split; [reflexivity|split; [auto|exact Hin]]).
    destruct (truthy (JStr csv)); cbn [bind try_catch run logged result];
      [|right; exists rows; eexists; split; [reflexivity|split; [auto|exact Hin]]].
    destruct (filter_by_labels _ (map list_view (map (shaped (db w) star_joined) rows)))
      as [kept|e] eqn:Hkept;
      cbn [settle bind try_catch run logged result].
    + right. exists rows, kept. split; [reflexivity|]. split; [|exact Hin].
      apply (filter_by_labels_subset _ _ _ Hkept).
    + left. exists (message e). reflexivity.
Qed.

Lemma notes_of_in (s : Store) (userId r : jsval) :
  In r (notes_of s userId) <->
  In r (rows_of s "posts") /\ sql_eq (prop "user_id" r) userId = true.
Proof.
  unfold notes_of.
  exact (filter_In (fun x => sql_eq (prop "user_id" x) userId) r (rows_of s "posts")).
Qed.

(** X22.  Every record of a 200 answer of [GET /api/notes] is the
    view of a note of the caller.  Where the embedded resources can be
    resolved it is the list view of a note that also passes the
    filters of the request: [drafts=true] and [drafts=false] select on
    [is_draft], [visibility=public] and [visibility=private] on
    [is_public], a non-empty [category] on [category_id].  Where they
    cannot, it is the degraded view, and the filters are not
    applied. *)
Theorem get_notes_lists_notes_of_the_caller_that_pass_the_filters :
  forall (w : World) (req : Request) (items : list jsval) (pg : jsval),
    result (run memory (get_notes req) w)
    = Resolved {| status := 200;
                  payload := JObj [ ("data", JArr items); ("pagination", pg) ] |} ->
    forall i, In i items ->
      exists r,
        In r (rows_of (db w) "posts") /\
        sql_eq (prop "user_id" r) (prop "id" (req_user req)) = true /\
        if relationships (db w) then
          i = to_json (list_view (shaped (db w) star_joined r)) /\
          (lookup "drafts" (req_query req) = JStr "true" ->
           sql_eq (prop "is_draft" r) (JBool true) = true) /\
          (lookup "drafts" (req_query req) = JStr "false" ->
           sql_eq (prop "is_draft" r) (JBool false) = true) /\
          (lookup "visibility" (req_query req) = JStr "public" ->
           sql_eq (prop "is_public" r) (JBool true) = true) /\
          (lookup "visibility" (req_query req) = JStr "private" ->
           sql_eq (prop "is_public" r) (JBool false) = true) /\
          (truthy (lookup "category" (req_query req)) = true ->
           sql_eq (prop "category_id" r) (lookup "category" (req_query req)) = true)
        else i = to_json (simple_view r).
Proof.
  intros w req items pg E i Hi.
  destruct (table "posts" (tables (db w))) as [t|] eqn:Ht.
  - destruct (relationships (db w)) eqn:Hrel.
    + destruct (get_notes_related_rows w req t Ht Hrel)
        as [(msg & E')|(rows & xs & E' & Hxs & Hrows)];
        rewrite E' in E; [discriminate E|].
      rewrite json_page in E. injection E as <- _.
      apply in_map_iff in Hi as (x & <- & Hx). apply Hxs in Hx.
      apply in_map_iff in Hx as (y & <- & Hy). apply in_map_iff in Hy as (r & <- & Hr).
      destruct (Hrows r Hr) as [Hin Hm].
      destruct (joined_filters _ _ _ _ _ _ _ Hm) as (Hown & Hrest).
      exists r. split; [unfold rows_of; rewrite Ht; exact Hin|]. split; [exact Hown|].
      split; [reflexivity|exact Hrest].
    + destruct (get_notes_unrelated w req t Ht Hrel) as [rq E'].
      rewrite E' in E. cbn [result] in E. rewrite json_page in E. injection E as <- _.
      apply in_map_iff in Hi as (x & <- & Hx).
      apply in_map_iff in Hx as (r & <- & Hr).
      apply (Permutation_in _ (sort_rows_perm _ _)) in Hr. apply notes_of_in in Hr as [Hin Hown].
      exists r. auto.
  - rewrite (get_notes_table_absent memory req w w (reply_error (table_missing "posts"))
               (table_missing "posts") (memory_missing w probe_query Ht) eq_refl eq_refl) in E.
    cbn [result] in E. rewrite json_page in E. injection E as <- _. destruct Hi.
Qed.

Lemma get_notes_lists_witness :
  exists r,
    In r (rows_of (db Sample.world) "posts") /\
    sql_eq (prop "user_id" r) (JStr "u1") = true /\
    to_json (list_view (shaped (db Sample.world) star_joined
                          (Sample.note 1 "u1" true true 10 20 (JStr "aa11"))))
    = to_json (list_view (shaped (db Sample.world) star_joined r)) /\
    sql_eq (prop "is_public" r) (JBool true) = true.
Proof.
  destruct (get_notes_lists_notes_of_the_caller_that_pass_the_filters Sample.world
              (Sample.request [] [("visibility", "public")] JNull) _ _ eq_refl
              (to_json (list_view (shaped (db Sample.world) star_joined
                                     (Sample.note 1 "u1" true true 10 20 (JStr "aa11")))))
              (or_introl eq_refl))
    as (r & Hin & Hown & Hview & _ & _ & Hpub & _).
  exists r. split; [exact Hin|]. split; [exact Hown|]. split; [exact Hview|].
  exact (Hpub eq_refl).
Defined.



(** ** The order of the list *)

Lemma Sorted_skipn (R : jsval -> jsval -> Prop) (n : nat) (l : list jsval) :
  Sorted R l -> Sorted R (skipn n l).
Proof.
  revert l. induction n as [|n IH]; intros l Hl; [exact Hl|].
  destruct l as [|x l]; [exact Hl|]. cbn [skipn]. apply IH. inversion Hl; assumption.
Qed.

Lemma Sorted_firstn (R : jsval -> jsval -> Prop) (n : nat) (l : list jsval) :
  Sorted R l -> Sorted R (firstn n l).
Proof.
  revert l. induction n as [|n IH]; intros l Hl; [constructor|].
  destruct l as [|x l]; [constructor|]. cbn [firstn].
  inversion Hl as [|x' l' Hl' Hx]; subst. constructor; [apply IH; exact Hl'|].
  destruct l as [|y l]; [destruct n; constructor|].
  destruct n; cbn [firstn]; constructor. inversion Hx; assumption.
Qed.

Lemma ranged_sorted (R : jsval -> jsval -> Prop) (r : option (jsnum * jsnum))
      (l page : list jsval) :
  ranged r l = inr page -> Sorted R l -> Sorted R page.
Proof.
  destruct r as [[[lo| | |] [hi| | |]]|]; cbn [ranged]; try discriminate.
  - destruct (andb _ _); [|discriminate]. intros [= <-] Hl.
    apply Sorted_firstn, Sorted_skipn, Hl.
  - intros [= <-]. auto.
Qed.

(** The rows behind an answer of the joined query come newest
    first. *)
Lemma joined_rows_sorted (s : Store) (t : Table) (q : Query) (lo hi : jsnum) :
  relationships s = true ->
  q_single q = false -> q_limit q = None -> q_order q = Some ("created_at", false) ->
  let reply := exec_select s t (range lo hi q) star_joined false in
  error reply = None ->
  exists rows,
    data reply = JArr (map (shaped s star_joined) rows) /\
    Sorted (fun a b => cell_leb (prop "created_at" b) (prop "created_at" a) = true) rows.
Proof.
  intros Hrel Hsingle Hlimit Horder reply. subst reply. unfold exec_select.
  cbn [embeds star_joined with_category with_post_labels orb andb]. rewrite Hrel.
  unfold finish. cbn [negb q_range q_order q_filters q_limit q_single range].
  rewrite Hsingle, Hlimit, Horder.
  destruct (ranged _ _) as [e|page] eqn:E; [discriminate|].
  intros _. exists page. cbn [limited data reply_ok]. split; [reflexivity|].
  apply (ranged_sorted _ _ _ _ E). cbn [ordered].
  exact (sort_rows_sorted (row_leb "created_at" false) (row_leb_total "created_at" false) _).
Qed.

(** X29.  A 200 answer of [GET /api/notes] to a request without a
    [labels] parameter lists the notes newest first: its records are
    the views, in order, of notes sorted by [created_at],
    descending. *)
Theorem get_notes_lists_the_newest_first :
  forall (w : World) (req : Request) (items : list jsval) (pg : jsval),
    lookup "labels" (req_query req) = JUndef ->
    result (run memory (get_notes req) w)
    = Resolved {| status := 200;
                  payload := JObj [ ("data", JArr items); ("pagination", pg) ] |} ->
    exists rows,
      Sorted (fun a b => cell_leb (prop "created_at" b) (prop "created_at" a) = true) rows /\
      items = map (fun r => to_json (if relationships (db w)
                                     then list_view (shaped (db w) star_joined r)
                                     else simple_view r)) rows.
Proof.
  intros w req items pg Hlabels E.
  destruct (table "posts" (tables (db w))) as [t|] eqn:Ht.
  - destruct (relationships (db w)) eqn:Hrel.
    + revert E. unfold get_notes, await_db. cbn [bind try_catch].
      rewrite Hlabels.
      rewrite (run_db memory _ _ w w _ (memory_select w probe_query t _ _ Ht eq_refl)).
      cbn [settle bind try_catch]. rewrite probe_reply.
      cbn [bind try_catch].
      rewrite (run_db memory _ _ w w _ (memory_select w (count_query _) t _ _ Ht eq_refl)).
      cbn [settle bind try_catch]. rewrite count_reply. cbn [error count bind try_catch].
      match goal with
      | |- context [Db (range ?lo ?hi (joined_query ?u ?d ?v ?c ?s)) _] =>
          destruct (joined_query_shape u d v c s) as (Qt & Qv & Qo & Ql & Qs);
          pose proof (memory_select w (range lo hi (joined_query u d v c s)) t star_joined false)
            as Hq;
          pose proof (joined_rows_sorted (db w) t (joined_query u d v c s) lo hi Hrel Qs Ql Qo)
            as Hrows;
          destruct (joined_reply (db w) t (joined_query u d v c s) lo
                      (parseInt (default_to (jint 12) (lookup "limit" (req_query req))))
                      Hrel Qs Ql)
            as [(e & He & Hsig)|(rows0 & He & _ & _)]
      end.
      * rewrite (run_db memory _ _ w w _ (Hq ltac:(cbn [q_table range]; rewrite Qt; exact Ht)
                                            ltac:(cbn [q_verb range]; exact Qv))).
        cbn [settle bind try_catch]. rewrite He, Hsig.
        cbn [logged result try_catch run server_error]. discriminate.
      * rewrite (run_db memory _ _ w w _ (Hq ltac:(cbn [q_table range]; rewrite Qt; exact Ht)
                                            ltac:(cbn [q_verb range]; exact Qv))).
        cbn [settle bind try_catch]. rewrite He.
        destruct (Hrows He) as (rows & Hd & Hsorted). rewrite Hd.
        cbn [map_rows bind try_catch run logged result].
        rewrite json_page. intro E. injection E as <- _.
        exists rows. split; [exact Hsorted|]. rewrite !map_map. reflexivity.
    + destruct (get_notes_unrelated w req t Ht Hrel) as [rq E'].
      rewrite E' in E. cbn [result] in E. rewrite json_page in E. injection E as <- _.
      eexists. split; [|rewrite map_map; reflexivity].
      exact (sort_rows_sorted (row_leb "created_at" false) (row_leb_total "created_at" false) _).
  - rewrite (get_notes_table_absent memory req w w (reply_error (table_missing "posts"))
               (table_missing "posts") (memory_missing w probe_query Ht) eq_refl eq_refl) in E.
    cbn [result] in E. rewrite json_page in E. injection E as <- _.
    exists []. split; [constructor|reflexivity].
Qed.

Lemma get_notes_newest_first_witness :
  exists rows,
    Sorted (fun a b => cell_leb (prop "created_at" b) (prop "created_at" a) = true) rows /\
    [ to_json (list_view (shaped (db Sample.world) star_joined
                            (Sample.note 3 "u1" false false 12 12 JNull)));
      to_json (list_view (shaped (db Sample.world) star_joined
                            (Sample.note 1 "u1" true true 10 20 (JStr "aa11")))) ]
    = map (fun r => to_json (list_view (shaped (db Sample.world) star_joined r))) rows.
Proof.
  exact (get_notes_lists_the_newest_first Sample.world (Sample.request [] [] JNull) _ _
           eq_refl eq_refl).
Defined.

(** ** The label filter of the list route *)





(** ** No exception escapes a route *)

Lemma returns_bind {A B : Type} (Q : B -> Prop) (p : Prog A) (f : A -> Prog B) :
  (forall a, returns Q (f a)) -> returns Q (bind p f).
Proof.
  intro Hf. induction p as [a|e|t k IH|q k IH|k IH|n k IH|l k IH]; cbn [bind returns]; auto.
Qed.

Lemma always_try_catch {A : Type} (Q : A -> Prop) (p : Prog A) (h : JsError -> Prog A) :
  returns Q p -> (forall e, always Q (h e)) -> always Q (try_catch p h).
Proof.
  intros Hp Hh. induction p as [a|e|t k IH|q k IH|k IH|n k IH|l k IH];
    cbn [try_catch always returns] in *; auto.
Qed.

Lemma always_run {A W : Type} (Q : A -> Prop) (H : Handler W) (p : Prog A) (w : W) :
  always Q p -> exists a, result (run H p w) = Resolved a /\ Q a.
Proof.
  revert w. induction p as [a|e|t k IH|q k IH|k IH|n k IH|l k IH]; intros w Hp;
    cbn [run always] in *.
  - exists a. split; [reflexivity|exact Hp].
  - destruct Hp.
  - destruct (on_getUser H w t) as [r w']. cbn [logged result]. apply IH, Hp.
  - destruct (on_db H w q) as [r w']. cbn [logged result]. apply IH, Hp.
  - apply IH, Hp.
  - apply IH, Hp.
  - cbn [logged result]. apply IH, Hp.
Qed.

Ltac ends_step :=
  match goal with
  | |- returns _ (bind ?p _) => apply returns_bind; intro
  | |- returns _ (match ?x with _ => _ end) => destruct x
  | |- returns _ (Ret _) => cbn [returns status status_json json not_found]; cbn [In]; tauto
  | |- returns _ (Throw _) => exact I
  | |- returns _ _ => progress cbn [returns]
  | |- forall _, _ => intro
  end.

Ltac route_ends :=
  apply always_run; apply always_try_catch;
  [ repeat ends_step
  | intro; cbn [always server_error console bind status status_json]; cbn [In]; tauto ].

(** X25.  No exception escapes a note, category or label route:
    whatever the database and the other services do, a failing or
    throwing call included, each route ends with a response, whose
    status is 500 or one of the route's own: 200 for the lists and the
    delete, 201 for the three creations, and 200 or 404 for the routes
    that address one note. *)
Theorem every_route_answers_with_a_status_of_its_own :
  forall (W : Type) (H : Handler W) (w : W) (req : Request),
    answers_with H w [200; 500] (get_notes req) /\
    answers_with H w [201; 500] (post_notes req) /\
    answers_with H w [200; 404; 500] (put_note req) /\
    answers_with H w [200; 500] (delete_note req) /\
    answers_with H w [200; 404; 500] (post_autosave req) /\
    answers_with H w [200; 404; 500] (get_public req) /\
    answers_with H w [200; 404; 500] (patch_visibility req) /\
    answers_with H w [200; 404; 500] (get_note req) /\
    answers_with H w [200; 404; 500] (patch_publish req) /\
    answers_with H w [200; 500] (get_categories req) /\
    answers_with H w [201; 500] (post_categories req) /\
    answers_with H w [200; 500] (get_labels req) /\
    answers_with H w [201; 500] (post_labels req).
Proof.
  intros W H w req. unfold answers_with.
  repeat split.
  - unfold get_notes. route_ends.
  - unfold post_notes. route_ends.
  - unfold put_note. route_ends.
  - unfold delete_note. route_ends.
  - unfold post_autosave. route_ends.
  - unfold get_public. route_ends.
  - unfold patch_visibility. route_ends.
  - unfold get_note. route_ends.
  - unfold patch_publish. route_ends.
  - unfold get_categories. route_ends.
  - unfold post_categories. route_ends.
  - unfold get_labels. route_ends.
  - unfold post_labels. route_ends.
Qed.

(** ** Creating a note *)

Lemma run_keeps_store {A : Type} (P : Store -> Prop) (p : Prog A) (w : World) :
  all_queries (keeps_store P) p ->
  P (db w) -> P (db (final (run memory p w))).
Proof.
  revert w. induction p as [a|e|t k IH|q k IH|k IH|n k IH|l k IH]; intros w Hp Hw;
    cbn [run all_queries] in *; auto.
  - destruct (on_getUser memory w t) as [r w'] eqn:E. cbn [on_getUser memory] in E.
    injection E as <- <-. cbn [logged final]. apply IH; auto.
  - destruct Hp as [Hq Hk]. cbn [on_db memory].
    destruct (exec (db w) (clock w) q) as [r s] eqn:E. cbn [logged final].
    apply IH; [apply Hk|]. cbn [db with_db].
    specialize (Hq (db w) (clock w) Hw). rewrite E in Hq. exact Hq.
  - cbn [logged final]. apply IH; auto.
Qed.

Section SameNotes.

(** The rows of [posts] are [rows]. *)
Variable rows : list jsval.

Lemma same_notes_select (q : Query) (c : Columns) (h : bool) :
  q_verb q = Select c h -> keeps_store (fun s => rows_of s "posts" = rows) q.
Proof.
  intros Hv s now Hs. unfold exec. rewrite Hv.
  destruct (table (q_table q) (tables s)); exact Hs.
Qed.

Lemma same_notes_other_table (q : Query) :
  ("posts" =? q_table q)%string = false -> keeps_store (fun s => rows_of s "posts" = rows) q.
Proof.
  intros Hne s now Hs. unfold exec.
  destruct (table (q_table q) (tables s)) as [t|]; [|exact Hs].
  destruct (q_verb q) as [c h|new|patch|]; cbn [snd]; [exact Hs| | |].
  - destruct (insert_rows _ _ _ _ _) as [[[ins rs] sr]|]; cbn [snd]; [|exact Hs].
    rewrite rows_of_other_table; assumption.
  - rewrite rows_of_other_table; assumption.
  - rewrite rows_of_other_table; assumption.
Qed.

Lemma insert_labels_same_notes (new : option (list jsval)) :
  all_queries (keeps_store (fun s => rows_of s "posts" = rows)) (insert_labels new).
Proof.
  destruct new as [l|]; cbn [insert_labels]; [|exact I].
  apply all_queries_bind; [|intro; apply all_queries_throw_if_error].
  apply all_queries_await, same_notes_other_table. reflexivity.
Qed.

End SameNotes.

(** X26.  [POST /api/notes] stores at most one note.  Unless the
    insert meets a conflict of the primary key (then nothing is stored
    and the answer is 500), the note is appended to the table; it
    belongs to the caller whatever the body says, carries the random
    share token when [is_public] is truthy and [null] otherwise,
    stores [is_public] and [is_draft] as sent, [false] when the body
    leaves them out, and is stamped with the time of the request. *)
Theorem post_notes_stores_one_note_of_the_caller :
  forall (w : World) (req : Request) (t : Table) (uid : string),
    table "posts" (tables (db w)) = Some t ->
    prop "id" (req_user req) = JStr uid ->
    let is_public := default_to (JBool false) (prop "is_public" (req_body req)) in
    let is_draft := default_to (JBool false) (prop "is_draft" (req_body req)) in
    let out := run memory (post_notes req) w in
    (result out = Resolved (status_json 500 (error_body (message duplicate_key))) /\
     final out = w) \/
    (exists row,
        rows_of (db (final out)) "posts" = (t_rows t ++ [row])%list /\
        prop "user_id" row = JStr uid /\
        prop "public_share_token" row
        = (if truthy is_public then JStr (entropy w) else JNull) /\
        prop "is_public" row = to_json is_public /\
        prop "is_draft" row = to_json is_draft /\
        prop "updated_at" row = jint (clock w) /\
        prop "last_autosave" row = jint (clock w)).
Proof.
  intros w req t uid Ht Hid is_public is_draft out.
  set (token := if truthy is_public then JStr (entropy w) else JNull).
  set (sent := [ ("title", prop "title" (req_body req));
                 ("content", if truthy (default_to (JBool false) (prop "is_encrypted" (req_body req)))
                             then JNull else prop "content" (req_body req));
                 ("encrypted_content",
                  if truthy (default_to (JBool false) (prop "is_encrypted" (req_body req)))
                  then prop "encrypted_content" (req_body req) else JNull);
                 ("category_id", js_or (prop "category_id" (req_body req)) JNull);
                 ("user_id", JStr uid);
                 ("is_draft", is_draft);
                 ("is_public", is_public);
                 ("is_encrypted", default_to (JBool false) (prop "is_encrypted" (req_body req)));
                 ("public_share_token", token);
                 ("last_autosave", jint (clock w));
                 ("updated_at", jint (clock w)) ]).
  assert (Hrun : exists k,
             run memory (post_notes req) w
             = run memory (Db (from "posts" (Insert [JObj sent]) |> returning |> single) k) w /\
             (forall e w', run memory (k (Resolved (reply_error e))) w'
                           = {| result := Resolved (status_json 500 (error_body (message e)));
                                final := w'; trace := [] |}) /\
             (forall row, all_queries (keeps_store (fun s => rows_of s "posts"
                                                            = (t_rows t ++ [row])%list))
                            (k (Resolved (reply_ok row))))).
  { subst out sent token is_public is_draft.
    unfold post_notes, new_Date, randomBytes_hex, await_db. rewrite Hid.
    destruct (truthy (default_to (JBool false) (prop "is_public" (req_body req))));
      cbn [bind try_catch run on_random on_date memory];
      (eexists; split; [reflexivity|]; split;
       [ intros e w'; reflexivity
       | intro row; cbn [settle bind try_catch throw_if_error error reply_ok data];
         apply all_queries_try_catch; [|intro; exact I];
         walk_queries;
         first [ apply insert_labels_same_notes
               | cbn [all_queries]; split;
                 [eapply same_notes_select; reflexivity|intro; walk_queries] ] ]). }
  destruct Hrun as (k & Hrun & Herr & Hkeep). subst out. rewrite Hrun.
  destruct (memory_insert_one w (from "posts" (Insert [JObj sent]) |> returning |> single) t
              (JObj sent) Ht eq_refl eq_refl eq_refl)
    as [E|(row & serial & Hrow & E)];
    rewrite (run_db memory _ k w _ _ E).
  - left. rewrite Herr. split; reflexivity.
  - right. exists row. cbn [logged final]. split.
    + apply (run_keeps_store _ _ _ (Hkeep row)).
      cbn [db with_db q_table from returning single]. apply rows_of_with_table.
    + pose proof (fun k v Hk Hv Hne => sent_column k v sent _ row Hk Hv Hne Hrow) as Hcol.
      assert (Htoken : token <> JUndef)
        by (subst token; destruct (truthy is_public); discriminate).
      assert (Hpub : is_public <> JUndef)
        by (subst is_public; destruct (prop "is_public" (req_body req)); discriminate).
      assert (Hdraft : is_draft <> JUndef)
        by (subst is_draft; destruct (prop "is_draft" (req_body req)); discriminate).
      split; [apply (Hcol "user_id" (JStr uid)); [reflexivity|discriminate|reflexivity]|].
      split; [rewrite (Hcol "public_share_token" token eq_refl Htoken eq_refl);
              subst token; destruct (truthy is_public); reflexivity|].
      split; [apply (Hcol "is_public" is_public eq_refl Hpub eq_refl)|].
      split; [apply (Hcol "is_draft" is_draft eq_refl Hdraft eq_refl)|].
      split; [apply (Hcol "updated_at" (jint (clock w))); [reflexivity|discriminate|reflexivity]|].
      apply (Hcol "last_autosave" (jint (clock w))); [reflexivity|discriminate|reflexivity].
Qed.

Lemma post_notes_witness :
  let req := Sample.request [] []
               (JObj [("title", JStr "shared"); ("is_public", JBool true);
                      ("user_id", JStr "u2")]) in
  let out := run memory (post_notes req) Sample.world in
  (result out = Resolved (status_json 500 (error_body (message duplicate_key))) /\
   final out = Sample.world) \/
  (exists row,
      rows_of (db (final out)) "posts" = (rows_of (db Sample.world) "posts" ++ [row])%list /\
      prop "user_id" row = JStr "u1" /\
      prop "public_share_token" row = JStr "5f2d" /\
      prop "is_public" row = JBool true /\
      prop "is_draft" row = JBool false /\
      prop "updated_at" row = jint 100 /\
      prop "last_autosave" row = jint 100).
Proof.
  exact (post_notes_stores_one_note_of_the_caller Sample.world
           (Sample.request [] []
              (JObj [("title", JStr "shared"); ("is_public", JBool true);
                     ("user_id", JStr "u2")]))
           Sample.posts "u1" eq_refl eq_refl).
Defined.

(** X27.  Creating a note is not atomic.  When the body carries
    [label_ids] as a non-empty string, which has no [map], the route
    answers 500; but the note has been stored by then, and it stays:
    unless the insert itself met a conflict of the primary key, the
    table holds one more row after the failed request. *)
Theorem post_notes_keeps_the_note_when_the_labels_fail :
  forall (w : World) (req : Request) (t : Table) (s : string),
    table "posts" (tables (db w)) = Some t ->
    prop "label_ids" (req_body req) = JStr s -> s <> EmptyString ->
    let out := run memory (post_notes req) w in
    (result out = Resolved (status_json 500 (error_body (message duplicate_key))) /\
     final out = w) \/
    (result out = Resolved (status_json 500 (error_body "label_ids.map is not a function")) /\
     exists row, rows_of (db (final out)) "posts" = (t_rows t ++ [row])%list).
Proof.
  intros w req t s Ht Hlabels Hs out.
  assert (Hfalse : (s =? EmptyString)%string = false) by (apply String.eqb_neq; exact Hs).
  assert (Hrun : exists q k,
             run memory (post_notes req) w = run memory (Db q k) w /\
             q_table q = "posts" /\ (exists sent, q_verb q = Insert [sent]) /\
             q_returning q = true /\ q_single q = true /\
             (forall e w', run memory (k (Resolved (reply_error e))) w'
                           = {| result := Resolved (status_json 500 (error_body (message e)));
                                final := w'; trace := [] |}) /\
             (forall row w', run memory (k (Resolved (reply_ok row))) w'
                             = {| result := Resolved (status_json 500
                                               (error_body "label_ids.map is not a function"));
                                  final := w'; trace := [] |})).
  { subst out.
    unfold post_notes, new_Date, randomBytes_hex, await_db. rewrite Hlabels.
    cbn [truthy mapped_if_nonempty]. rewrite Hfalse. cbn [negb].
    destruct (truthy (default_to (JBool false) (prop "is_public" (req_body req))));
      cbn [bind try_catch run on_random on_date memory];
      (eexists; eexists; split; [reflexivity|]; split; [reflexivity|];
       split; [eexists; reflexivity|];
       split; [reflexivity|]; split; [reflexivity|];
       split; intros; reflexivity). }
  destruct Hrun as (q & k & Hrun & Hq & [sent Hv] & Hret & Hsingle & Herr & Hok).
  subst out. rewrite Hrun.
  destruct (memory_insert_one w q t sent ltac:(rewrite Hq; exact Ht) Hv Hret Hsingle)
    as [E|(row & serial & Hrow & E)];
    rewrite (run_db memory _ k w _ _ E).
  - left. rewrite Herr. split; reflexivity.
  - right. rewrite Hok. cbn [logged result final]. split; [reflexivity|].
    exists row. cbn [db with_db]. rewrite Hq. apply rows_of_with_table.
Qed.

Lemma post_notes_keeps_the_note_witness :
  let req := Sample.request [] [] (JObj [("title", JStr "tagged"); ("label_ids", JStr "1,2")]) in
  let out := run memory (post_notes req) Sample.world in
  status_of (result out) = Some 500 /\
  length (rows_of (db (final out)) "posts") = 4%nat.
Proof.
  destruct (post_notes_keeps_the_note_when_the_labels_fail Sample.world
              (Sample.request [] [] (JObj [("title", JStr "tagged"); ("label_ids", JStr "1,2")]))
              Sample.posts "1,2" eq_refl eq_refl ltac:(discriminate))
    as [[E _]|[E [row Hrows]]].
  - discriminate E.
  - split; [rewrite E; reflexivity|]. rewrite Hrows. rewrite length_app. reflexivity.
Defined.

(** ** Editing a note *)

(** The label part of [PUT /api/notes/:id]. *)
Lemma put_labels_same_notes (rows : list jsval) (id label_ids : jsval) :
  all_queries (keeps_store (fun s => rows_of s "posts" = rows))
    (match label_ids with
     | JUndef => Ret tt
     | _ =>
         await_db (from "post_labels" Delete |> eq_ "post_id" id) ;;
         new <- settle (mapped_if_nonempty
                          (fun labelId => obj [("post_id", JNum (parseInt id)); ("label_id", labelId)])
                          label_ids) ;;
         insert_labels new
     end).
Proof.
  destruct label_ids; try exact I;
    (apply all_queries_bind;
     [apply all_queries_await, same_notes_other_table; reflexivity|intros _];
     apply all_queries_bind; [apply all_queries_settle|intro new];
     apply insert_labels_same_notes).
Qed.

Lemma full_view_updated (post v : jsval) :
  prop "is_updated" post = JBool true -> prop "updated_at" post = v -> v <> JUndef ->
  prop "display_date" (to_json (full_view post)) = to_json v /\
  prop "date_type" (to_json (full_view post)) = JStr "updated".
Proof.
  intros Hflag Hat Hv.
  unfold full_view, spread, display_date, date_type. rewrite Hflag, Hat.
  cbn [truthy fold_left fst snd]. rewrite to_json_obj. cbn [prop].
  split.
  - rewrite (json_field_some "display_date" v); [reflexivity| |exact Hv].
    look_up. reflexivity.
  - rewrite (json_field_some "date_type" (JStr "updated")); [reflexivity| |discriminate].
    look_up. reflexivity.
Qed.

Lemma shaped_joined_prop (s : Store) (k : string) (row : jsval) :
  (k =? "category")%string = false -> (k =? "post_labels")%string = false ->
  prop k (shaped s star_joined row) = prop k row.
Proof.
  intros H1 H2. unfold shaped, spread.
  cbn [named with_category with_post_labels star_joined fold_left fst snd prop].
  rewrite field_set_other by assumption. cbn [own_fields].
  rewrite field_set_other by assumption. destruct row; reflexivity.
Qed.

(** X28.  A 200 answer of [PUT /api/notes/:id] shows the edit: the
    note it returns is marked as updated, its [display_date] is the
    time of the request, and its [date_type] is ["updated"]. *)
Theorem put_note_answer_shows_the_edit :
  forall (w : World) (req : Request) (p : jsval),
    result (run memory (put_note req) w) = Resolved {| status := 200; payload := p |} ->
    prop "date_type" p = JStr "updated" /\
    prop "display_date" p = jint (clock w) /\
    prop "updated_at" p = jint (clock w) /\
    prop "is_updated" p = JBool true.
Proof.
  intros w req p.
  set (id := lookup "id" (req_params req)).
  set (userId := prop "id" (req_user req)).
  set (hit := matches (db w) [FEq "id" id; FEq "user_id" userId]).
  set (patch := obj [ ("title", prop "title" (req_body req));
                      ("content", prop "content" (req_body req));
                      ("category_id", js_or (prop "category_id" (req_body req)) JNull);
                      ("updated_at", jint (clock w));
                      ("is_updated", JBool true) ]).
  assert (Hpatched : forall r,
             prop "is_updated" (patched patch r) = JBool true /\
             prop "updated_at" (patched patch r) = jint (clock w) /\
             prop "id" (patched patch r) = prop "id" r).
  { intro r. subst patch. split; [|split].
    - literal_object.
      rewrite (patched_prop "is_updated" (JBool true)); [reflexivity|distinct_keys|reflexivity|discriminate].
    - literal_object.
      rewrite (patched_prop "updated_at" (jint (clock w)));
        [reflexivity|distinct_keys|reflexivity|discriminate].
    - apply patched_other. not_a_key. }
  destruct (table "posts" (tables (db w))) as [t|] eqn:Ht.
  2:{ unfold put_note, new_Date, await_db. cbn [bind try_catch run].
      match goal with
      | |- context [on_db memory w ?q] => rewrite (memory_missing w q Ht)
      end.
      cbn. discriminate. }
  set (rows1 := map (fun r => if hit r then patched patch r else r) (t_rows t)).
  set (w1 := with_db w (with_table (db w) "posts" (with_rows t rows1 (t_serial t)))).
  set (pre := match prop "label_ids" (req_body req) with
              | JUndef => Ret tt
              | _ =>
                  await_db (from "post_labels" Delete |> eq_ "post_id" id) ;;
                  new <- settle (mapped_if_nonempty
                                   (fun labelId => obj [("post_id", JNum (parseInt id));
                                                        ("label_id", labelId)])
                                   (prop "label_ids" (req_body req))) ;;
                  insert_labels new
              end).
  assert (Hrun : result (run memory (put_note req) w)
                 = if no_rows (JArr (map (patched patch) (filter hit (t_rows t))))
                   then Resolved (not_found "Note not found or access denied")
                   else result (run memory
                                  (try_catch
                                     (pre ;;
                                      fetched <- await_db (complete_post id) ;;
                                      throw_if_error fetched ;;
                                      Ret (json (full_view (data fetched))))
                                     server_error) w1)).
  { unfold put_note, new_Date. unfold await_db at 1. cbn [bind try_catch run on_date memory].
    match goal with
    | |- context [on_db memory w ?q] =>
        rewrite (memory_update w q t _ Ht eq_refl eq_refl eq_refl)
    end.
    cbn [settle bind try_catch throw_if_error error reply_ok data logged result
         q_filters q_table from eq_ returning app].
    fold id userId hit patch rows1 w1.
    destruct (no_rows (JArr (map (patched patch) (filter hit (t_rows t))))); reflexivity. }
  rewrite Hrun. clear Hrun.
  destruct (filter hit (t_rows t)) as [|r0 others] eqn:Hhit; cbn [map no_rows];
    [discriminate|].
  assert (Hr0 : In r0 (t_rows t) /\ hit r0 = true).
  { apply filter_In. rewrite Hhit. left; reflexivity. }
  destruct Hr0 as [Hin0 Hhit0].
  rewrite run_try_catch, run_bind.
  pose proof (run_keeps_store (fun s => rows_of s "posts" = rows1) pre w1
                (put_labels_same_notes rows1 id (prop "label_ids" (req_body req)))
                (rows_of_with_table (db w) "posts" _)) as Hrows.
  destruct (run memory pre w1) as [[[]|e] w2 tr]; unfold and_then, or_else;
    cbn [result final trace]; [|cbn [server_error run result]; discriminate].
  cbn [final] in Hrows.
  unfold await_db. cbn [bind].
  match goal with
  | |- context [run memory (Db ?q ?k) w2] =>
      rewrite (memory_select_run w2 q k star_joined false eq_refl)
  end.
  cbn [q_table from eq_ single complete_post].
  unfold rows_of in Hrows.
  destruct (table "posts" (tables (db w2))) as [t2|] eqn:Ht2;
    [|cbn [settle bind throw_if_error error reply_error run result server_error]; discriminate].
  rewrite single_select_reply by reflexivity.
  cbn [q_filters from eq_ single complete_post app embeds star_joined with_category
       with_post_labels orb andb].
  destruct (relationships (db w2)); cbn [negb andb];
    [|cbn [settle bind throw_if_error error reply_error run result server_error]; discriminate].
  rewrite (filter_ext _ _ (matches_one_eq (db w2) "id" id)), Hrows.
  assert (Hthere : In (patched patch r0) (filter (fun r => sql_eq (prop "id" r) id) rows1)).
  { apply filter_In. split.
    - subst rows1. apply in_map_iff. exists r0. rewrite Hhit0. auto.
    - rewrite (proj2 (proj2 (Hpatched r0))).
      unfold hit in Hhit0. rewrite matches_id_owner in Hhit0.
      apply andb_prop in Hhit0 as [Hid _]. exact Hid. }
  destruct (filter (fun r => sql_eq (prop "id" r) id) rows1) as [|r [|r' rest]];
    [destruct Hthere| |cbn [settle bind throw_if_error error reply_error run result server_error];
                       discriminate].
  destruct Hthere as [->|[]].
  cbn [settle bind throw_if_error error reply_ok data run result].
  unfold json, status_json.
  intro E. apply (f_equal body_of) in E. cbn [body_of payload] in E. subst p.
  destruct (Hpatched r0) as (Hflag & Hat & _).
  destruct (full_view_updated (shaped (db w2) star_joined (patched patch r0)) (jint (clock w)))
    as [Hdate Htype];
    [rewrite shaped_joined_prop by reflexivity; exact Hflag
    |rewrite shaped_joined_prop by reflexivity; exact Hat
    |discriminate|].
  split; [exact Htype|]. split; [exact Hdate|].
  split.
  - apply (full_view_column "updated_at" (jint (clock w))); try reflexivity; [|discriminate].
    apply shaped_joined_column; [exact Hat|discriminate|reflexivity|reflexivity].
  - apply (full_view_column "is_updated" (JBool true)); try reflexivity; [|discriminate].
    apply shaped_joined_column; [exact Hflag|discriminate|reflexivity|reflexivity].
Qed.

Lemma put_note_witness :
  let out := run memory
               (put_note (Sample.request [("id", "3")] [] (JObj [("title", JStr "bread")])))
               Sample.world in
  status_of (result out) = Some 200 /\
  prop "date_type" (body_of (result out)) = JStr "updated" /\
  prop "display_date" (body_of (result out)) = jint 100 /\
  prop "updated_at" (body_of (result out)) = jint 100 /\
  prop "is_updated" (body_of (result out)) = JBool true.
Proof.
  split; [reflexivity|].
  exact (put_note_answer_shows_the_edit Sample.world
           (Sample.request [("id", "3")] [] (JObj [("title", JStr "bread")])) _ eq_refl).
Defined.
